(** * Fleet telemetry pipeline: agent and collector

    A shallow embedding of the agent ([src/Agent/Agent.py]) and of the
    statistics endpoint of the collector ([src/Api/Api.py]), followed by the
    properties of the specification that concern them.

    Conventions of the embedding.
    - A number of a record is a finite Python [float], given by the rational
      ([Q]) that it denotes: comparisons between floats are exact, and sums
      and quotients are rounded to the nearest binary64 value ([round64]).
      A JSON integer is taken as the float of its value, which is what
      every operation here makes of it as long as it and the sums that it
      enters stay below 2^53.  NaN is outside the model.
    - Instants are integers counting microseconds, the resolution of
      [datetime].
    - An exception is a value of [exn]; code that may raise returns a
      [result].
    - A [dict] whose iteration order is observable is an association list in
      insertion order; a [set] of which only the size or membership is used
      is a [gset]. *)

From Stdlib Require Import QArith Qabs Qpower Lqa Ascii.
From stdpp Require Import base option list sorting gmap strings pretty.

Close Scope Q_scope.
Open Scope Z_scope.

(** ** Python values and helpers *)

Module Py.

Inductive exn :=
| AttributeError | TypeError | KeyError | IndexError | ValueError
| OverflowError | OSError
| NoSuchProcess | AccessDenied | ZombieProcess | OtherError.

Inductive result (A : Type) :=
| Ok (a : A)
| Raise (e : exn).
Arguments Ok {A} a.
Arguments Raise {A} e.

#[global] Instance result_ret : MRet result := fun _ a => Ok a.
#[global] Instance result_bind : MBind result := fun _ _ f m =>
  match m with Ok a => f a | Raise e => Raise e end.
#[global] Instance result_fmap : FMap result := fun _ _ f m =>
  match m with Ok a => Ok (f a) | Raise e => Raise e end.

(** [dict.get(key, default)] looks at a key that may be absent, may hold
    [None] (JSON [null]) or may hold a value. *)
Inductive slot (A : Type) :=
| Absent
| Null
| Val (a : A).
Arguments Absent {A}.
Arguments Null {A}.
Arguments Val {A} a.

#[global] Instance Q_eq_dec : EqDecision Q.
Proof. solve_decision. Defined.

#[global] Instance slot_eq_dec {A} `{EqDecision A} : EqDecision (slot A).
Proof. solve_decision. Defined.

(** [d.get(k, default)]: the default replaces an absent key only; the
    result is [None] when the key holds [None]. *)
Definition get {A} (s : slot A) (default : option A) : option A :=
  match s with
  | Absent => default
  | Null => None
  | Val a => Some a
  end.

(** Truth value of an optional string: [None] and [''] are false. *)
Definition truthy (s : option string) : bool :=
  match s with
  | Some EmptyString => false
  | Some _ => true
  | None => false
  end.

(** A [str] is given by the bytes of its UTF-8 form, in which comparing
    strings and looking for an ASCII character work byte by byte; a
    character starts at every byte that is not a continuation byte
    ([10xxxxxx]).  Strings with lone surrogates have no such form and are
    outside the model. *)
Definition is_continuation (c : ascii) : bool :=
  match c with
  | Ascii _ _ _ _ _ _ false true => true
  | _ => false
  end.

(** [s[:n]]: the first [n] characters *)
Fixpoint take_chars (n : nat) (s : string) : string :=
  match s with
  | EmptyString => EmptyString
  | String c rest =>
      if is_continuation c then String c (take_chars n rest)
      else match n with
           | O => EmptyString
           | S n' => String c (take_chars n' rest)
           end
  end.

(** [s.startswith((p1, p2, ...))] *)
Definition startswith (prefixes : list string) (s : string) : bool :=
  existsb (fun p => String.prefix p s) prefixes.

(** [sorted(l, key=...)] is a stable sort; [le x y] tells that [x] may
    stand before [y].  Insertion from the right keeps elements with equal
    keys in their original order, for [reverse=True] as well. *)
Fixpoint insert_by {A} (le : A -> A -> bool) (x : A) (l : list A) : list A :=
  match l with
  | [] => [x]
  | y :: l' => if le x y then x :: y :: l' else y :: insert_by le x l'
  end.

Definition sorted_by {A} (le : A -> A -> bool) (l : list A) : list A :=
  foldr (insert_by le) [] l.

(** [l[-n:]] for a positive [n] *)
Definition last_n {A} (n : nat) (l : list A) : list A :=
  drop (length l - n)%nat l.

Definition is_None {A} (o : option A) : bool :=
  match o with None => true | Some _ => false end.

(** [range(n)] *)
Definition range (n : Z) : list Z :=
  Z.of_nat <$> seq 0 (Z.to_nat n).

(** Comparisons of floats *)
Definition Qleb (x y : Q) : bool := Qle_bool x y.
Definition Qltb (x y : Q) : bool := negb (Qle_bool y x).
Definition Qeqb (x y : Q) : bool := Qeq_bool x y.

(** The result of an operation on floats: a finite binary64 value, given
    by the rational that it denotes in lowest terms, or an infinity, which
    is what an operation that overflows gives.  The sign of a zero is not
    kept. *)
Inductive float :=
| Finite (q : Q)
| Infinite (negative : bool).

(** The nearest integer, the even one of two that are equally near *)
Definition round_half_even (x : Q) : Z :=
  let n := Qnum x in
  let d := Z.pos (Qden x) in
  let below := n `div` d in
  match 2 * (n `mod` d) ?= d with
  | Lt => below
  | Gt => below + 1
  | Eq => if Z.even below then below else below + 1
  end.

(** The exponent of the highest power of 2 that is at most [x], for a
    positive [x] *)
Definition floor_log2 (x : Q) : Z :=
  let k := Z.log2 (Qnum x) - Z.log2 (Z.pos (Qden x)) in
  if Qle_bool (2 ^ k)%Q x then k else k - 1.

(** Rounding to binary64, to nearest and ties to even: a multiple of [2^e]
    with at most 53 bits, where [e] is at least -1074 (the subnormal
    numbers); from [2^1024] on the result is an infinity. *)
Definition round64 (x : Q) : float :=
  if Qeq_bool x 0 then Finite 0
  else
    let e := Z.max (floor_log2 (Qabs x) - 52) (-1074) in
    let y := (inject_Z (round_half_even (x / 2 ^ e)) * 2 ^ e)%Q in
    if Qle_bool (2 ^ 1024)%Q (Qabs y) then Infinite (negb (Qle_bool 0 x))
    else Finite (Qred y).

(** [x + y] for a float or the [int] 0 on the left and a finite float on
    the right *)
Definition float_add (x : float) (y : Q) : float :=
  match x with
  | Finite a => round64 (a + y)
  | Infinite negative => Infinite negative
  end.

(** [x / n] for a positive [int] below 2^53 *)
Definition float_div (x : float) (n : Z) : float :=
  match x with
  | Finite a => round64 (a / inject_Z n)
  | Infinite negative => Infinite negative
  end.

(** A [dict] in insertion order.  [d[k] = v] keeps the position of a key
    that is already there. *)
Section Dict.
Context {K V : Type} `{EqDecision K}.

Fixpoint dict_set (k : K) (v : V) (d : list (K * V)) : list (K * V) :=
  match d with
  | [] => [(k, v)]
  | (k', v') :: d' =>
      if decide (k' = k) then (k, v) :: d' else (k', v') :: dict_set k v d'
  end.

Fixpoint dict_get (k : K) (d : list (K * V)) : option V :=
  match d with
  | [] => None
  | (k', v') :: d' => if decide (k' = k) then Some v' else dict_get k d'
  end.

Definition keys (d : list (K * V)) : list K := d.*1.
Definition values (d : list (K * V)) : list V := d.*2.
End Dict.

End Py.

Import Py.

(** ** The agent ([src/Agent/Agent.py]) *)

Module Agent.

(** *** [get_real_ip] *)

Inductive family := AF_INET | AF_INET6 | AF_PACKET.

#[global] Instance family_eq_dec : EqDecision family.
Proof. solve_decision. Defined.

(** An entry of [psutil.net_if_addrs()] *)
Record snicaddr := { addr_family : family; address : string }.

(** What the host answers to the three strategies; [None] stands for a
    raised exception. *)
Record Host := {
  (** [getsockname()[0]] of a datagram socket connected to 8.8.8.8:80 *)
  udp_sockname : option string;
  (** [psutil.net_if_addrs().items()] *)
  net_if_addrs : option (list (string * list snicaddr));
  (** [socket.gethostbyname(socket.gethostname())] *)
  hostbyname : option string
}.

(** The inner [for addr in addr_list] of the second strategy *)
Fixpoint scan_addrs (addr_list : list snicaddr) : option string :=
  match addr_list with
  | [] => None
  | addr :: rest =>
      if decide (addr_family addr = AF_INET) then
        let ip := address addr in
        if negb (startswith ["127."; "169.254."] ip) then Some ip
        else scan_addrs rest
      else scan_addrs rest
  end.

(** The outer [for interface, addr_list in addrs.items()] *)
Fixpoint scan_interfaces (addrs : list (string * list snicaddr)) : option string :=
  match addrs with
  | [] => None
  | (interface, addr_list) :: rest =>
      if startswith ["lo"; "docker"; "br-"; "veth"] interface then
        scan_interfaces rest
      else
        match scan_addrs addr_list with
        | Some ip => Some ip
        | None => scan_interfaces rest
        end
  end.

Definition method2 (h : Host) : option string :=
  addrs ← net_if_addrs h; scan_interfaces addrs.

Definition method3 (h : Host) : option string :=
  ip ← hostbyname h;
  if negb (startswith ["127."] ip) then Some ip else None.

Definition get_real_ip (h : Host) : string :=
  match udp_sockname h with
  | Some ip => ip
  | None =>
      match method2 h with
      | Some ip => ip
      | None =>
          match method3 h with
          | Some ip => ip
          | None => "127.0.0.1"
          end
      end
  end.

(** Addresses of 127.0.0.0/8, as the source tests them *)
Definition is_loopback (ip : string) : bool := startswith ["127."] ip.

(** *** [send_to_api] *)

(** Outcome of one [requests.post(api_url, json=data, timeout=10)] *)
Inductive outcome :=
| Response (status_code : Z)
| PostRaised.

Inductive event :=
| Post
| Sleep (secs : Z).

#[global] Instance event_eq_dec : EqDecision event.
Proof. solve_decision. Defined.

Definition is_200 (o : outcome) : bool :=
  match o with
  | Response c => c =? 200
  | PostRaised => false
  end.

(** [time.sleep(secs)] for an [int], as CPython does it on Linux.  The
    length is first converted to a count of nanoseconds in 64 bits, which
    raises [OverflowError] beyond [sleep_max] seconds in either direction;
    a negative length then raises [ValueError]; at last the deadline, the
    monotonic clock plus the length, has to fit the same counter, or the
    system call fails with [OSError].  The clock is taken to read less than
    2^62 ns (146 years since boot), so a length of at most [sleep_sure]
    seconds always fits; for a longer one [accepts secs] tells whether the
    system takes it. *)
Definition sleep_max : Z := 9223372036.
Definition sleep_sure : Z := 4611686018.

Definition time_sleep (accepts : Z -> bool) (secs : Z) : result unit :=
  if (secs <? - sleep_max) || (sleep_max <? secs) then Raise OverflowError
  else if secs <? 0 then Raise ValueError
  else if (secs <=? sleep_sure) || accepts secs then Ok ()
  else Raise OSError.

(** The body of [for attempt in range(retries)], with the events so far.
    [post attempt] is the outcome of the request of that iteration;
    [retries] and [backoff] are [int]s; what [time.sleep] raises is raised
    outside of the [try]. *)
Fixpoint send_loop (accepts : Z -> bool) (post : Z -> outcome) (retries backoff : Z)
    (attempts : list Z) (tr : list event) : list event * result bool :=
  match attempts with
  | [] => (tr, Ok false)
  | attempt :: rest =>
      let tr := tr ++ [Post] in
      if is_200 (post attempt) then (tr, Ok true)
      else if attempt <? retries - 1 then
        let secs := backoff * 2 ^ attempt in
        match time_sleep accepts secs with
        | Ok _ => send_loop accepts post retries backoff rest (tr ++ [Sleep secs])
        | Raise e => (tr, Raise e)
        end
      else send_loop accepts post retries backoff rest tr
  end.

Definition send_to_api (accepts : Z -> bool) (post : Z -> outcome)
    (retries backoff : Z) : list event * result bool :=
  send_loop accepts post retries backoff (range retries) [].

Definition attempts_made (tr : list event) : nat :=
  length (filter (fun e => e = Post) tr).

Definition sleep_secs (e : event) : Z :=
  match e with Post => 0 | Sleep s => s end.

Definition total_sleep (tr : list event) : Z :=
  foldr Z.add 0 (sleep_secs <$> tr).

(** *** The process list of [collect_system_info] *)

(** [proc.info] for the attributes asked of [process_iter]; [psutil] puts
    [None] where access to an attribute was denied. *)
Record pinfo := {
  pid : Z;
  name : option string;
  cpu_percent : option Q;
  memory_percent : option Q;
  status : option string
}.

(** A process of the second pass: its [info] and what
    [proc.cpu_percent(interval=0.1)] gives if it is called. *)
Record process := {
  info : pinfo;
  cpu_percent_interval : result Q
}.

(** What [psutil] shows during one call of [collect_system_info]: the
    per-process outcomes of the discarded first reading and the processes
    of the second [process_iter]; either enumeration may raise. *)
Record ProcessTable := {
  first_pass : result (list (result Q));
  second_pass : result (list process)
}.

(** [ZombieProcess] is a subclass of [NoSuchProcess]. *)
Definition skipped (e : exn) : bool :=
  match e with
  | NoSuchProcess | AccessDenied | ZombieProcess => true
  | _ => false
  end.

(** First loop: the readings are thrown away, two exceptions are passed. *)
Fixpoint initialise (readings : list (result Q)) : result unit :=
  match readings with
  | [] => Ok ()
  | Ok _ :: rest => initialise rest
  | Raise e :: rest => if skipped e then initialise rest else Raise e
  end.

Definition reads_zero (c : option Q) : bool :=
  match c with
  | Some q => Qeqb q 0
  | None => false
  end.

Definition with_cpu_percent (p : pinfo) (c : Q) : pinfo :=
  {| pid := pid p; name := name p; cpu_percent := Some c;
     memory_percent := memory_percent p; status := status p |}.

(** Second loop, building [process_list] *)
Fixpoint sample (procs : list process) : result (list pinfo) :=
  match procs with
  | [] => Ok []
  | proc :: rest =>
      let pinfo := info proc in
      if reads_zero (cpu_percent pinfo) then
        match cpu_percent_interval proc with
        | Ok c => (with_cpu_percent pinfo c ::.) <$> sample rest
        | Raise e => if skipped e then sample rest else Raise e
        end
      else (pinfo ::.) <$> sample rest
  end.

(** [x] may stand before [y] in the descending order of the key; the
    comparison of [None] raises before it is ever used. *)
Definition cpu_geb (x y : pinfo) : bool :=
  Qleb (default 0%Q (cpu_percent y)) (default 0%Q (cpu_percent x)).

(** [sorted(process_list, key=lambda p: p.get('cpu_percent', 0),
    reverse=True)]: sorting two or more elements compares each of them, and
    comparing [None] raises [TypeError]. *)
Definition sorted_by_cpu (process_list : list pinfo) : result (list pinfo) :=
  if bool_decide (2 ≤ length process_list)%nat
     && existsb (fun p => is_None (cpu_percent p)) process_list
  then Raise TypeError
  else Ok (sorted_by cpu_geb process_list).

(** The [processes] entry of the snapshot: both [except] clauses leave the
    initial empty list. *)
Definition collect_processes (t : ProcessTable) : list pinfo :=
  let attempt :=
    readings ← first_pass t;
    _ ← initialise readings;
    procs ← second_pass t;
    process_list ← sample procs;
    ordered ← sorted_by_cpu process_list;
    Ok (take 10 ordered) in
  match attempt with
  | Ok processes => processes
  | Raise _ => []
  end.

(** Adjacent entries are comparable numbers and do not increase. *)
Definition cpu_ge (x y : pinfo) : Prop :=
  match cpu_percent x, cpu_percent y with
  | Some a, Some b => (b <= a)%Q
  | _, _ => False
  end.

End Agent.

(** ** The collector's statistics ([get_stats] of [src/Api/Api.py]) *)

Module Api.

(** *** Stored records

    A record is what [receive_info] wrote: the fields of [SystemInfo] and
    [received_at].  Records of the older collector have neither
    [agent_id] nor [received_at]; the inner objects are free-form. *)

Record Frequency := { current : slot Q }.

Record Cpu := {
  count : slot Z;
  frequency : slot Frequency;
  model : slot string
}.

Record Os := { os_name : slot string }.

Record Process := {
  name : slot string;
  pid : slot Z;
  cpu_percent : slot Q
}.

Record User := {
  user_name : slot string;
  terminal : slot string;
  host : slot string;
  started : slot Q
}.

Record Item := {
  ip : string;
  agent_id : slot string;
  cpu : Cpu;
  processes : list Process;
  users : list User;
  os : Os;
  timestamp : string;
  received_at : slot string
}.

#[global] Instance Frequency_eq_dec : EqDecision Frequency.
Proof. solve_decision. Defined.
#[global] Instance Cpu_eq_dec : EqDecision Cpu.
Proof. solve_decision. Defined.
#[global] Instance Os_eq_dec : EqDecision Os.
Proof. solve_decision. Defined.
#[global] Instance Process_eq_dec : EqDecision Process.
Proof. solve_decision. Defined.
#[global] Instance User_eq_dec : EqDecision User.
Proof. solve_decision. Defined.
#[global] Instance Item_eq_dec : EqDecision Item.
Proof. solve_decision. Defined.

(** *** The answer *)

Record Chart (L D : Type) := { labels : list L; data : list D }.
Arguments labels {L D} c.
Arguments data {L D} c.

Record ProcessRow := {
  row_name : option string;
  row_pid : option Z;
  row_cpu_percent : option Q;
  row_ip : string;
  row_timestamp : string
}.

Record UserRow := { row_user : User; user_ip : string }.

Record Alert := { alert_type : string; icon : string; message : string }.

#[global] Instance Alert_eq_dec : EqDecision Alert.
Proof. solve_decision. Defined.

Record Stats := {
  total_records : Z;
  active_agents : Z;
  avg_cpu : float;
  total_processes : Z;
  active_users : Z;
  last_update : option string;
  cpu_timeline : Chart string (option Q);
  os_distribution : Chart (option string) Z;
  ip_activity : Chart string Z;
  top_processes : Chart string (option Q);
  processes_out : list ProcessRow;
  users_out : list UserRow;
  high_cpu_processes : list ProcessRow;
  alerts : list Alert
}.

(** [len(...)] *)
Definition len {A} (l : list A) : Z := Z.of_nat (length l).

(** [str(x)] inside an f-string *)
Definition str_of (o : option string) : string := default "None" o.
Definition str_of_int (o : option Z) : string := from_option pretty "None" o.

Definition usec : Z := 1000000.

Section Clock.

(** [datetime.fromisoformat], giving the instant of a naive local time, or
    [None] where it raises [ValueError]; and [datetime.isoformat].  The
    collector writes [received_at] without a UTC offset; strings with an
    offset are outside of the model. *)
Variable fromisoformat : string -> option Z.
Variable isoformat : Z -> string.

(** **** Active agents *)

(** [recent_agents.add(item['agent_id'])] under [if item.get('agent_id')] *)
Definition add_agent (item : Item) (recent_agents : gset string) : gset string :=
  match get (agent_id item) None with
  | Some a => if truthy (Some a) then {[a]} ∪ recent_agents else recent_agents
  | None => recent_agents
  end.

(** The [try] part up to [.timestamp()]; [None] is any exception. *)
Definition item_time (item : Item) : option Z :=
  s ← get (received_at item) (Some (timestamp item));
  fromisoformat s.

Definition recent_agents (now : Z) (data : list Item) : gset string :=
  let cutoff_time := now - 300 * usec in
  foldl (fun recent item =>
           match item_time item with
           | Some t =>
               if bool_decide (cutoff_time < t) then add_agent item recent
               else recent
           | None => add_agent item recent
           end) ∅ data.

(** **** Average CPU *)

Definition cpu_truthy (c : Cpu) : bool :=
  match count c, frequency c, model c with
  | Absent, Absent, Absent => false
  | _, _, _ => true
  end.

(** [item['cpu'].get('frequency', {}).get('current', 0)] *)
Definition cpu_current (c : Cpu) : result (option Q) :=
  match frequency c with
  | Absent => Ok (Some 0%Q)
  | Null => Raise AttributeError
  | Val f => Ok (get (current f) (Some 0%Q))
  end.

Definition cpu_freqs (data : list Item) : result (list (option Q)) :=
  mapM (fun item => cpu_current (cpu item))
       (List.filter (fun item => cpu_truthy (cpu item)) data).

(** [sum(l)] adds from the left, starting from 0, and rounds every sum,
    as CPython does up to version 3.11 (later versions also carry the
    rounding errors along and add them at the end); adding [None]
    raises. *)
Fixpoint sum_from (acc : float) (l : list (option Q)) : result float :=
  match l with
  | [] => Ok acc
  | Some q :: rest => sum_from (float_add acc q) rest
  | None :: _ => Raise TypeError
  end.

Definition sum (l : list (option Q)) : result float := sum_from (Finite 0) l.

(** [sum(cpu_freqs) / len(cpu_freqs) if cpu_freqs else 0] *)
Definition mean (freqs : list (option Q)) : result float :=
  match freqs with
  | [] => Ok (Finite 0)
  | _ => total ← sum freqs; Ok (float_div total (len freqs))
  end.

(** **** CPU timeline *)

Definition by_timestamp (x y : Item) : bool :=
  String.leb (timestamp x) (timestamp y).

Fixpoint after_T (s : string) : option string :=
  match s with
  | EmptyString => None
  | String c rest => if Ascii.eqb c "T"%char then Some rest else after_T rest
  end.

Fixpoint before_T (s : string) : string :=
  match s with
  | EmptyString => EmptyString
  | String c rest =>
      if Ascii.eqb c "T"%char then EmptyString else String c (before_T rest)
  end.

(** [ts.split('T')[1][:8]] *)
Definition time_label (ts : string) : result string :=
  match after_T ts with
  | Some rest => Ok (take_chars 8 (before_T rest))
  | None => Raise IndexError
  end.

Definition timeline (data : list Item) : result (Chart string (option Q)) :=
  let recent_data := last_n 20 (sorted_by by_timestamp data) in
  ls ← mapM (fun item => time_label (timestamp item)) recent_data;
  ds ← mapM (fun item => cpu_current (cpu item)) recent_data;
  Ok {| labels := ls; data := ds |}.

(** **** Distributions by agent *)

(** [item.get('agent_id', item.get('ip'))], kept when it is true *)
Definition dedup_key (item : Item) : option string :=
  let agent_id := get (agent_id item) (Some (ip item)) in
  if truthy agent_id then agent_id else None.

Definition os_by_agent (data : list Item) : list (string * option string) :=
  foldl (fun d item =>
           let os_name := get (os_name (os item)) (Some "Unknown") in
           match dedup_key item with
           | Some agent_id => dict_set agent_id os_name d
           | None => d
           end) [] data.

Definition ip_by_agent (data : list Item) : list (string * string) :=
  foldl (fun d item =>
           match dedup_key item with
           | Some agent_id => dict_set agent_id (ip item) d
           | None => d
           end) [] data.

(** [counts[v] = counts.get(v, 0) + 1] for every [v] *)
Definition count_values {V} `{EqDecision V} (vs : list V) : list (V * Z) :=
  foldl (fun counts v => dict_set v (default 0 (dict_get v counts) + 1) counts)
        [] vs.

Definition distribution {V} `{EqDecision V} (by_agent : list (string * V))
    : Chart V Z :=
  let counts := count_values (values by_agent) in
  {| labels := keys counts; data := values counts |}.

(** **** Recent processes *)

Definition latest_data (data : list Item) : list Item :=
  last_n 10 (sorted_by by_timestamp data).

Definition process_row (item : Item) (proc : Process) : ProcessRow :=
  {| row_name := get (name proc) (Some "Unknown");
     row_pid := get (pid proc) (Some 0);
     row_cpu_percent := get (cpu_percent proc) (Some 0%Q);
     row_ip := ip item;
     row_timestamp := timestamp item |}.

Definition all_processes (data : list Item) : list ProcessRow :=
  item ← latest_data data; process_row item <$> processes item.

Definition row_geb (x y : ProcessRow) : bool :=
  Qleb (default 0%Q (row_cpu_percent y)) (default 0%Q (row_cpu_percent x)).

(** [sorted(all_processes, key=lambda x: x['cpu_percent'], reverse=True)] *)
Definition sorted_rows (rows : list ProcessRow) : result (list ProcessRow) :=
  if bool_decide (2 ≤ length rows)%nat
     && existsb (fun p => is_None (row_cpu_percent p)) rows
  then Raise TypeError
  else Ok (sorted_by row_geb rows).

(** [[p for p in rows if test(p['cpu_percent'])]]: the test compares with
    a number, which raises on [None]. *)
Fixpoint select (test : Q -> bool) (rows : list ProcessRow)
    : result (list ProcessRow) :=
  match rows with
  | [] => Ok []
  | p :: rest =>
      match row_cpu_percent p with
      | Some c =>
          if test c then (p ::.) <$> select test rest else select test rest
      | None => Raise TypeError
      end
  end.

Definition process_label (p : ProcessRow) : string :=
  str_of (row_name p) +:+ " (PID: " +:+ str_of_int (row_pid p) +:+ ")".

(** **** Users *)

Definition all_users (data : list Item) : list UserRow :=
  item ← latest_data data;
  (fun user => {| row_user := user; user_ip := ip item |}) <$> users item.

Definition user_key (u : UserRow) : string :=
  str_of (get (user_name (row_user u)) None) +:+ "-" +:+
  str_of (get (terminal (row_user u)) None) +:+ "-" +:+ user_ip u.

Fixpoint unique_from (seen : gset string) (us : list UserRow) : list UserRow :=
  match us with
  | [] => []
  | user :: rest =>
      let key := user_key user in
      if bool_decide (key ∉ seen) then user :: unique_from ({[key]} ∪ seen) rest
      else unique_from seen rest
  end.

Definition unique_users (us : list UserRow) : list UserRow := unique_from ∅ us.

(** **** Alerts *)

Definition critical (c : Q) : bool := Qltb 80 c.
Definition elevated (c : Q) : bool := Qltb 50 c && Qleb c 80.

Definition critical_alert (n : Z) : Alert :=
  {| alert_type := "danger"; icon := "🔴";
     message := "⚠️ " +:+ pretty n +:+ " proceso(s) con CPU crítico (>80%)" |}.

Definition warning_alert (n : Z) : Alert :=
  {| alert_type := "warning"; icon := "🟡";
     message := "⚠️ " +:+ pretty n +:+ " proceso(s) con CPU elevado (50-80%)" |}.

Definition stale_alert (minutes : Z) : Alert :=
  {| alert_type := "warning"; icon := "⏰";
     message := "No se han recibido datos en " +:+ pretty minutes +:+ " minuto(s)" |}.

(** The two process alerts *)
Definition process_alerts (rows : list ProcessRow) : result (list Alert) :=
  critical_processes ← select critical rows;
  let alerts :=
    match critical_processes with
    | [] => []
    | _ => [critical_alert (len critical_processes)]
    end in
  warning_processes ← select elevated rows;
  Ok match warning_processes with
     | [] => alerts
     | _ => alerts ++ [warning_alert (len warning_processes)]
     end.

(** [data[-1]['received_at']] *)
Definition last_received_at (data : list Item) : result (option string) :=
  match last data with
  | Some item =>
      match received_at item with
      | Val s => Ok (Some s)
      | Null => Ok None
      | Absent => Raise KeyError
      end
  | None => Raise IndexError
  end.

(** The alert on old data, under [if data] *)
Definition staleness_alerts (now : Z) (data : list Item) : result (list Alert) :=
  match last data with
  | None => Ok []
  | Some item =>
      match received_at item with
      | Absent => Raise KeyError
      | Null => Raise TypeError
      | Val s =>
          match fromisoformat s with
          | None => Raise ValueError
          | Some last_timestamp =>
              let time_diff := now - last_timestamp in
              if bool_decide (120 * usec < time_diff)
              then Ok [stale_alert (time_diff `quot` (60 * usec))]
              else Ok []
          end
      end
  end.

(** **** [get_stats]

    [now] and [now'] are the two readings of [datetime.now()], for the
    window of active agents and for the age of the last record; the
    answer on an empty store uses the first. *)
Definition get_stats (now now' : Z) (data : list Item) : result Stats :=
  match data with
  | [] =>
      Ok {| total_records := 0;
            active_agents := 0;
            avg_cpu := Finite 0;
            total_processes := 0;
            active_users := 0;
            last_update := Some (isoformat now);
            cpu_timeline := {| labels := []; data := [] |};
            os_distribution := {| labels := []; data := [] |};
            ip_activity := {| labels := []; data := [] |};
            top_processes := {| labels := []; data := [] |};
            processes_out := [];
            users_out := [];
            high_cpu_processes := [];
            alerts := [] |}
  | _ =>
      let unique_agents := Z.of_nat (size (recent_agents now data)) in
      freqs ← cpu_freqs data;
      avg ← mean freqs;
      timeline ← timeline data;
      let rows := all_processes data in
      top_processes_list ← take 10 <$> sorted_rows rows;
      high ← take 20 <$> select (Qltb 50) rows;
      let names : gset (option string) := list_to_set (row_name <$> rows) in
      let users := unique_users (all_users data) in
      process_alerts ← process_alerts rows;
      staleness_alerts ← staleness_alerts now' data;
      last ← last_received_at data;
      Ok {| total_records := len data;
            active_agents := unique_agents;
            avg_cpu := float_div avg 1000;
            total_processes := Z.of_nat (size names);
            active_users := len users;
            last_update := last;
            cpu_timeline := timeline;
            os_distribution := distribution (os_by_agent data);
            ip_activity := distribution (ip_by_agent data);
            top_processes :=
              {| labels := process_label <$> top_processes_list;
                 data := row_cpu_percent <$> top_processes_list |};
            processes_out := top_processes_list;
            users_out := users;
            high_cpu_processes := high;
            alerts := process_alerts ++ staleness_alerts |}
  end.

End Clock.

End Api.

(** * Statements of the specification and sample inputs *)

Module Spec.

(** The transport reports success exactly when one of its attempts gets a
    status between 200 and 299. *)
Definition success_iff_2xx (accepts : Z -> bool) (post : Z -> Agent.outcome)
    (retries backoff : Z) : Prop :=
  (Agent.send_to_api accepts post retries backoff).2 = Ok true <->
  exists attempt c, 0 <= attempt < retries /\
    post attempt = Agent.Response c /\ 200 <= c < 300.

(** The alert rules in the words of the specification: above 80 is
    critical, above 50 and up to 80 is elevated. *)
Inductive band := Normal | Elevated | Critical.

#[global] Instance band_eq_dec : EqDecision band.
Proof. solve_decision. Defined.

Definition band_of (c : Q) : band :=
  if Qlt_le_dec 80 c then Critical
  else if Qlt_le_dec 50 c then Elevated
  else Normal.

Definition in_band (b : band) (cpus : list Q) : Z :=
  Api.len (List.filter (fun c => bool_decide (band_of c = b)) cpus).

(** An alert that sums up [n] processes *)
Definition summary (severity icon : string) (n : Z) (what : string) : Api.Alert :=
  {| Api.alert_type := severity; Api.icon := icon;
     Api.message := "⚠️ " +:+ pretty n +:+ " proceso(s) con CPU " +:+ what |}.

(** One alert for each band that is not empty, with the number of its
    processes, the critical one first: type [danger] for the critical
    band, type [warning] for the elevated one *)
Definition expected_process_alerts (cpus : list Q) : list Api.Alert :=
  (if 0 <? in_band Critical cpus
   then [summary "danger" "🔴" (in_band Critical cpus) "crítico (>80%)"] else []) ++
  (if 0 <? in_band Elevated cpus
   then [summary "warning" "🟡" (in_band Elevated cpus) "elevado (50-80%)"] else []).

(** The alert on old data is the one with the clock icon. *)
Definition is_staleness (a : Api.Alert) : Prop := Api.icon a = "⏰".

#[global] Instance is_staleness_dec a : Decision (is_staleness a).
Proof. unfold is_staleness. apply _. Defined.

(** The receipt time of the most recent record: the latest of the receipt
    times of the store *)
Definition latest_receipt (fromisoformat : string -> option Z)
    (data : list Api.Item) : option Z :=
  match omap (Api.item_time fromisoformat) data with
  | [] => None
  | t :: ts => Some (foldr Z.max t ts)
  end.

(** The average in the words of the specification: the mean of the
    frequencies of the records that report one *)
Definition reported (item : Api.Item) : option Q :=
  match Api.frequency (Api.cpu item) with
  | Val f => match Api.current f with Val mhz => Some mhz | _ => None end
  | _ => None
  end.

(** The mean of floats, as floats give it: the numbers are added from
    the left and the sum is divided by their count, each result being
    rounded. *)
Definition arithmetic_mean (qs : list Q) : float :=
  float_div (foldl float_add (Finite 0) qs) (Api.len qs).

Definition mean_of_reported (data : list Api.Item) : float :=
  arithmetic_mean (omap reported data).

(** The answer is read in MHz, as the specification names the frequency,
    or in GHz, as the collector converts it. *)
Inductive unit_read := MHz | GHz.

Definition in_unit (u : unit_read) (mhz : float) : float :=
  match u with
  | MHz => mhz
  | GHz => float_div mhz 1000
  end.

Definition avg_is_mean_of_reported (fromisoformat : string -> option Z)
    (isoformat : Z -> string) (u : unit_read) (now now' : Z)
    (data : list Api.Item) : Prop :=
  data <> [] ->
  exists st, Api.get_stats fromisoformat isoformat now now' data = Ok st /\
    Api.avg_cpu st = in_unit u (mean_of_reported data).

(** What the code averages: the records with a [cpu] object that is not
    empty, a record without a frequency counting for 0 *)
Definition contribution (item : Api.Item) : Q := default 0%Q (reported item).

Definition counted (data : list Api.Item) : list Api.Item :=
  List.filter (fun item => Api.cpu_truthy (Api.cpu item)) data.

Definition mean_with_zeros (data : list Api.Item) : float :=
  match counted data with
  | [] => Finite 0
  | _ => arithmetic_mean (contribution <$> counted data)
  end.

Definition no_null_frequency (item : Api.Item) : Prop :=
  match Api.frequency (Api.cpu item) with
  | Absent => True
  | Null => False
  | Val f => Api.current f <> Null
  end.

(** The last record of an agent in the order of the store, and the record
    of an agent with the latest timestamp *)
Definition last_for (k : string) (data : list Api.Item) : option Api.Item :=
  last (List.filter (fun item => bool_decide (Api.dedup_key item = Some k)) data).

Definition latest_for (k : string) (data : list Api.Item) (item : Api.Item) : Prop :=
  item ∈ data /\ Api.dedup_key item = Some k /\
  forall item', item' ∈ data -> Api.dedup_key item' = Some k -> item' <> item ->
    String.ltb (Api.timestamp item') (Api.timestamp item) = true.

Definition os_label (item : Api.Item) : option string :=
  get (Api.os_name (Api.os item)) (Some "Unknown").

Definition attributed_to_latest (data : list Api.Item) : Prop :=
  forall k item, latest_for k data item ->
    dict_get k (Api.ip_by_agent data) = Some (Api.ip item) /\
    dict_get k (Api.os_by_agent data) = Some (os_label item).

Definition in_timestamp_order (data : list Api.Item) : Prop :=
  StronglySorted
    (fun x y => String.leb (Api.timestamp x) (Api.timestamp y) = true) data.

(** The number of entries of an agent in a table of agents *)
Definition entries_of {V} (k : string) (by_agent : list (string * V)) : nat :=
  length (filter (fun k' => k' = k) (keys by_agent)).

(** Reading a chart: the number next to a label, and the number of agents
    that a table of agents maps to a value *)
Definition chart_count {V} `{EqDecision V} (v : V) (c : Api.Chart V Z) : Z :=
  default 0 (dict_get v (zip (Api.labels c) (Api.data c))).

Definition agents_with {V} `{EqDecision V} (v : V) (by_agent : list (string * V)) : Z :=
  Api.len (filter (fun v' => v' = v) (values by_agent)).

End Spec.

Module Samples.

(** A host an hour after boot: it sleeps every length that ends before its
    clock runs out. *)
Definition hour_after_boot (secs : Z) : bool := secs <=? Agent.sleep_max - 3600.

(** A collector that answers 201 Created to every request *)
Definition always_created (attempt : Z) : Agent.outcome := Agent.Response 201.

(** A collector that is down for the first request only *)
Definition second_try (attempt : Z) : Agent.outcome :=
  if attempt =? 1 then Agent.Response 200 else Agent.PostRaised.

(** A collector that answers 503 to every request *)
Definition always_unavailable (attempt : Z) : Agent.outcome := Agent.Response 503.

(** A host whose route to 8.8.8.8 leaves by the loopback interface, with
    an ordinary address on eth0 *)
Definition loopback_route : Agent.Host :=
  {| Agent.udp_sockname := Some "127.0.0.1";
     Agent.net_if_addrs :=
       Some [("lo", [{| Agent.addr_family := Agent.AF_INET;
                        Agent.address := "127.0.0.1" |}]);
             ("eth0", [{| Agent.addr_family := Agent.AF_INET;
                          Agent.address := "192.168.1.10" |}])];
     Agent.hostbyname := Some "192.168.1.10" |}.

End Samples.

Module ApiSamples.
Import Api.

(** A clock that knows three instants of 1 May 2024 *)
Definition t_1000 : Z := 1714557600 * usec.

Definition fromisoformat (s : string) : option Z :=
  if String.eqb s "2024-05-01T10:00:00" then Some t_1000
  else if String.eqb s "2024-05-01T10:01:00" then Some (t_1000 + 60 * usec)
  else if String.eqb s "2024-05-01T10:02:00" then Some (t_1000 + 120 * usec)
  else None.

Definition isoformat (t : Z) : string :=
  if t =? t_1000 then "2024-05-01T10:00:00"
  else if t =? t_1000 + 60 * usec then "2024-05-01T10:01:00"
  else if t =? t_1000 + 120 * usec then "2024-05-01T10:02:00"
  else "2024-05-01T10:03:00".

Definition linux : Os := {| os_name := Val "Linux" |}.
Definition windows : Os := {| os_name := Val "Windows" |}.

Definition cpu_at (mhz : Q) : Cpu :=
  {| count := Val 4; frequency := Val {| current := Val mhz |};
     model := Val "x86_64" |}.

Definition cpu_without_frequency : Cpu :=
  {| count := Val 4; frequency := Absent; model := Val "x86_64" |}.

Definition record (ip : string) (agent : slot string) (cpu : Cpu) (os : Os)
    (procs : list Process) (ts : string) (received : slot string) : Item :=
  {| ip := ip; agent_id := agent; cpu := cpu; processes := procs; users := [];
     os := os; timestamp := ts; received_at := received |}.

Definition proc (n : string) (p : Z) (c : Q) : Process :=
  {| name := Val n; pid := Val p; cpu_percent := Val c |}.

(** One agent that moved from 10.0.0.1 (Linux) to 10.0.0.2 (Windows), its
    records listed in the order of their timestamps ... *)
Definition moved_first : Item :=
  record "10.0.0.1" (Val "web-1") (cpu_at 2400) linux []
         "2024-05-01T10:00:00" (Val "2024-05-01T10:00:00").
Definition moved_second : Item :=
  record "10.0.0.2" (Val "web-1") (cpu_at 2400) windows []
         "2024-05-01T10:01:00" (Val "2024-05-01T10:01:00").
Definition in_order : list Item := [moved_first; moved_second].
(** ... and in the opposite order. *)
Definition out_of_order : list Item := [moved_second; moved_first].

(** Two agents, the second without the [frequency] key *)
Definition one_without_frequency : list Item :=
  [ record "10.0.0.1" (Val "web-1") (cpu_at 2000) linux []
           "2024-05-01T10:00:00" (Val "2024-05-01T10:00:00");
    record "10.0.0.2" (Val "web-2") cpu_without_frequency linux []
           "2024-05-01T10:01:00" (Val "2024-05-01T10:01:00") ].

(** Two agents whose frequencies are the floats written 0.1 and 0.2 *)
Definition tenth : Q := 3602879701896397 # 36028797018963968.
Definition fifth : Q := 3602879701896397 # 18014398509481984.
Definition slow_clocks : list Item :=
  [ record "10.0.0.1" (Val "web-1") (cpu_at tenth) linux []
           "2024-05-01T10:00:00" (Val "2024-05-01T10:00:00");
    record "10.0.0.2" (Val "web-2") (cpu_at fifth) linux []
           "2024-05-01T10:01:00" (Val "2024-05-01T10:01:00") ].

(** Processes on the four boundaries of the alert rules *)
Definition boundary_cpus : list Q := [50; 50.01; 80; 80.01]%Q.

Definition boundaries : list Item :=
  [ record "10.0.0.1" (Val "web-1") (cpu_at 2000) linux
           [proc "idle" 1 50; proc "sshd" 2 50.01;
            proc "java" 3 80; proc "ffmpeg" 4 80.01]
           "2024-05-01T10:00:00" (Val "2024-05-01T10:00:00") ].

(** Two hosts: one runs a process at 95%, the other shows a single process
    whose CPU reading was denied, which [psutil] gives as [None]; and the
    first host alone. *)
Definition busy_host : Item :=
  record "10.0.0.1" (Val "web-1") (cpu_at 2000) linux [proc "java" 3 95]
         "2024-05-01T10:00:00" (Val "2024-05-01T10:00:00").
Definition denied_host : Item :=
  record "10.0.0.2" (Val "web-2") (cpu_at 2000) linux
         [{| name := Val "init"; pid := Val 1; cpu_percent := Null |}]
         "2024-05-01T10:01:00" (Val "2024-05-01T10:01:00").
Definition denied_reading : list Item := [busy_host; denied_host].
Definition granted_reading : list Item := [busy_host].

(** Two agents; the record received last is listed first. *)
Definition fresh : Item :=
  record "10.0.0.2" (Val "web-2") (cpu_at 2400) linux []
         "2024-05-01T10:02:00" (Val "2024-05-01T10:02:00").
Definition listed_backwards : list Item := [fresh; moved_first].

(** A record whose receipt time is not a date *)
Definition undated : Item :=
  record "10.0.0.3" (Val "db-1") (cpu_at 2000) linux []
         "2024-05-01T10:00:00" (Val "yesterday").
Definition with_undated : list Item := [undated; moved_first].

End ApiSamples.

(** * The rest of the agent and of the collector *)

(** ** One cycle of the agent ([collect_system_info] and the main loop) *)

Module Cycle.
Import Agent.

(** The waits of a trace, in order *)
Definition sleeps (tr : list event) : list Z :=
  omap (fun e => match e with Sleep secs => Some secs | Post => None end) tr.

(** An entry of [psutil.users()] as a dictionary; the fallback entry has no
    [pid] key. *)
Record suser := {
  user_name : string;
  user_terminal : option string;
  user_host : option string;
  user_started : Q;
  user_pid : option Z
}.

(** What the host answers about sessions; the agent's own process is read
    by [psutil.Process()], [username()] and [create_time()]. *)
Record Sessions := {
  psutil_users : result (list suser);
  own_username : result string;
  dockerenv : bool;
  gethostname : result string;
  own_create_time : result Q
}.

(** The entry built from the agent's own process *)
Definition own_session (s : Sessions) : result suser :=
  n ← own_username s;
  h ← gethostname s;
  t ← own_create_time s;
  Ok {| user_name := n;
        user_terminal := Some (if dockerenv s then "container" else "local");
        user_host := Some h;
        user_started := t;
        user_pid := None |}.

(** The [users] entry of the snapshot: both [try] blocks leave the list as
    it is when something raises. *)
Definition collect_users (s : Sessions) : list suser :=
  let users := match psutil_users s with Ok us => us | Raise _ => [] end in
  match users with
  | [] => match own_session s with Ok u => [u] | Raise _ => [] end
  | _ => users
  end.

(** [psutil.cpu_freq()] *)
Record scpufreq := { freq_current : Q; freq_min : Q; freq_max : Q }.

(** The host during one call of [collect_system_info]; the functions of
    [platform] give strings. *)
Record Machine := {
  machine_host : Host;
  cpu_count : result (option Z);
  cpu_freq : result (option scpufreq);
  processor : string;
  machine_processes : ProcessTable;
  machine_sessions : Sessions;
  system : string;
  version : string;
  release : string;
  clock : string
}.

Record Snapshot := {
  snap_ip : string;
  snap_agent_id : string;
  snap_cpu_count : option Z;
  snap_frequency : option scpufreq;
  snap_model : string;
  snap_processes : list pinfo;
  snap_users : list suser;
  snap_os : string * string * string * string;
  snap_timestamp : string
}.

Definition collect_system_info (agent_id : string) (m : Machine) : result Snapshot :=
  let ip := get_real_ip (machine_host m) in
  n ← cpu_count m;
  f ← cpu_freq m;
  let model := match processor m with EmptyString => "Desconocido" | p => p end in
  let processes := collect_processes (machine_processes m) in
  let users := collect_users (machine_sessions m) in
  hostname ← gethostname (machine_sessions m);
  Ok {| snap_ip := ip;
        snap_agent_id := agent_id;
        snap_cpu_count := n;
        snap_frequency := f;
        snap_model := model;
        snap_processes := processes;
        snap_users := users;
        snap_os := (system m, version m, release m, hostname);
        snap_timestamp := clock m |}.

(** What one iteration of the main loop prints *)
Inductive report :=
| Sent (ip : string) (processes : nat) (mhz : Q)
| SendFailed
| CollectionError (e : exn).

(** [info['cpu'].get('frequency', {}).get('current', 0)]: the key is always
    there, and holds [None] where [cpu_freq()] gave nothing. *)
Definition printed_frequency (info : Snapshot) : result Q :=
  match snap_frequency info with
  | Some f => Ok (freq_current f)
  | None => Raise AttributeError
  end.

(** The body of [while True], up to the final sleep: the requests and waits
    made, and the line printed. *)
Definition cycle (agent_id : string) (m : Machine) (accepts : Z -> bool)
    (post : Z -> outcome) : list event * report :=
  match collect_system_info agent_id m with
  | Raise e => ([], CollectionError e)
  | Ok info =>
      let '(tr, success) := send_to_api accepts post 3 2 in
      match success with
      | Raise e => (tr, CollectionError e)
      | Ok false => (tr, SendFailed)
      | Ok true =>
          match printed_frequency info with
          | Ok mhz => (tr, Sent (snap_ip info) (length (snap_processes info)) mhz)
          | Raise e => (tr, CollectionError e)
          end
      end
  end.

End Cycle.

(** ** The files of the collector and its other endpoints *)

Module Store.
Import Api.

(** The body of [POST /send] *)
Record SystemInfo := {
  info_ip : string;
  info_agent_id : option string;
  info_cpu : Cpu;
  info_processes : list Process;
  info_users : list User;
  info_os : Os;
  info_timestamp : string
}.

(** [info.dict()] with [received_at]: every field is a key, [agent_id]
    holding [None] when it was not sent. *)
Definition data_entry (info : SystemInfo) (received : string) : Item :=
  {| ip := info_ip info;
     agent_id := match info_agent_id info with Some a => Val a | None => Null end;
     cpu := info_cpu info;
     processes := info_processes info;
     users := info_users info;
     os := info_os info;
     timestamp := info_timestamp info;
     received_at := Val received |}.

(** [s.replace(":", "-")] *)
Fixpoint replace_colons (s : string) : string :=
  match s with
  | EmptyString => EmptyString
  | String c rest =>
      String (if Ascii.eqb c ":"%char then "-"%char else c) (replace_colons rest)
  end.

Definition filename_of (timestamp : string) : string :=
  "system_data_" +:+ replace_colons timestamp +:+ ".json".

(** [s.endswith(suffix)] *)
Fixpoint endswith (suffix s : string) : bool :=
  String.eqb s suffix ||
  match s with
  | EmptyString => false
  | String _ rest => endswith suffix rest
  end.

(** A file of the working directory as the collector finds it: a list of
    records, as the collector writes it (an empty file counts as the empty
    list), or a file that gives no list at all, because reading or decoding
    it raises or because it decodes to a number, [true], [false] or
    [null], which has no [append] and cannot be iterated.  Files that
    decode to an object or a string, or to a list with entries that are
    not records, are outside the model.  The directory is a finite map
    from names to files. *)
Inductive file :=
| Records (entries : list Item)
| Unreadable.

(** An answer of an endpoint, or the [HTTPException] it raises (the detail
    text is left out) *)
Inductive reply (A : Type) :=
| Returned (a : A)
| HTTPException (status_code : Z).
Arguments Returned {A} a.
Arguments HTTPException {A} status_code.

(** [save_to_json]: the files afterwards, and the exception if any.
    Opening the file for writing and writing it are taken to succeed, so
    the only exception is the one of reading what is there as a list; and
    the request is taken to run on its own, with no other request between
    its reading of the file and its writing. *)
Definition save_to_json (data_entry : Item) (filename : string)
    (fs : gmap string file) : gmap string file * reply unit :=
  match fs !! filename with
  | Some (Records existing) =>
      (<[filename := Records (existing ++ [data_entry])]> fs, Returned ())
  | Some Unreadable => (fs, HTTPException 500)
  | None => (<[filename := Records [data_entry]]> fs, Returned ())
  end.

(** [receive_info]; [received] is [datetime.now().isoformat()]. *)
Definition receive_info (info : SystemInfo) (received : string)
    (fs : gmap string file) : gmap string file * reply string :=
  let filename := filename_of (info_timestamp info) in
  match save_to_json (data_entry info received) filename fs with
  | (fs', Returned _) => (fs', Returned filename)
  | (fs', HTTPException c) => (fs', HTTPException c)
  end.

Definition is_data_file (file : string) : bool :=
  String.prefix "system_data_" file && endswith ".json" file.

(** The [try] of the two readers: a file that cannot be opened or decoded
    is passed over. *)
Definition entries_of_file (fs : gmap string file) (file : string) : list Item :=
  match fs !! file with
  | Some (Records data) => data
  | _ => []
  end.

(** [get_all_data_from_json]; [listing] is [os.listdir('.')]. *)
Definition get_all_data_from_json (fs : gmap string file) (listing : list string)
    : list Item :=
  file ← listing;
  if is_data_file file then entries_of_file fs file else [].

(** [search_json_files] *)
Definition search_json_files (ip0 : string) (fs : gmap string file)
    (listing : list string) : list Item :=
  file ← listing;
  if is_data_file file
  then List.filter (fun entry => String.eqb (ip entry) ip0) (entries_of_file fs file)
  else [].

(** [GET /query] *)
Definition query_info (ip0 : string) (fs : gmap string file)
    (listing : list string) : reply (list Item) :=
  match search_json_files ip0 fs listing with
  | [] => HTTPException 404
  | results => Returned results
  end.

(** [GET /download/json]: the records that are serialised *)
Definition download_json (ip0 : option string) (fs : gmap string file)
    (listing : list string) : reply (list Item) :=
  let results :=
    if truthy ip0 then search_json_files (default EmptyString ip0) fs listing
    else get_all_data_from_json fs listing in
  match results with
  | [] => HTTPException 404
  | _ => Returned results
  end.

(** [GET /api/stats] over the files *)
Definition stats (fromisoformat : string -> option Z) (isoformat : Z -> string)
    (now now' : Z) (fs : gmap string file) (listing : list string) : result Stats :=
  get_stats fromisoformat isoformat now now' (get_all_data_from_json fs listing).

End Store.

(** ** Expected results and sample inputs for the rest of the code *)

Module Expect.

(** The trace of [k] failed requests, each followed by its wait, and one
    last request *)
Definition backoff_trace (backoff : Z) (k : nat) : list Agent.event :=
  (i ← seq 0 k; [Agent.Post; Agent.Sleep (backoff * 2 ^ Z.of_nat i)]) ++ [Agent.Post].

Definition waits (backoff : Z) (k : nat) : list Z :=
  (fun i => backoff * 2 ^ Z.of_nat i) <$> seq 0 k.

(** An address that the scan of the interfaces accepts *)
Definition usable (addrs : list (string * list Agent.snicaddr)) (ip : string) : Prop :=
  exists interface addr_list addr,
    (interface, addr_list) ∈ addrs /\
    startswith ["lo"; "docker"; "br-"; "veth"] interface = false /\
    addr ∈ addr_list /\
    Agent.addr_family addr = Agent.AF_INET /\
    Agent.address addr = ip /\
    startswith ["127."; "169.254."] ip = false.

(** An entry of the process list comes from this process of the second
    pass: it has every field of its [info], except that a CPU reading of 0
    is replaced by the value of the second measurement. *)
Definition reading_of (proc : Agent.process) (p : Agent.pinfo) : Prop :=
  Agent.pid p = Agent.pid (Agent.info proc) /\
  Agent.name p = Agent.name (Agent.info proc) /\
  Agent.memory_percent p = Agent.memory_percent (Agent.info proc) /\
  Agent.status p = Agent.status (Agent.info proc) /\
  ((exists z c, Agent.cpu_percent (Agent.info proc) = Some z /\ (z == 0)%Q /\
      Agent.cpu_percent_interval proc = Ok c /\
      Agent.cpu_percent p = Some c) \/
   ((forall z, Agent.cpu_percent (Agent.info proc) = Some z -> ~ (z == 0)%Q) /\
    Agent.cpu_percent p = Agent.cpu_percent (Agent.info proc))).

(** Something stops the collection of the processes: a reading of the first
    pass or a second measurement raises an exception that is not passed
    over, or the CPU reading of one of several processes is [None]. *)
Definition aborted (t : Agent.ProcessTable) : Prop :=
  (exists readings e, Agent.first_pass t = Ok readings /\
     Raise e ∈ readings /\ Agent.skipped e = false) \/
  (exists procs proc e, Agent.second_pass t = Ok procs /\ proc ∈ procs /\
     Agent.reads_zero (Agent.cpu_percent (Agent.info proc)) = true /\
     Agent.cpu_percent_interval proc = Raise e /\ Agent.skipped e = false) \/
  (exists procs process_list p, Agent.second_pass t = Ok procs /\
     Agent.sample procs = Ok process_list /\ (2 <= length process_list)%nat /\
     p ∈ process_list /\ Agent.cpu_percent p = None).

(** Two rows with CPU percentages that are numbers, the first not below
    the second *)
Definition row_ge (x y : Api.ProcessRow) : Prop :=
  match Api.row_cpu_percent x, Api.row_cpu_percent y with
  | Some a, Some b => (b <= a)%Q
  | _, _ => False
  end.

(** The rows above 50 *)
Definition above_50 (p : Api.ProcessRow) : bool :=
  match Api.row_cpu_percent p with
  | Some c => Qltb 50 c
  | None => false
  end.

Definition total (counts : list Z) : Z := foldr Z.add 0 counts.

(** The label of a point of the timeline: the timestamp is cut at its
    occurrences of [T], and the label is the first 8 characters of the
    second piece. *)
Definition without_T (s : string) : Prop := "T"%char ∉ String.list_ascii_of_string s.

(** The number of characters of a string: the bytes that start one *)
Fixpoint chars (s : string) : nat :=
  match s with
  | EmptyString => 0
  | String c rest => if is_continuation c then chars rest else S (chars rest)
  end.

(** [label] is [s] cut to its first [n] characters: all of [s] if it has
    no more, and otherwise the [n] characters before the start of the next
    one. *)
Definition first_chars (n : nat) (s label : string) : Prop :=
  exists tail,
    s = label +:+ tail /\
    (chars label <= n)%nat /\
    (tail = EmptyString \/
     exists c tail', tail = String c tail' /\ is_continuation c = false /\
       chars label = n).

Definition label_of (ts label : string) : Prop :=
  exists date time rest,
    ts = date +:+ "T" +:+ time +:+ rest /\
    without_T date /\ without_T time /\
    (rest = EmptyString \/ exists rest', rest = String "T" rest') /\
    first_chars 8 time label.

(** The value of a point of the timeline: the current frequency of the
    record, 0 when the record has no frequency or the frequency has no
    current value, and null when the current value is null. *)
Definition shown_frequency (item : Api.Item) (mhz : option Q) : Prop :=
  match Api.frequency (Api.cpu item) with
  | Absent => mhz = Some 0%Q
  | Null => False
  | Val f =>
      match Api.current f with
      | Absent => mhz = Some 0%Q
      | Null => mhz = None
      | Val q => mhz = Some q
      end
  end.

(** What [get_stats] needs of a store to answer: every frequency that is
    averaged is a number; the records of the timeline have a [T] in their
    timestamp and no null frequency; the recent processes have numbers as
    CPU percentages; the record listed last has a receipt time that is a
    date. *)
Definition answerable (fromisoformat : string -> option Z)
    (data : list Api.Item) : Prop :=
  (forall item, item ∈ data -> Api.cpu_truthy (Api.cpu item) = true ->
     exists q, Api.cpu_current (Api.cpu item) = Ok (Some q)) /\
  (forall item, item ∈ last_n 20 (sorted_by Api.by_timestamp data) ->
     (exists rest, Api.after_T (Api.timestamp item) = Some rest) /\
     Api.frequency (Api.cpu item) <> Null) /\
  (forall row, row ∈ Api.all_processes data -> Api.row_cpu_percent row <> None) /\
  (exists item s t, last data = Some item /\ Api.received_at item = Val s /\
     fromisoformat s = Some t).

End Expect.

Module MoreSamples.
Import Agent.

(** A collector that answers 200 to the third request only *)
Definition third_try (attempt : Z) : outcome :=
  if attempt =? 2 then Response 200 else Response 502.

(** A laptop behind a bridge, with no route to 8.8.8.8 *)
Definition offline_laptop : Host :=
  {| udp_sockname := None;
     net_if_addrs :=
       Some [("lo", [{| addr_family := AF_INET; address := "127.0.0.1" |}]);
             ("docker0", [{| addr_family := AF_INET; address := "172.17.0.1" |}]);
             ("wlan0", [{| addr_family := AF_INET6; address := "fe80::1" |};
                        {| addr_family := AF_INET; address := "169.254.7.7" |};
                        {| addr_family := AF_INET; address := "192.168.0.23" |}])];
     hostbyname := Some "127.0.1.1" |}.

Definition reading (p : Z) (n : string) (c : option Q) (again : result Q) : process :=
  {| info := {| pid := p; name := Some n; cpu_percent := c;
                memory_percent := None; status := Some "running" |};
     cpu_percent_interval := again |}.

Definition busy_table : ProcessTable :=
  {| first_pass := Ok [Ok 0%Q; Raise AccessDenied; Ok 0%Q];
     second_pass :=
       Ok [reading 1 "init" (Some 0%Q) (Ok 0.5%Q);
           reading 7 "gone" (Some 0%Q) (Raise NoSuchProcess);
           reading 9 "java" (Some 42%Q) (Ok 40%Q)] |}.

(** The same table, with a process whose second measurement fails *)
Definition broken_table : ProcessTable :=
  {| first_pass := Ok [Ok 0%Q];
     second_pass :=
       Ok [reading 1 "init" (Some 0%Q) (Ok 0.5%Q);
           reading 7 "odd" (Some 0%Q) (Raise OtherError)] |}.

(** A container without sessions and without CPU frequency *)
Definition container_sessions : Cycle.Sessions :=
  {| Cycle.psutil_users := Ok [];
     Cycle.own_username := Ok "root";
     Cycle.dockerenv := true;
     Cycle.gethostname := Ok "4f2a9c";
     Cycle.own_create_time := Ok 1714557000%Q |}.

Definition container : Cycle.Machine :=
  {| Cycle.machine_host := offline_laptop;
     Cycle.cpu_count := Ok (Some 2);
     Cycle.cpu_freq := Ok None;
     Cycle.processor := EmptyString;
     Cycle.machine_processes := busy_table;
     Cycle.machine_sessions := container_sessions;
     Cycle.system := "Linux";
     Cycle.version := "#1 SMP";
     Cycle.release := "6.1.0";
     Cycle.clock := "2024-05-01T10:00:00" |}.

(** Snapshots as they are posted, and a working directory *)
Definition posted (ip : string) (agent : option string) (ts : string)
    : Store.SystemInfo :=
  {| Store.info_ip := ip;
     Store.info_agent_id := agent;
     Store.info_cpu := ApiSamples.cpu_at 2400;
     Store.info_processes := [];
     Store.info_users := [];
     Store.info_os := ApiSamples.linux;
     Store.info_timestamp := ts |}.

Definition directory : gmap string Store.file :=
  <["system_data_2024-05-01T10-00-00.json" := Store.Records [ApiSamples.moved_first]]>
  (<["system_data_broken.json" := Store.Unreadable]>
   (<["agent.log" := Store.Unreadable]> ∅)).

Definition listing : list string :=
  ["agent.log"; "system_data_2024-05-01T10-01-00.json"; "system_data_broken.json";
   "system_data_2024-05-01T10-00-00.json"].

(** A record with two sessions of one user on one terminal, and one of
    another user, and the processes of the boundaries *)
Definition session (n t : string) : Api.User :=
  {| Api.user_name := Val n; Api.terminal := Val t; Api.host := Val "10.0.0.50";
     Api.started := Val 1714557000%Q |}.

Definition crowded : list Api.Item :=
  [ {| Api.ip := "10.0.0.1"; Api.agent_id := Val "web-1";
       Api.cpu := ApiSamples.cpu_at 2000;
       Api.processes :=
         [ApiSamples.proc "idle" 1 50; ApiSamples.proc "sshd" 2 50.01;
          ApiSamples.proc "java" 3 80; ApiSamples.proc "ffmpeg" 4 80.01];
       Api.users := [session "ana" "pts/0"; session "ana" "pts/0"; session "luis" "pts/1"];
       Api.os := ApiSamples.linux;
       Api.timestamp := "2024-05-01T10:00:00";
       Api.received_at := Val "2024-05-01T10:00:00" |} ].

(** A record as the agent sends it from a host without CPU frequency *)
Definition no_frequency : Api.Item :=
  ApiSamples.record "10.0.0.9" (Val "vm-1")
    {| Api.count := Val 2; Api.frequency := Null; Api.model := Val "x86_64" |}
    ApiSamples.linux [] "2024-05-01T10:00:00" (Val "2024-05-01T10:00:00").

End MoreSamples.

(** * Properties *)

(** ** Rounding to binary64 *)

Lemma round_half_even_spec x :
  (Qabs (inject_Z (round_half_even x) - x) <= 1 # 2)%Q /\
  ((Qabs (inject_Z (round_half_even x) - x) == 1 # 2)%Q ->
   Z.even (round_half_even x) = true).
Proof.
  destruct x as [n d]. unfold round_half_even. cbn [Qnum Qden].
  pose proof (Z.div_mod n (Z.pos d) ltac:(lia)) as Hdiv.
  pose proof (Z.mod_pos_bound n (Z.pos d) ltac:(lia)) as Hmod.
  set (below := n / Z.pos d) in *. set (r := n mod Z.pos d) in *.
  assert (forall m, (inject_Z m - (n # d) == (m * Z.pos d - n) # d)%Q) as Hsub.
  { intros m. unfold Qeq, Qminus, Qplus, Qopp, inject_Z. simpl. lia. }
  assert (forall z, (Qabs (z # d) <= 1 # 2)%Q <-> 2 * Z.abs z <= Z.pos d) as Hle.
  { intros z. unfold Qabs, Qle. simpl. lia. }
  assert (forall z, (Qabs (z # d) == 1 # 2)%Q <-> 2 * Z.abs z = Z.pos d) as Heq.
  { intros z. unfold Qabs, Qeq. simpl. lia. }
  destruct (Z.compare_spec (2 * r) (Z.pos d)) as [Htie|Hlt|Hgt].
  - destruct (Z.even below) eqn:Heven.
    + rewrite Hsub, Hle. split; [lia|done].
    + rewrite Hsub, Hle. split; [lia|]. intros _.
      rewrite Z.even_add, Heven. reflexivity.
  - rewrite Hsub, Hle, Heq. split; lia.
  - rewrite Hsub, Hle, Heq. split; lia.
Qed.

Lemma pow2_pos z : (0 < 2 ^ z)%Q.
Proof. by apply Qpower_0_lt. Qed.

Lemma pow2_succ z : (2 ^ (z + 1) == 2 * 2 ^ z)%Q.
Proof. rewrite Qpower_plus by done. change (2 ^ 1)%Q with 2%Q. ring. Qed.

Lemma pow2_pred z : (2 ^ (z - 1) == 2 ^ z / 2)%Q.
Proof.
  assert (2 ^ z == 2 * 2 ^ (z - 1))%Q as ->; [|by field].
  rewrite <-pow2_succ. by replace (z - 1 + 1) with z by lia.
Qed.

Lemma log2_bounds n :
  0 < n -> (2 ^ Z.log2 n <= inject_Z n)%Q /\ (inject_Z n < 2 * 2 ^ Z.log2 n)%Q.
Proof.
  intros Hn. destruct (Z.log2_spec n Hn) as [Hlo Hhi].
  pose proof (Z.log2_nonneg n) as Hnn.
  rewrite <-pow2_succ. change 2%Q with (inject_Z 2).
  rewrite <-!Zpower_Qpower by lia. rewrite <-Zle_Qle, <-Zlt_Qlt.
  replace (Z.log2 n + 1) with (Z.succ (Z.log2 n)) by lia. done.
Qed.

Lemma floor_log2_spec x :
  (0 < x)%Q -> (2 ^ floor_log2 x <= x)%Q /\ (x < 2 ^ (floor_log2 x + 1))%Q.
Proof.
  intros Hx. unfold floor_log2. destruct x as [n d]. cbn [Qnum Qden].
  assert (0 < n) as Hn by (unfold Qlt in Hx; simpl in Hx; lia).
  destruct (log2_bounds n Hn) as [HnA HnB].
  destruct (log2_bounds (Z.pos d) ltac:(lia)) as [HdA HdB].
  set (A := (2 ^ Z.log2 n)%Q) in *. set (D := (2 ^ Z.log2 (Z.pos d))%Q) in *.
  assert (0 < A)%Q as HA by apply pow2_pos.
  assert (0 < D)%Q as HD by apply pow2_pos.
  set (k := Z.log2 n - Z.log2 (Z.pos d)).
  assert (2 ^ k == A / D)%Q as Hk by (by apply Qpower_minus).
  assert (n # d == inject_Z n / inject_Z (Z.pos d))%Q as Hxq by apply Qmake_Qdiv.
  set (qn := inject_Z n) in *. set (qd := inject_Z (Z.pos d)) in *.
  set (t := (A / D)%Q) in *.
  assert (t * D == A)%Q as Ht by (unfold t; field; lra).
  assert (0 < t)%Q as Htpos.
  { unfold t. apply Qlt_shift_div_l; lra. }
  set (x := (qn / qd)%Q) in *.
  assert (x * qd == qn)%Q as Hxd by (unfold x; field; lra).
  assert (0 < qd)%Q as Hqd by lra.
  assert (x < 2 * t)%Q as Hupper.
  { apply Qnot_le_lt. intros Hle.
    assert (0 <= (x - 2 * t) * qd)%Q by (apply Qmult_le_0_compat; lra).
    assert (0 <= t * (qd - D))%Q by (apply Qmult_le_0_compat; lra).
    lra. }
  assert (0 < x)%Q as Hxpos.
  { unfold x. apply Qlt_shift_div_l; lra. }
  assert (t < 2 * x)%Q as Hlower.
  { apply Qnot_le_lt. intros Hle.
    assert (0 <= (t - 2 * x) * qd)%Q by (apply Qmult_le_0_compat; lra).
    assert (0 < t * (2 * D - qd))%Q by (apply Qmult_lt_0_compat; lra).
    lra. }
  destruct (Qle_bool (2 ^ k) (n # d)) eqn:Htest.
  - apply Qle_bool_iff in Htest. split; [done|].
    rewrite pow2_succ, Hk, Hxq. done.
  - assert (~ (2 ^ k <= n # d)%Q) as Hnot.
    { intros Hle%Qle_bool_iff. congruence. }
    replace (k - 1 + 1) with k by lia. rewrite pow2_pred, Hk, Hxq in *.
    split; [apply Qle_shift_div_r; lra|]. by apply Qnot_le_lt.
Qed.

Lemma pow2_le a b : a <= b -> (2 ^ a <= 2 ^ b)%Q.
Proof. intros Hab. by apply Qpower_le_compat_l. Qed.

Lemma Qabs_pow2 z : (Qabs (2 ^ z) == 2 ^ z)%Q.
Proof. apply Qabs_pos, Qlt_le_weak, pow2_pos. Qed.

(** The multiple of the unit that [round64] takes for a number that is
    not 0, before it looks for an overflow *)
Lemma round64_nearest x :
  ~ (x == 0)%Q ->
  exists m e,
    round64 x
      = (if Qle_bool (2 ^ 1024)%Q (Qabs (inject_Z m * 2 ^ e))
         then Infinite (negb (Qle_bool 0 x))
         else Finite (Qred (inject_Z m * 2 ^ e))) /\
    -1074 <= e /\ Z.abs m <= 2 ^ 53 /\
    (Qabs (inject_Z m * 2 ^ e - x) <= 2 ^ e / 2)%Q /\
    ((Qabs (inject_Z m * 2 ^ e - x) == 2 ^ e / 2)%Q -> Z.even m = true) /\
    (Qabs x < 2 ^ (e + 53))%Q /\
    (-1074 < e -> (2 ^ (e + 52) <= Qabs x)%Q).
Proof.
  intros Hzero. unfold round64.
  destruct (Qeq_bool x 0) eqn:Htest; [by apply Qeq_bool_iff in Htest|]. clear Htest.
  assert (0 < Qabs x)%Q as Hpos.
  { destruct (Qlt_le_dec 0 (Qabs x)) as [|Hle]; [done|].
    pose proof (Qabs_nonneg x). exfalso. apply Hzero.
    apply Qabs_Qle_condition in Hle. lra. }
  destruct (floor_log2_spec _ Hpos) as [Hlo Hhi].
  set (k := floor_log2 (Qabs x)) in *.
  set (e := Z.max (k - 52) (-1074)).
  set (m := round_half_even (x / 2 ^ e)).
  pose proof (pow2_pos e) as He.
  destruct (round_half_even_spec (x / 2 ^ e)) as [Hnear Htie]. fold m in Hnear, Htie.
  assert (inject_Z m * 2 ^ e - x == (inject_Z m - x / 2 ^ e) * 2 ^ e)%Q as Hdiff.
  { field. lra. }
  assert (Qabs (inject_Z m * 2 ^ e - x)
          == Qabs (inject_Z m - x / 2 ^ e) * 2 ^ e)%Q as Habs.
  { rewrite Hdiff, Qabs_Qmult, Qabs_pow2. reflexivity. }
  assert (Qabs x < 2 ^ (e + 53))%Q as Hsize.
  { eapply Qlt_le_trans; [exact Hhi|]. apply pow2_le. lia. }
  exists m, e. split; [done|]. split; [lia|].
  split; [|split; [|split; [|split]]].
  - assert (Qabs (x / 2 ^ e) < 2 ^ 53)%Q as Hscaled.
    { unfold Qdiv. rewrite Qabs_Qmult, Qabs_Qinv, Qabs_pow2.
      apply Qlt_shift_div_r; [done|]. rewrite <-Qpower_plus by done.
      by replace (53 + e) with (e + 53) by lia. }
    assert (Qabs (inject_Z m) < 2 ^ 53 + 1)%Q as Hm.
    { eapply Qle_lt_trans.
      - assert (inject_Z m == (inject_Z m - x / 2 ^ e) + x / 2 ^ e)%Q as -> by ring.
        apply Qabs_triangle.
      - lra. }
    change (2 ^ 53 + 1)%Q with (inject_Z (2 ^ 53 + 1)) in Hm.
    assert (Qabs (inject_Z m) == inject_Z (Z.abs m))%Q as Hz.
    { unfold inject_Z. by rewrite <-Zabs_Qabs. }
    rewrite Hz, <-Zlt_Qlt in Hm. lia.
  - rewrite Habs. apply Qle_shift_div_l; [lra|].
    assert (0 <= (1 # 2) - Qabs (inject_Z m - x / 2 ^ e))%Q as H1 by lra.
    pose proof (Qmult_le_0_compat _ _ H1 (Qlt_le_weak _ _ He)). lra.
  - rewrite Habs. intros Heq. apply Htie.
    assert ((Qabs (inject_Z m - x / 2 ^ e) - (1 # 2)) * 2 ^ e == 0)%Q as Hprod.
    { assert (2 ^ e / 2 == (1 # 2) * 2 ^ e)%Q as Hhalf by field.
      rewrite Hhalf in Heq. lra. }
    apply Qmult_integral in Hprod as [?|?]; lra.
  - done.
  - intros Hnormal. replace (e + 52) with k by lia. done.
Qed.

(** What [round64] gives when it is finite: a multiple [m * 2^e] of the
    unit that binary64 has at the size of [x], with at most 53 bits (or
    [2^53] itself), at most half a unit from [x], and with [m] even when
    it is exactly half a unit away. *)
Lemma round64_spec x y :
  round64 x = Finite y ->
  exists m e,
    -1074 <= e /\ Z.abs m <= 2 ^ 53 /\
    (y == inject_Z m * 2 ^ e)%Q /\
    (Qabs (y - x) <= 2 ^ e / 2)%Q /\
    ((Qabs (y - x) == 2 ^ e / 2)%Q -> Z.even m = true) /\
    (Qabs x < 2 ^ (e + 53))%Q /\
    (-1074 < e -> (2 ^ (e + 52) <= Qabs x)%Q).
Proof.
  destruct (Qeq_dec x 0) as [Hzero|Hzero].
  { unfold round64. rewrite (proj2 (Qeq_bool_iff x 0) Hzero).
    intros [= <-]. exists 0, (-1074).
    pose proof (pow2_pos (-1074)) as Hp.
    assert (Qabs (0 - x) == 0)%Q as Hd by (rewrite Hzero; reflexivity).
    assert (0 < 2 ^ (-1074) / 2)%Q as Hhalf by (apply Qlt_shift_div_l; lra).
    split; [lia|]. split; [done|]. split; [ring|].
    split; [rewrite Hd; lra|]. split; [rewrite Hd; intros Heq; lra|].
    split; [rewrite Hzero; apply pow2_pos|lia]. }
  destruct (round64_nearest x Hzero)
    as (m & e & -> & He & Hm & Hnear & Htie & Hsize & Hnormal).
  destruct (Qle_bool _ _); [done|]. intros [= <-]. exists m, e.
  rewrite Qred_correct. done.
Qed.

(** [round64] gives an infinity only from half a unit beyond the largest
    float on, with the sign of the number. *)
Lemma round64_overflow x negative :
  round64 x = Infinite negative ->
  (2 ^ 1024 - 2 ^ 970 <= Qabs x)%Q /\ negative = negb (Qle_bool 0 x).
Proof.
  destruct (Qeq_dec x 0) as [Hzero|Hzero].
  { unfold round64. by rewrite (proj2 (Qeq_bool_iff x 0) Hzero). }
  destruct (round64_nearest x Hzero)
    as (m & e & -> & He & Hm & Hnear & _ & Hsize & Hnormal).
  destruct (Qle_bool _ _) eqn:Hover; [|done]. intros [= <-]. split; [|done].
  apply Qle_bool_iff in Hover.
  pose proof (pow2_pos e) as Hpe. pose proof (pow2_pos 970) as Hp970.
  assert (Qabs (inject_Z m * 2 ^ e) <= 2 ^ (e + 53))%Q as Hy.
  { rewrite Qabs_Qmult, Qabs_pow2, Qpower_plus by done.
    assert (Qabs (inject_Z m) == inject_Z (Z.abs m))%Q as ->.
    { unfold inject_Z. by rewrite <-Zabs_Qabs. }
    rewrite (Qmult_comm (2 ^ e)). apply Qmult_le_compat_r; [|lra].
    change (2 ^ 53)%Q with (inject_Z (2 ^ 53)). by rewrite <-Zle_Qle. }
  assert (971 <= e) as Hbig.
  { assert (1024 <= e + 53); [|lia].
    apply (Qpower_le_compat_l_inv 2); [lra|done]. }
  assert (2 ^ 971 / 2 == 2 ^ 970)%Q as Hhalf by (by rewrite <-(pow2_pred 971)).
  destruct (Z.eq_dec e 971) as [->|Hne].
  - rewrite Hhalf in Hnear.
    pose proof (Qabs_triangle_reverse (inject_Z m * 2 ^ 971) x) as Hrev.
    revert Hover Hnear Hrev. generalize (2 ^ 1024)%Q (2 ^ 970)%Q.
    generalize (Qabs (inject_Z m * 2 ^ 971)) (Qabs (inject_Z m * 2 ^ 971 - x)) (Qabs x).
    intros. lra.
  - specialize (Hnormal ltac:(lia)).
    assert (2 ^ 1024 <= 2 ^ (e + 52))%Q as Hle by (apply pow2_le; lia).
    revert Hnormal Hle Hp970. generalize (2 ^ 1024)%Q (2 ^ 970)%Q (2 ^ (e + 52))%Q (Qabs x).
    intros. lra.
Qed.

Lemma round64_finite x :
  (Qabs x < 2 ^ 1024 - 2 ^ 970)%Q -> exists y, round64 x = Finite y.
Proof.
  intros Hx. destruct (round64 x) as [y|negative] eqn:Hround; [by exists y|].
  apply round64_overflow in Hround as [Hbig _].
  revert Hx Hbig. generalize (2 ^ 1024 - 2 ^ 970)%Q (Qabs x). intros. lra.
Qed.

Lemma floor_log2_unique x k :
  (2 ^ k <= x)%Q -> (x < 2 ^ (k + 1))%Q -> floor_log2 x = k.
Proof.
  intros Hlo Hhi.
  assert (0 < x)%Q as Hx by (pose proof (pow2_pos k); lra).
  destruct (floor_log2_spec x Hx) as [Hlo' Hhi'].
  assert (floor_log2 x < k + 1).
  { apply (Qpower_lt_compat_l_inv 2); [|lra]. by eapply Qle_lt_trans. }
  assert (k < floor_log2 x + 1).
  { apply (Qpower_lt_compat_l_inv 2); [|lra]. by eapply Qle_lt_trans. }
  lia.
Qed.

Lemma floor_log2_proper x x' : (0 < x)%Q -> (x == x')%Q -> floor_log2 x = floor_log2 x'.
Proof.
  intros Hx Heq. symmetry.
  destruct (floor_log2_spec x Hx) as [Hlo Hhi].
  apply floor_log2_unique; by rewrite <-Heq.
Qed.

Lemma inject_Z_abs z : (Qabs (inject_Z z) == inject_Z (Z.abs z))%Q.
Proof. unfold inject_Z. by rewrite <-Zabs_Qabs. Qed.

Lemma round_half_even_unique q m :
  (Qabs (inject_Z m - q) <= 1 # 2)%Q ->
  ((Qabs (inject_Z m - q) == 1 # 2)%Q -> Z.even m = true) ->
  round_half_even q = m.
Proof.
  intros Hnear Htie.
  destruct (round_half_even_spec q) as [Hnear' Htie'].
  set (m' := round_half_even q) in *.
  apply Qabs_diff_Qle_condition in Hnear as [H1 H2].
  apply Qabs_diff_Qle_condition in Hnear' as [H1' H2'].
  assert (inject_Z (m' - m) <= inject_Z 1)%Q as Hle1.
  { unfold Z.sub. rewrite inject_Z_plus, inject_Z_opp. change (inject_Z 1) with 1%Q. lra. }
  assert (inject_Z (m - m') <= inject_Z 1)%Q as Hle2.
  { unfold Z.sub. rewrite inject_Z_plus, inject_Z_opp. change (inject_Z 1) with 1%Q. lra. }
  rewrite <-Zle_Qle in Hle1, Hle2.
  assert (m' = m \/ m' = m + 1 \/ m = m' + 1) as [->|[Heq|Heq]] by lia; [done|..].
  - exfalso.
    assert (inject_Z m' == inject_Z m + 1)%Q as Hq.
    { rewrite Heq, inject_Z_plus. reflexivity. }
    assert (q == inject_Z m + (1 # 2))%Q as Hmid by lra.
    assert (Z.even m = true) as Hm.
    { apply Htie. rewrite Hmid.
      assert (inject_Z m - (inject_Z m + (1 # 2)) == - (1 # 2))%Q as -> by ring.
      reflexivity. }
    assert (Z.even m' = true) as Hm'.
    { apply Htie'. rewrite Hmid, Hq.
      assert (inject_Z m + 1 - (inject_Z m + (1 # 2)) == 1 # 2)%Q as -> by ring.
      reflexivity. }
    rewrite Heq, Z.even_add, Hm in Hm'. done.
  - exfalso.
    assert (inject_Z m == inject_Z m' + 1)%Q as Hq.
    { rewrite Heq, inject_Z_plus. reflexivity. }
    assert (q == inject_Z m' + (1 # 2))%Q as Hmid by lra.
    assert (Z.even m' = true) as Hm'.
    { apply Htie'. rewrite Hmid.
      assert (inject_Z m' - (inject_Z m' + (1 # 2)) == - (1 # 2))%Q as -> by ring.
      reflexivity. }
    assert (Z.even m = true) as Hm.
    { apply Htie. rewrite Hmid, Hq.
      assert (inject_Z m' + 1 - (inject_Z m' + (1 # 2)) == 1 # 2)%Q as -> by ring.
      reflexivity. }
    rewrite Heq, Z.even_add, Hm' in Hm. done.
Qed.

Lemma round_half_even_proper q q' : (q == q')%Q -> round_half_even q = round_half_even q'.
Proof.
  intros Heq. symmetry. destruct (round_half_even_spec q) as [Hnear Htie].
  apply round_half_even_unique; by rewrite <-Heq.
Qed.

(** The result of [round64] depends on the number only, not on the fraction
    that is written for it. *)
Lemma round64_proper x x' : (x == x')%Q -> round64 x = round64 x'.
Proof.
  intros Heq. unfold round64.
  destruct (Qeq_bool x 0) eqn:Hzero.
  { apply Qeq_bool_iff in Hzero. rewrite Heq in Hzero.
    apply Qeq_bool_iff in Hzero. by rewrite Hzero. }
  assert (Qeq_bool x' 0 = false) as ->.
  { destruct (Qeq_bool x' 0) eqn:Hz; [|done]. apply Qeq_bool_iff in Hz.
    rewrite <-Heq in Hz. apply Qeq_bool_iff in Hz. congruence. }
  apply Qeq_bool_neq in Hzero.
  assert (0 < Qabs x)%Q as Hpos.
  { destruct (Qlt_le_dec 0 (Qabs x)) as [|Hle]; [done|].
    exfalso. apply Hzero. apply Qabs_Qle_condition in Hle. lra. }
  assert (Qabs x == Qabs x')%Q as Habs by (rewrite Heq; reflexivity).
  rewrite <-(floor_log2_proper (Qabs x) (Qabs x') Hpos Habs).
  set (e := Z.max _ _).
  assert (x / 2 ^ e == x' / 2 ^ e)%Q as Hscaled by (rewrite Heq; reflexivity).
  rewrite <-(round_half_even_proper _ _ Hscaled).
  set (y := (inject_Z _ * 2 ^ e)%Q).
  assert (Qle_bool 0 x = Qle_bool 0 x') as ->.
  { destruct (Qle_bool 0 x) eqn:H0, (Qle_bool 0 x') eqn:H0'; try done.
    - apply Qle_bool_iff in H0. rewrite Heq in H0. apply Qle_bool_iff in H0. congruence.
    - apply Qle_bool_iff in H0'. rewrite <-Heq in H0'. apply Qle_bool_iff in H0'.
      congruence. }
  done.
Qed.

Lemma Qred_inject_Z z : Qred (inject_Z z) = inject_Z z.
Proof.
  unfold Qred, inject_Z.
  pose proof (Z.ggcd_gcd z 1) as Hg. pose proof (Z.ggcd_correct_divisors z 1) as Hd.
  destruct (Z.ggcd z 1) as [g [q1 q2]]. cbn [fst snd] in *.
  rewrite Z.gcd_1_r in Hg. subst g. destruct Hd as [Hz H1].
  f_equal; [lia|]. assert (q2 = 1) as -> by lia. done.
Qed.

(** An integer of at most 53 bits is a float. *)
Lemma round64_integer z :
  Z.abs z <= 2 ^ 53 -> round64 (inject_Z z) = Finite (inject_Z z).
Proof.
  intros Hz. destruct (Z.eq_dec z 0) as [->|Hne]; [done|].
  assert (~ (inject_Z z == 0)%Q) as Hzero.
  { change 0%Q with (inject_Z 0). rewrite inject_Z_injective. done. }
  unfold round64.
  destruct (Qeq_bool (inject_Z z) 0) eqn:Htest; [by apply Qeq_bool_iff in Htest|].
  clear Htest.
  assert (1 <= Qabs (inject_Z z))%Q as Hlo.
  { rewrite inject_Z_abs. change 1%Q with (inject_Z 1). rewrite <-Zle_Qle. lia. }
  assert (Qabs (inject_Z z) <= 2 ^ 53)%Q as Hhi.
  { rewrite inject_Z_abs. change (2 ^ 53)%Q with (inject_Z (2 ^ 53)).
    by rewrite <-Zle_Qle. }
  assert (0 < Qabs (inject_Z z))%Q as Hpos by lra.
  destruct (floor_log2_spec _ Hpos) as [Hk Hk'].
  set (k := floor_log2 (Qabs (inject_Z z))) in *.
  assert (0 <= k <= 53) as Hrange.
  { split.
    - assert (0 < k + 1); [|lia].
      apply (Qpower_lt_compat_l_inv 2); [|lra]. change (2 ^ 0)%Q with 1%Q. lra.
    - apply (Qpower_le_compat_l_inv 2); [|lra]. lra. }
  set (e := Z.max (k - 52) (-1074)).
  assert (e = k - 52) as He by lia.
  assert (exists w, (inject_Z z / 2 ^ e == inject_Z w)%Q) as [w Hw].
  { destruct (Z.eq_dec k 53) as [Hk53|Hk53].
    - assert (Z.abs z = 2 ^ 53) as Habs.
      { apply Z.le_antisymm; [done|]. rewrite Zle_Qle, <-inject_Z_abs.
        change (inject_Z (2 ^ 53)) with (2 ^ 53)%Q. by rewrite Hk53 in Hk. }
      exists (z `div` 2). rewrite He, Hk53. change (2 ^ (53 - 52))%Q with 2%Q.
      assert (z = 2 * (z `div` 2)) as Heven.
      { assert (z = 2 ^ 53 \/ z = - 2 ^ 53) as [->| ->] by lia; done. }
      rewrite Heven at 1. rewrite inject_Z_mult. change (inject_Z 2) with 2%Q.
      field.
    - exists (z * 2 ^ (52 - k)). rewrite inject_Z_mult.
      change 2 with (2)%Z. rewrite (Zpower_Qpower 2 (52 - k)) by lia.
      change (inject_Z 2) with 2%Q. rewrite He.
      replace (k - 52) with (- (52 - k)) by lia. rewrite Qpower_opp.
      field. apply Qpower_not_0. done. }
  rewrite (round_half_even_proper _ _ Hw).
  assert (round_half_even (inject_Z w) = w) as ->.
  { apply round_half_even_unique.
    - assert (inject_Z w - inject_Z w == 0)%Q as -> by ring. done.
    - assert (inject_Z w - inject_Z w == 0)%Q as -> by ring. done. }
  assert (inject_Z w * 2 ^ e == inject_Z z)%Q as Hy.
  { rewrite <-Hw. field. apply Qpower_not_0. done. }
  destruct (Qle_bool _ _) eqn:Hover.
  { exfalso. apply Qle_bool_iff in Hover. rewrite Hy in Hover.
    assert (2 ^ 53 < 2 ^ 1024)%Q as Hlt by (by apply Qpower_lt_compat_l).
    revert Hover Hhi Hlt. generalize (2 ^ 53)%Q (2 ^ 1024)%Q (Qabs (inject_Z z)).
    intros. lra. }
  f_equal. by rewrite (Qred_complete _ _ Hy), Qred_inject_Z.
Qed.

(** Whole numbers that are not negative add up without rounding as long as
    their sum has at most 53 bits. *)
Lemma float_sum_integers zs : forall acc,
  0 <= acc -> Forall (fun z => 0 <= z) zs -> acc + foldr Z.add 0 zs <= 2 ^ 53 ->
  foldl float_add (Finite (inject_Z acc)) (inject_Z <$> zs)
    = Finite (inject_Z (acc + foldr Z.add 0 zs)).
Proof.
  induction zs as [|z zs IH]; intros acc Hacc Hzs Hsum.
  { cbn. by rewrite Z.add_0_r. }
  apply Forall_cons in Hzs as [Hz Hzs]. cbn [foldr] in Hsum.
  assert (0 <= foldr Z.add 0 zs) as Hrest.
  { clear -Hzs. induction Hzs; cbn; lia. }
  cbn [fmap list_fmap foldl float_add]. rewrite <-inject_Z_plus.
  rewrite round64_integer by lia. rewrite IH by (done || lia).
  cbn [foldr]. f_equal. f_equal. lia.
Qed.

(** ** Sorting *)

Section SortedBy.
Context {A : Type} (le : A -> A -> bool).
Hypothesis le_total : forall x y, le x y = false -> le y x = true.

Local Abbreviation R := (fun x y => le x y = true).

Lemma insert_by_elem_of x y l : y ∈ insert_by le x l <-> y = x \/ y ∈ l.
Proof using Type.
  induction l as [|z l IH]; simpl.
  - rewrite list_elem_of_singleton, elem_of_nil. tauto.
  - destruct (le x z); rewrite !elem_of_cons; [tauto|].
    rewrite IH. tauto.
Qed.

Lemma sorted_by_elem_of y l : y ∈ sorted_by le l <-> y ∈ l.
Proof using Type.
  induction l as [|x l IH]; simpl; [done|].
  rewrite insert_by_elem_of, elem_of_cons, IH. tauto.
Qed.

Lemma insert_by_length x l : length (insert_by le x l) = S (length l).
Proof using Type.
  induction l as [|z l IH]; simpl; [done|].
  destruct (le x z); simpl; by rewrite ?IH.
Qed.

Lemma sorted_by_length l : length (sorted_by le l) = length l.
Proof using Type.
  induction l as [|x l IH]; simpl; [done|].
  by rewrite insert_by_length, IH.
Qed.

Lemma insert_by_HdRel x y l :
  le y x = true -> HdRel R y l -> HdRel R y (insert_by le x l).
Proof using Type.
  intros Hyx Hhd. destruct l as [|z l]; simpl.
  - by constructor.
  - destruct (le x z); constructor; [done|].
    by inversion Hhd.
Qed.

Lemma insert_by_Sorted x l : Sorted R l -> Sorted R (insert_by le x l).
Proof using le_total.
  induction 1 as [|z l Hl IH Hhd]; simpl.
  - by repeat constructor.
  - destruct (le x z) eqn:Hxz.
    + constructor; [by constructor|by constructor].
    + constructor; [done|].
      apply insert_by_HdRel; auto.
Qed.

Lemma sorted_by_Sorted l : Sorted R (sorted_by le l).
Proof using le_total.
  induction l as [|x l IH]; simpl; [constructor|].
  by apply insert_by_Sorted.
Qed.
End SortedBy.

Lemma Sorted_take {A} (R : relation A) n l : Sorted R l -> Sorted R (take n l).
Proof.
  intros Hl. revert n. induction Hl as [|x l Hl IH Hhd]; intros [|n]; simpl;
    try constructor; auto.
  destruct Hhd, n; simpl; by constructor.
Qed.

(** A sorted list stays sorted for a second relation that agrees with the
    first on the elements of the list. *)
Lemma Sorted_weaken {A} (P : A -> Prop) (R R' : relation A) l :
  (forall x y, P x -> P y -> R x y -> R' x y) ->
  Forall P l -> Sorted R l -> Sorted R' l.
Proof.
  intros HR HP Hl. induction Hl as [|x l Hl IH Hhd]; [constructor|].
  inversion HP as [|? ? Hx HPl]; subst. constructor; [by apply IH|].
  destruct Hhd as [|y l' Hxy]; constructor.
  inversion HPl; subst. by apply HR.
Qed.

Lemma Qle_bool_total x y : Qle_bool x y = false -> Qle_bool y x = true.
Proof.
  intros Hxy. apply Qle_bool_iff. destruct (Qlt_le_dec x y) as [Hlt|Hle]; [|done].
  apply Qlt_le_weak, Qle_bool_iff in Hlt. congruence.
Qed.

(** ** The agent *)

Section AgentFacts.
Import Agent.

(** *** Address of the host *)

Lemma scan_addrs_not_loopback addr_list ip :
  scan_addrs addr_list = Some ip -> is_loopback ip = false.
Proof.
  induction addr_list as [|addr rest IH]; cbn [scan_addrs]; [done|].
  case_decide; [|done].
  destruct (startswith _ (address addr)) eqn:Hsw; cbn [negb]; [done|].
  intros [= <-]. unfold is_loopback, startswith in *. cbn [existsb] in *.
  by destruct (String.prefix "127." (address addr)).
Qed.

Lemma method2_not_loopback h ip : method2 h = Some ip -> is_loopback ip = false.
Proof.
  unfold method2. destruct (net_if_addrs h) as [addrs|]; [|by cbn].
  change (scan_interfaces addrs = Some ip -> is_loopback ip = false).
  induction addrs as [|[interface addr_list] rest IH]; cbn [scan_interfaces]; [done|].
  destruct (startswith _ interface); [done|].
  destruct (scan_addrs addr_list) eqn:Hscan; [|done].
  intros [= <-]. eauto using scan_addrs_not_loopback.
Qed.

Lemma method3_not_loopback h ip : method3 h = Some ip -> is_loopback ip = false.
Proof.
  unfold method3. destruct (hostbyname h) as [ip'|]; [|by cbn].
  cbn [mbind option_bind].
  unfold is_loopback. destruct (startswith ["127."] ip') eqn:Hsw; cbn [negb]; [done|].
  by intros [= <-].
Qed.

(** X5: Only the first strategy and the last resort give a loopback address. *)
Lemma get_real_ip_loopback_inv h :
  is_loopback (get_real_ip h) = true ->
  (exists ip, udp_sockname h = Some ip /\ is_loopback ip = true) \/
  (udp_sockname h = None /\ method2 h = None /\ method3 h = None /\
   get_real_ip h = "127.0.0.1").
Proof.
  unfold get_real_ip. destruct (udp_sockname h) as [ip|]; [by eauto|].
  destruct (method2 h) as [ip|] eqn:H2.
  { intros Hlo. apply method2_not_loopback in H2. congruence. }
  destruct (method3 h) as [ip|] eqn:H3.
  { intros Hlo. apply method3_not_loopback in H3. congruence. }
  by right.
Qed.

(** C7: the resolver always answers, but on a host whose first strategy
    reads back 127.0.0.1 that loopback address is the answer although the
    interface scan and the host name both give 192.168.1.10. *)
Theorem get_real_ip_loopback_from_first_strategy :
  get_real_ip Samples.loopback_route = "127.0.0.1" /\
  is_loopback (get_real_ip Samples.loopback_route) = true /\
  method2 Samples.loopback_route = Some "192.168.1.10" /\
  method3 Samples.loopback_route = Some "192.168.1.10".
Proof. by vm_compute. Qed.

(** *** Transport *)

Lemma is_200_spec o : is_200 o = true <-> o = Response 200.
Proof.
  destruct o as [c|]; simpl; [|done].
  rewrite Z.eqb_eq. split; [by intros ->|by intros [= ->]].
Qed.

Lemma elem_of_range i n : i ∈ range n <-> 0 <= i < n.
Proof.
  unfold range. rewrite list_elem_of_fmap. split.
  - intros (k & -> & Hk). apply elem_of_seq in Hk. lia.
  - intros Hi. exists (Z.to_nat i). split; [lia|].
    apply elem_of_seq. lia.
Qed.

Lemma time_sleep_sure accepts secs :
  0 <= secs <= sleep_sure -> time_sleep accepts secs = Ok ().
Proof.
  intros Hs. unfold time_sleep.
  rewrite (proj2 (Z.ltb_ge secs (- sleep_max))),
    (proj2 (Z.ltb_ge sleep_max secs)), (proj2 (Z.ltb_ge secs 0)),
    (proj2 (Z.leb_le secs sleep_sure)); [done|..];
    unfold sleep_max, sleep_sure in *; lia.
Qed.

Lemma wait_sure retries backoff attempt :
  0 <= backoff ->
  (forall i, 0 <= i < retries - 1 -> backoff * 2 ^ i <= sleep_sure) ->
  attempt < retries - 1 -> 0 <= backoff * 2 ^ attempt <= sleep_sure.
Proof.
  intros Hb Hfit Hlt. split.
  - apply Z.mul_nonneg_nonneg; [done|]. apply Z.pow_nonneg. lia.
  - destruct (Z.le_gt_cases 0 attempt) as [?|Hneg]; [apply Hfit; lia|].
    rewrite Z.pow_neg_r by lia. unfold sleep_sure. lia.
Qed.

Lemma send_loop_result accepts post retries backoff attempts tr :
  0 <= backoff ->
  (forall i, 0 <= i < retries - 1 -> backoff * 2 ^ i <= sleep_sure) ->
  (send_loop accepts post retries backoff attempts tr).2 =
    Ok (existsb (fun attempt => is_200 (post attempt)) attempts).
Proof.
  intros Hb Hfit. revert tr.
  induction attempts as [|attempt rest IH]; intros tr; simpl.
  - done.
  - destruct (is_200 (post attempt)); simpl; [done|].
    destruct (Z.ltb_spec attempt (retries - 1)) as [Hlt|_]; [|by apply IH].
    rewrite time_sleep_sure by eauto using wait_sure. by apply IH.
Qed.

(** C4, as amended: with a backoff that is not negative and waits of at
    most [sleep_sure] seconds, sending succeeds exactly when one of the
    [retries] attempts gets the status 200; every other status and every
    exception is a failed attempt. *)
Theorem send_to_api_success_iff_200 accepts post retries backoff :
  0 <= backoff ->
  (forall attempt, 0 <= attempt < retries - 1 ->
     backoff * 2 ^ attempt <= sleep_sure) ->
  exists success,
    (send_to_api accepts post retries backoff).2 = Ok success /\
    (success = true <->
     exists attempt, 0 <= attempt < retries /\ post attempt = Response 200).
Proof.
  intros Hb Hfit. eexists. split.
  { unfold send_to_api. by apply send_loop_result. }
  rewrite existsb_exists. split.
  - intros (attempt & Hin & H200). exists attempt.
    by rewrite <-elem_of_range, <-is_200_spec, list_elem_of_In.
  - intros (attempt & Hin & H200). exists attempt.
    by rewrite <-list_elem_of_In, elem_of_range, is_200_spec.
Qed.

Lemma send_to_api_success_iff_200_witness :
  0 <= 2 /\
  (forall attempt, 0 <= attempt < 3 - 1 -> 2 * 2 ^ attempt <= sleep_sure) /\
  exists success,
    (send_to_api Samples.hour_after_boot Samples.second_try 3 2).2 = Ok success /\
    (success = true <->
     exists attempt, 0 <= attempt < 3 /\
       Samples.second_try attempt = Response 200).
Proof.
  assert (forall attempt, 0 <= attempt < 3 - 1 -> 2 * 2 ^ attempt <= sleep_sure)
    as Hfit.
  { intros attempt Ha. assert (attempt = 0 \/ attempt = 1) as [->| ->] by lia; done. }
  split; [lia|]. split; [exact Hfit|].
  apply (send_to_api_success_iff_200 Samples.hour_after_boot Samples.second_try 3 2);
    [lia|exact Hfit].
Defined.

(** C4, as stated, fails: a collector that answers 201 to each of three
    attempts gets a 2xx status and the transport reports failure. *)
Lemma send_to_api_rejects_201 :
  ~ Spec.success_iff_2xx Samples.hour_after_boot Samples.always_created 3 2.
Proof.
  unfold Spec.success_iff_2xx. intros [_ Hclaim].
  assert ((send_to_api Samples.hour_after_boot Samples.always_created 3 2).2 = Ok true) as Hrun.
  { apply Hclaim. exists 0, 201. repeat split; lia. }
  vm_compute in Hrun. discriminate.
Qed.

(** C6: with three attempts and a base backoff of 2 against a collector
    that never answers 200, there are exactly three posts, a sleep of 2
    and a sleep of 4 between them and none after the last, and the result
    is failure. *)
Theorem send_to_api_three_failures accepts post :
  (forall attempt, 0 <= attempt < 3 -> is_200 (post attempt) = false) ->
  send_to_api accepts post 3 2 = ([Post; Sleep 2; Post; Sleep 4; Post], Ok false) /\
  attempts_made (send_to_api accepts post 3 2).1 = 3%nat /\
  total_sleep (send_to_api accepts post 3 2).1 = 2 + 4 /\
  (send_to_api accepts post 3 2).2 = Ok false.
Proof.
  intros Hfail.
  assert (send_to_api accepts post 3 2 = ([Post; Sleep 2; Post; Sleep 4; Post], Ok false))
    as Hrun.
  { unfold send_to_api. change (range 3) with [0; 1; 2]. cbn [send_loop].
    rewrite (Hfail 0), (Hfail 1), (Hfail 2) by lia. reflexivity. }
  rewrite Hrun. done.
Qed.

Lemma send_to_api_three_failures_witness :
  (forall attempt, 0 <= attempt < 3 ->
     is_200 (Samples.always_unavailable attempt) = false) /\
  send_to_api Samples.hour_after_boot Samples.always_unavailable 3 2
    = ([Post; Sleep 2; Post; Sleep 4; Post], Ok false) /\
  attempts_made (send_to_api Samples.hour_after_boot Samples.always_unavailable 3 2).1 = 3%nat /\
  total_sleep (send_to_api Samples.hour_after_boot Samples.always_unavailable 3 2).1 = 2 + 4 /\
  (send_to_api Samples.hour_after_boot Samples.always_unavailable 3 2).2 = Ok false.
Proof.
  split; [done|].
  apply (send_to_api_three_failures Samples.hour_after_boot Samples.always_unavailable).
  done.
Defined.

(** *** Process list *)

Lemma cpu_geb_total x y : cpu_geb x y = false -> cpu_geb y x = true.
Proof. apply Qle_bool_total. Qed.

Lemma sorted_by_cpu_Sorted process_list ordered :
  sorted_by_cpu process_list = Ok ordered ->
  Sorted cpu_ge ordered.
Proof.
  unfold sorted_by_cpu.
  destruct (bool_decide _ && existsb _ _) eqn:Hguard; [done|].
  intros [= <-]. apply andb_false_iff in Hguard as [Hshort|Hnum].
  - apply bool_decide_eq_false in Hshort.
    destruct process_list as [|p [|q rest]]; simpl in *; [constructor| |lia].
    by repeat constructor.
  - apply (Sorted_weaken (fun p => cpu_percent p <> None)
             (fun x y => cpu_geb x y = true)).
    + intros x y Hx Hy. unfold cpu_geb, cpu_ge, Qleb.
      destruct (cpu_percent x), (cpu_percent y); try done.
      simpl. by rewrite Qle_bool_iff.
    + apply Forall_forall. intros p Hp%sorted_by_elem_of Hnone.
      assert (existsb (fun p => is_None (cpu_percent p)) process_list = true)
        as Hex; [|congruence].
      apply existsb_exists. exists p. rewrite <-list_elem_of_In.
      by rewrite Hnone.
    + apply sorted_by_Sorted, cpu_geb_total.
Qed.

(** C8: whatever the host shows, the process list of a snapshot has at
    most ten entries and their CPU percentages do not increase. *)
Theorem collect_processes_top10_sorted t :
  (length (collect_processes t) <= 10)%nat /\
  Sorted cpu_ge (collect_processes t).
Proof.
  unfold collect_processes.
  destruct (first_pass t) as [readings|]; simpl; [|by split; [lia|constructor]].
  destruct (initialise readings); simpl; [|by split; [lia|constructor]].
  destruct (second_pass t) as [procs|]; simpl; [|by split; [lia|constructor]].
  destruct (sample procs) as [process_list|]; simpl; [|by split; [lia|constructor]].
  destruct (sorted_by_cpu process_list) as [ordered|] eqn:Hsort; simpl;
    [|by split; [lia|constructor]].
  split.
  - rewrite length_take. lia.
  - by apply Sorted_take, (sorted_by_cpu_Sorted process_list).
Qed.

End AgentFacts.

(** ** The collector *)

Lemma bind_Ok {A B} (m : result A) (f : A -> result B) b :
  m ≫= f = Ok b <-> exists a, m = Ok a /\ f a = Ok b.
Proof.
  destruct m as [a|e]; simpl; split.
  - eauto.
  - by intros (a' & [= <-] & Hf).
  - done.
  - by intros (a' & [=] & _).
Qed.

Lemma fmap_Ok {A B} (m : result A) (f : A -> B) b :
  f <$> m = Ok b <-> exists a, m = Ok a /\ b = f a.
Proof.
  destruct m as [a|e]; simpl; split.
  - intros [= <-]. eauto.
  - by intros (a' & [= <-] & ->).
  - done.
  - by intros (a' & [=] & _).
Qed.

Section ApiFacts.
Import Api.
Variable fromisoformat : string -> option Z.
Variable isoformat : Z -> string.

Local Abbreviation get_stats := (Api.get_stats fromisoformat isoformat).
Local Abbreviation recent_agents := (Api.recent_agents fromisoformat).
Local Abbreviation staleness_alerts := (Api.staleness_alerts fromisoformat).

(** What an answer on a store that is not empty is made of *)
Lemma get_stats_Ok now now' data st :
  data <> [] ->
  get_stats now now' data = Ok st ->
  exists freqs avg pa sa,
    cpu_freqs data = Ok freqs /\
    mean freqs = Ok avg /\
    process_alerts (all_processes data) = Ok pa /\
    staleness_alerts now' data = Ok sa /\
    total_records st = len data /\
    active_agents st = Z.of_nat (size (recent_agents now data)) /\
    avg_cpu st = float_div avg 1000 /\
    os_distribution st = distribution (os_by_agent data) /\
    ip_activity st = distribution (ip_by_agent data) /\
    alerts st = pa ++ sa.
Proof.
  intros Hdata. unfold Api.get_stats. destruct data as [|item data']; [done|].
  set (data := item :: data') in *. clearbody data.
  intros (freqs & Hfreqs & H)%bind_Ok.
  apply bind_Ok in H as (avg & Havg & H).
  apply bind_Ok in H as (tl & Htl & H).
  apply bind_Ok in H as (top & Htop & H).
  apply bind_Ok in H as (high & Hhigh & H).
  apply bind_Ok in H as (pa & Hpa & H).
  apply bind_Ok in H as (sa & Hsa & H).
  apply bind_Ok in H as (last & Hlast & H).
  injection H as <-. exists freqs, avg, pa, sa. by repeat split.
Qed.

(** *** Empty store *)

(** C9: on an empty store the answer exists, its counts and its average
    are zero, its sequences are empty and its last update is the current
    time. *)
Theorem get_stats_empty now now' :
  exists st,
    get_stats now now' [] = Ok st /\
    total_records st = 0 /\ active_agents st = 0 /\ avg_cpu st = Finite 0 /\
    total_processes st = 0 /\ active_users st = 0 /\
    last_update st = Some (isoformat now) /\
    cpu_timeline st = {| labels := []; data := [] |} /\
    os_distribution st = {| labels := []; data := [] |} /\
    ip_activity st = {| labels := []; data := [] |} /\
    top_processes st = {| labels := []; data := [] |} /\
    processes_out st = [] /\ users_out st = [] /\
    high_cpu_processes st = [] /\ alerts st = [].
Proof. eexists. split; [reflexivity|]. by repeat split. Qed.

(** *** Active agents *)

Lemma add_agent_mono item (recent : gset string) a :
  a ∈ recent -> a ∈ add_agent item recent.
Proof.
  unfold add_agent. destruct (get (agent_id item) None) as [a'|]; [|done].
  destruct (truthy (Some a')); set_solver.
Qed.

Lemma add_agent_named item (recent : gset string) a :
  agent_id item = Val a -> a <> EmptyString -> a ∈ add_agent item recent.
Proof.
  intros Hid Ha. unfold add_agent. rewrite Hid. simpl.
  destruct a; [done|]. set_solver.
Qed.

Local Abbreviation recent_step cutoff_time :=
  (fun (recent : gset string) item =>
     match item_time fromisoformat item with
     | Some t =>
         if bool_decide (cutoff_time < t) then add_agent item recent else recent
     | None => add_agent item recent
     end).

Lemma recent_fold_mono cutoff_time data (recent : gset string) a :
  a ∈ recent -> a ∈ foldl (recent_step cutoff_time) recent data.
Proof.
  revert recent. induction data as [|item data IH]; intros recent Ha; simpl; [done|].
  apply IH. destruct (item_time fromisoformat item); [case_bool_decide|];
    auto using add_agent_mono.
Qed.

Lemma recent_fold_undated cutoff_time data (recent : gset string) item a :
  item ∈ data -> item_time fromisoformat item = None ->
  agent_id item = Val a -> a <> EmptyString ->
  a ∈ foldl (recent_step cutoff_time) recent data.
Proof.
  intros Hin Htime Hid Ha. revert recent.
  induction data as [|item' data IH]; intros recent; [by inversion Hin|].
  simpl. apply elem_of_cons in Hin as [<-|Hin]; [|by apply IH].
  apply recent_fold_mono. rewrite Htime. by apply add_agent_named.
Qed.

(** C10: a record with an agent id whose receipt time (or, without one,
    whose timestamp) is not an ISO date makes its agent active whatever
    the current time is, and the count of active agents includes it. *)
Theorem undated_record_is_active now data item a s :
  item ∈ data ->
  agent_id item = Val a -> a <> EmptyString ->
  get (received_at item) (Some (timestamp item)) = Some s ->
  fromisoformat s = None ->
  a ∈ recent_agents now data /\
  forall now' st, get_stats now now' data = Ok st ->
    active_agents st = Z.of_nat (size (recent_agents now data)) /\
    1 <= active_agents st.
Proof.
  intros Hin Hid Ha Hs Hparse.
  assert (a ∈ recent_agents now data) as Hactive.
  { apply recent_fold_undated with item; try done.
    unfold item_time. by rewrite Hs. }
  split; [done|]. intros now' st Hst.
  apply get_stats_Ok in Hst as (? & ? & ? & ? & _ & _ & _ & _ & _ & -> & _);
    [|by intros ->; inversion Hin].
  split; [done|].
  assert (size (recent_agents now data) <> 0%nat); [|lia].
  intros Hsize%size_empty_inv. set_solver.
Qed.

(** *** Alerts *)

Lemma critical_band c : critical c = bool_decide (Spec.band_of c = Spec.Critical).
Proof.
  unfold critical, Qltb, Spec.band_of.
  destruct (Qlt_le_dec 80 c) as [Hlt|Hle].
  - apply Qlt_not_le in Hlt. destruct (Qle_bool c 80) eqn:Hb; [|done].
    by apply Qle_bool_iff in Hb.
  - apply Qle_bool_iff in Hle. rewrite Hle. by destruct (Qlt_le_dec 50 c).
Qed.

Lemma elevated_band c : elevated c = bool_decide (Spec.band_of c = Spec.Elevated).
Proof.
  unfold elevated, Qltb, Qleb, Spec.band_of.
  destruct (Qlt_le_dec 80 c) as [Hlt|Hle].
  - apply Qlt_not_le in Hlt. destruct (Qle_bool c 80) eqn:Hb.
    + by apply Qle_bool_iff in Hb.
    + by rewrite andb_false_r.
  - apply Qle_bool_iff in Hle. rewrite Hle, andb_true_r.
    destruct (Qlt_le_dec 50 c) as [Hlt|Hle'].
    + apply Qlt_not_le in Hlt. destruct (Qle_bool c 50) eqn:Hb; [|done].
      by apply Qle_bool_iff in Hb.
    + apply Qle_bool_iff in Hle'. by rewrite Hle'.
Qed.

Lemma select_numbers test rows cpus :
  row_cpu_percent <$> rows = Some <$> cpus ->
  exists selected,
    select test rows = Ok selected /\
    len selected = len (List.filter test cpus).
Proof.
  revert cpus. induction rows as [|p rows IH]; intros [|c cpus] [=]; simpl.
  - by exists [].
  - destruct (IH cpus) as (selected & Hsel & Hlen); [done|].
    replace (row_cpu_percent p) with (Some c). rewrite Hsel.
    destruct (test c); simpl; eexists; (split; [done|]).
    + unfold len in *. simpl. lia.
    + done.
Qed.

Lemma process_alerts_expected rows cpus :
  row_cpu_percent <$> rows = Some <$> cpus ->
  process_alerts rows = Ok (Spec.expected_process_alerts cpus).
Proof.
  intros Hrows. unfold process_alerts, Spec.expected_process_alerts, Spec.in_band.
  destruct (select_numbers critical rows cpus Hrows) as (cs & -> & Hcs).
  destruct (select_numbers elevated rows cpus Hrows) as (ws & -> & Hws).
  rewrite (List.filter_ext _ _ critical_band) in Hcs.
  rewrite (List.filter_ext _ _ elevated_band) in Hws.
  rewrite <-Hcs, <-Hws. simpl. unfold len.
  destruct cs, ws; simpl; try done.
Qed.

(** X28: over rows whose CPU percentages are numbers, the process alerts
    are one alert of type [danger] with the number of the rows above 80, if
    there is one, then one alert of type [warning] with the number of the
    rows above 50 and up to 80, if there is one; 50 is in neither band, 80
    is elevated. *)
Theorem process_alerts_by_band rows cpus :
  row_cpu_percent <$> rows = Some <$> cpus ->
  process_alerts rows = Ok (Spec.expected_process_alerts cpus) /\
  Spec.band_of 50 = Spec.Normal /\ Spec.band_of 50.01 = Spec.Elevated /\
  Spec.band_of 80 = Spec.Elevated /\ Spec.band_of 80.01 = Spec.Critical /\
  forall now now' data st,
    all_processes data = rows -> data <> [] ->
    get_stats now now' data = Ok st ->
    exists sa, staleness_alerts now' data = Ok sa /\
      alerts st = Spec.expected_process_alerts cpus ++ sa.
Proof.
  intros Hrows. pose proof (process_alerts_expected rows cpus Hrows) as Hpa.
  split; [done|]. do 4 (split; [reflexivity|]).
  intros now now' data st <- Hdata Hst.
  apply get_stats_Ok in Hst
    as (? & ? & pa & sa & _ & _ & Hpa' & Hsa & _ & _ & _ & _ & _ & ->); [|done].
  exists sa. split; [done|]. congruence.
Qed.

Lemma process_alerts_not_staleness rows pa :
  process_alerts rows = Ok pa -> filter Spec.is_staleness pa = [].
Proof.
  unfold process_alerts.
  intros (cs & _ & (ws & _ & [= <-])%bind_Ok)%bind_Ok.
  by destruct cs, ws.
Qed.

(** When the record listed last has a receipt time, the alert on old data
    is raised exactly when that time is more than 120 seconds before now,
    and it tells the whole minutes elapsed; 119 seconds give no alert and
    121 seconds give the alert with 2 minutes. *)
Lemma staleness_of_last_listed now now' data item s t :
  last data = Some item ->
  received_at item = Val s ->
  fromisoformat s = Some t ->
  let expected :=
    if bool_decide (120 * usec < now' - t)
    then [stale_alert ((now' - t) `div` (60 * usec))] else [] in
  staleness_alerts now' data = Ok expected /\
  staleness_alerts (t + 119 * usec) data = Ok [] /\
  staleness_alerts (t + 121 * usec) data = Ok [stale_alert 2] /\
  forall st, get_stats now now' data = Ok st ->
    filter Spec.is_staleness (alerts st) = expected.
Proof.
  intros Hlast Hreceived Hparse expected.
  assert (forall clock, staleness_alerts clock data =
            Ok (if bool_decide (120 * usec < clock - t)
                then [stale_alert ((clock - t) `div` (60 * usec))] else []))
    as Hrun.
  { intros clock. unfold Api.staleness_alerts.
    rewrite Hlast, Hreceived, Hparse. cbv zeta.
    case_bool_decide as Hold; [|done].
    rewrite Z.quot_div_nonneg; [done| |]; unfold usec in *; lia. }
  split; [apply Hrun|]. split; [|split].
  - rewrite Hrun. replace (t + 119 * usec - t) with (119 * usec) by lia.
    reflexivity.
  - rewrite Hrun. replace (t + 121 * usec - t) with (121 * usec) by lia.
    reflexivity.
  - intros st Hst.
    apply get_stats_Ok in Hst
      as (? & ? & pa & sa & _ & _ & Hpa & Hsa & _ & _ & _ & _ & _ & ->);
      [|by intros ->].
    rewrite Hrun in Hsa. injection Hsa as <-.
    rewrite filter_app, (process_alerts_not_staleness _ _ Hpa). simpl.
    subst expected. by case_bool_decide.
Qed.

(** *** Average CPU *)

Lemma cpu_current_contribution item :
  Spec.no_null_frequency item ->
  cpu_current (cpu item) = Ok (Some (Spec.contribution item)).
Proof.
  unfold Spec.no_null_frequency, cpu_current, Spec.contribution, Spec.reported.
  destruct (frequency (cpu item)) as [| |f]; [done..|].
  by destruct (current f).
Qed.

Lemma mapM_cpu_current (l : list Item) :
  Forall Spec.no_null_frequency l ->
  mapM (fun item => cpu_current (cpu item)) l
    = Ok (Some <$> (Spec.contribution <$> l)).
Proof.
  induction 1 as [|item l Hitem Hl IH]; [done|].
  cbn [mapM]. rewrite (cpu_current_contribution item Hitem), IH. done.
Qed.

Lemma sum_from_numbers acc qs :
  sum_from acc (Some <$> qs) = Ok (foldl float_add acc qs).
Proof. revert acc. induction qs as [|q qs IH]; intros acc; simpl; [done|apply IH]. Qed.

Lemma Forall_counted (P : Item -> Prop) data :
  Forall P data -> Forall P (Spec.counted data).
Proof.
  unfold Spec.counted. induction 1 as [|item l Hitem Hl IH]; simpl; [done|].
  destruct (cpu_truthy (cpu item)); auto.
Qed.

(** C2, as amended: when no record holds a null frequency, the average is
    taken over the records whose [cpu] object is not empty, a record
    without a frequency counting in it for 0: their frequencies are added
    from the left and the sum is divided by their number, and the answer
    gives the quotient divided by 1000, every result being rounded as
    floats are. *)
Theorem avg_cpu_mean_with_zeros now now' data :
  Forall Spec.no_null_frequency data ->
  cpu_freqs data = Ok (Some <$> (Spec.contribution <$> Spec.counted data)) /\
  mean (Some <$> (Spec.contribution <$> Spec.counted data))
    = Ok (Spec.mean_with_zeros data) /\
  forall st, data <> [] -> get_stats now now' data = Ok st ->
    avg_cpu st = float_div (Spec.mean_with_zeros data) 1000.
Proof.
  intros Hdata.
  assert (cpu_freqs data = Ok (Some <$> (Spec.contribution <$> Spec.counted data)))
    as Hfreqs by (by apply mapM_cpu_current, Forall_counted).
  assert (mean (Some <$> (Spec.contribution <$> Spec.counted data))
          = Ok (Spec.mean_with_zeros data)) as Hmean.
  { unfold Spec.mean_with_zeros. destruct (Spec.counted data) as [|item l]; [done|].
    unfold mean, sum, Spec.arithmetic_mean.
    rewrite sum_from_numbers. cbn [fmap list_fmap mbind result_bind].
    unfold len. by rewrite !length_cons, !length_fmap. }
  do 2 (split; [done|]). intros st Hne Hst.
  apply get_stats_Ok in Hst
    as (freqs & avg & ? & ? & Hf & Ha & _ & _ & _ & _ & -> & _); [|done].
  congruence.
Qed.

Lemma mean_numbers qs :
  qs <> [] ->
  mean (Some <$> qs) = Ok (float_div (foldl float_add (Finite 0) qs) (len qs)).
Proof.
  destruct qs as [|q qs]; [done|]. intros _. unfold mean, sum.
  cbn [fmap list_fmap sum_from].
  change (list_fmap Q (option Q) Some qs) with (Some <$> qs).
  rewrite sum_from_numbers. cbn [mbind result_bind foldl].
  unfold len. cbn [length]. by rewrite length_fmap.
Qed.

(** When the frequencies averaged are whole numbers of MHz that are not
    negative and add up to at most 53 bits, their sum is exact: the answer
    is their mean, rounded, divided by 1000 and rounded again. *)
Lemma avg_cpu_whole_mhz now now' data zs st :
  Forall Spec.no_null_frequency data ->
  Spec.contribution <$> Spec.counted data = inject_Z <$> zs ->
  Forall (fun z => 0 <= z) zs -> foldr Z.add 0 zs <= 2 ^ 53 -> zs <> [] ->
  get_stats now now' data = Ok st ->
  avg_cpu st
    = float_div (round64 (inject_Z (foldr Z.add 0 zs) / inject_Z (len zs))) 1000.
Proof.
  intros Hdata Hzs Hpos Hsum Hne Hst.
  assert (data <> []) as Hdata' by (intros ->; by destruct zs).
  apply get_stats_Ok in Hst
    as (freqs & avg & ? & ? & Hf & Ha & _ & _ & _ & _ & -> & _); [|done].
  f_equal. unfold cpu_freqs in Hf.
  rewrite mapM_cpu_current in Hf by (by apply Forall_counted).
  injection Hf as <-. fold (Spec.counted data) in Ha. rewrite Hzs in Ha.
  rewrite mean_numbers in Ha by (by destruct zs).
  change (Finite 0) with (Finite (inject_Z 0)) in Ha.
  rewrite (float_sum_integers zs 0) in Ha by (done || lia).
  injection Ha as <-. unfold len. by rewrite length_fmap.
Qed.

(** *** Distributions *)

Section DictFacts.
Context {K V : Type} `{EqDecision K}.
Implicit Types (d : list (K * V)).

Lemma dict_get_set k k' v d :
  dict_get k' (dict_set k v d) = if decide (k = k') then Some v else dict_get k' d.
Proof.
  induction d as [|[k0 v0] d IH]; simpl.
  - by repeat case_decide.
  - repeat (case_decide; simpl; simplify_eq); done.
Qed.

Lemma keys_dict_set k k' v d :
  k' ∈ keys (dict_set k v d) <-> k' = k \/ k' ∈ keys d.
Proof.
  unfold keys. induction d as [|[k0 v0] d IH]; simpl.
  - rewrite list_elem_of_singleton, elem_of_nil. tauto.
  - case_decide; simpl; rewrite !elem_of_cons; [subst; tauto|].
    rewrite IH. tauto.
Qed.

Lemma keys_dict_set_NoDup k v d : NoDup (keys d) -> NoDup (keys (dict_set k v d)).
Proof.
  unfold keys. induction d as [|[k0 v0] d IH]; simpl; intros Hd.
  - apply NoDup_singleton.
  - apply NoDup_cons in Hd as [Hk0 Hd]. case_decide; simpl.
    + subst. by apply NoDup_cons.
    + apply NoDup_cons. split; [|by apply IH].
      intros [?|?]%keys_dict_set; [congruence|done].
Qed.
End DictFacts.

Lemma zip_keys_values {K V} (d : list (K * V)) : zip (keys d) (values d) = d.
Proof. apply zip_fst_snd. Qed.

Section ByAgent.
Context {V : Type} (val : Item -> V).

Local Abbreviation table_step :=
  (fun (d : list (string * V)) item =>
     match dedup_key item with
     | Some agent_id => dict_set agent_id (val item) d
     | None => d
     end).

Lemma table_keys_NoDup data (d : list (string * V)) :
  NoDup (keys d) -> NoDup (keys (foldl table_step d data)).
Proof.
  revert d. induction data as [|item data IH]; intros d Hd; simpl; [done|].
  apply IH. destruct (dedup_key item); [by apply keys_dict_set_NoDup|done].
Qed.

Lemma table_get k data (d : list (string * V)) :
  dict_get k (foldl table_step d data) =
    match Spec.last_for k data with
    | Some item => Some (val item)
    | None => dict_get k d
    end.
Proof.
  revert d. induction data as [|item data IH]; intros d; [done|].
  cbn [foldl]. rewrite IH. unfold Spec.last_for. cbn [List.filter].
  case_bool_decide as Hkey.
  - rewrite last_cons. rewrite Hkey, dict_get_set, decide_True by done.
    by destruct (last _).
  - destruct (last _); [done|].
    destruct (dedup_key item) as [k'|]; [|done].
    rewrite dict_get_set, decide_False; [done|congruence].
Qed.
End ByAgent.

Section Counts.
Context {V : Type} `{EqDecision V}.

Local Abbreviation count_step :=
  (fun (counts : list (V * Z)) v =>
     dict_set v (default 0 (dict_get v counts) + 1) counts).

Lemma count_fold_get v vs (counts : list (V * Z)) :
  default 0 (dict_get v (foldl count_step counts vs))
    = default 0 (dict_get v counts) + len (filter (fun v' => v' = v) vs).
Proof.
  revert counts. induction vs as [|v0 vs IH]; intros counts.
  - unfold len. simpl. lia.
  - cbn [foldl]. rewrite IH, dict_get_set. unfold len.
    rewrite filter_cons. case_decide; subst; simpl; lia.
Qed.

Lemma distribution_count v (by_agent : list (string * V)) :
  Spec.chart_count v (distribution by_agent) = Spec.agents_with v by_agent.
Proof.
  unfold Spec.chart_count, distribution, Spec.agents_with. cbn [labels data].
  rewrite zip_keys_values. unfold count_values. by rewrite count_fold_get.
Qed.
End Counts.

Lemma last_filter_split {A} (P : A -> bool) l x :
  last (List.filter P l) = Some x ->
  exists l1 l2, l = l1 ++ x :: l2 /\ P x = true /\ Forall (fun y => P y = false) l2.
Proof.
  induction l as [|a l IH]; [done|]. cbn [List.filter].
  destruct (P a) eqn:Ha.
  - rewrite last_cons. destruct (last (List.filter P l)) as [y|] eqn:Hlast.
    + intros [= ->]. destruct IH as (l1 & l2 & -> & Hx & Hl2); [done|].
      by exists (a :: l1), l2.
    + intros [= <-]. exists [], l. repeat split; [done|].
      apply last_None in Hlast. clear IH. induction l as [|b l IH]; [done|].
      simpl in Hlast. destruct (P b) eqn:Hb; [done|]. constructor; auto.
  - intros (l1 & l2 & -> & Hx & Hl2)%IH. by exists (a :: l1), l2.
Qed.

Lemma entries_of_lookup {V} k v (d : list (string * V)) :
  NoDup (keys d) -> dict_get k d = Some v -> Spec.entries_of k d = 1%nat.
Proof.
  unfold Spec.entries_of, keys.
  induction d as [|[k0 v0] d IH]; simpl; [done|].
  intros [Hk0 Hd]%NoDup_cons. rewrite filter_cons. simpl.
  case_decide as Hk; subst.
  - intros _. simpl. f_equal. apply length_zero_iff_nil, elem_of_nil_inv.
    by intros k' [-> Hk']%list_elem_of_filter.
  - by apply IH.
Qed.

Lemma ltb_not_leb s1 s2 : String.ltb s1 s2 = true -> String.leb s2 s1 = false.
Proof.
  unfold String.ltb, String.leb. rewrite (String.compare_antisym s2 s1).
  by destruct (String.compare s1 s2).
Qed.

(** In a store listed by timestamp, the record of an agent that is later
    than its other records is the last one of the agent. *)
Lemma latest_is_last data k item :
  Spec.in_timestamp_order data ->
  Spec.latest_for k data item ->
  Spec.last_for k data = Some item.
Proof.
  intros Hsorted (Hin & Hkey & Hlatest).
  destruct (Spec.last_for k data) as [item_l|] eqn:Hlast.
  - pose proof Hlast as (l1 & l2 & -> & Hkl%bool_decide_eq_true & Hl2)%last_filter_split.
    destruct (decide (item_l = item)) as [->|Hne]; [done|].
    assert (item ∈ l1) as Hl1.
    { apply elem_of_app in Hin as [?|Hin]; [done|].
      apply elem_of_cons in Hin as [->|Hin]; [done|].
      rewrite Forall_forall in Hl2. apply Hl2 in Hin.
      by rewrite bool_decide_eq_false in Hin. }
    assert (String.leb (timestamp item) (timestamp item_l) = true) as Hle.
    { apply (StronglySorted_app_1_elem_of
               (fun x y => String.leb (timestamp x) (timestamp y) = true)
               l1 (item_l :: l2)); [done..|]. by left. }
    assert (String.ltb (timestamp item_l) (timestamp item) = true) as Hlt.
    { apply Hlatest; [|done..]. apply elem_of_app. right. by left. }
    apply ltb_not_leb in Hlt. congruence.
  - unfold Spec.last_for in Hlast. apply last_None in Hlast.
    assert (item ∈ List.filter
              (fun item => bool_decide (dedup_key item = Some k)) data) as Hf.
    { apply list_elem_of_In, filter_In. split; [by apply list_elem_of_In|].
      by apply bool_decide_eq_true. }
    rewrite Hlast in Hf. by apply elem_of_nil in Hf.
Qed.

(** C1, as amended: every agent key has one entry in the two tables, with
    the system name and the address of the last record of that key in the
    order of the store, and every entry adds one to the count of its value;
    in a store listed by timestamp that record is the one with the latest
    timestamp; a record without the [agent_id] key is filed under its
    address; the answer carries the two charts of these counts. *)
Theorem distributions_follow_last_record data :
  (forall k, dict_get k (os_by_agent data) = Spec.os_label <$> Spec.last_for k data) /\
  (forall k, dict_get k (ip_by_agent data) = ip <$> Spec.last_for k data) /\
  (forall k item, Spec.last_for k data = Some item ->
     Spec.entries_of k (os_by_agent data) = 1%nat /\
     Spec.entries_of k (ip_by_agent data) = 1%nat) /\
  (forall v, Spec.chart_count v (distribution (os_by_agent data))
             = Spec.agents_with v (os_by_agent data)) /\
  (forall v, Spec.chart_count v (distribution (ip_by_agent data))
             = Spec.agents_with v (ip_by_agent data)) /\
  (Spec.in_timestamp_order data -> Spec.attributed_to_latest data) /\
  (forall item, agent_id item = Absent -> ip item <> EmptyString ->
     dedup_key item = Some (ip item)) /\
  (forall now now' st, get_stats now now' data = Ok st ->
     os_distribution st = distribution (os_by_agent data) /\
     ip_activity st = distribution (ip_by_agent data)).
Proof.
  assert (forall k, dict_get k (os_by_agent data)
                    = Spec.os_label <$> Spec.last_for k data) as Hos.
  { intros k. unfold os_by_agent. rewrite (table_get Spec.os_label).
    by destruct (Spec.last_for k data). }
  assert (forall k, dict_get k (ip_by_agent data) = ip <$> Spec.last_for k data)
    as Hip.
  { intros k. unfold ip_by_agent. rewrite (table_get ip).
    by destruct (Spec.last_for k data). }
  split; [done|]. split; [done|]. split; [|split; [|split; [|split; [|split]]]].
  - intros k item Hlast. split.
    + apply (entries_of_lookup k (Spec.os_label item)).
      * apply (table_keys_NoDup Spec.os_label). constructor.
      * by rewrite Hos, Hlast.
    + apply (entries_of_lookup k (ip item)).
      * apply (table_keys_NoDup ip). constructor.
      * by rewrite Hip, Hlast.
  - intros v. apply distribution_count.
  - intros v. apply distribution_count.
  - intros Hsorted k item Hlatest.
    rewrite Hos, Hip, (latest_is_last data k item Hsorted Hlatest). done.
  - intros item Hid Hne. unfold dedup_key. rewrite Hid. simpl.
    by destruct (ip item).
  - intros now now' st Hst. destruct data as [|item0 data']; [by injection Hst as <-|].
    apply get_stats_Ok in Hst
      as (? & ? & ? & ? & _ & _ & _ & _ & _ & _ & _ & -> & -> & _); done.
Qed.

End ApiFacts.

(** ** Runs on the sample stores *)

Section Runs.
Import Api ApiSamples.

Local Abbreviation run := (Api.get_stats fromisoformat isoformat).

(** C1, as stated, fails: with the two records of an agent listed later
    one first, the agent is filed under the address and the system of the
    record with the earlier timestamp. *)
Lemma out_of_order_not_attributed_to_latest :
  ~ Spec.attributed_to_latest out_of_order.
Proof.
  intros Hclaim. destruct (Hclaim "web-1" moved_second) as [Hip _].
  - split; [by left|]. split; [done|].
    intros item' Hin _ Hne. unfold out_of_order in Hin.
    apply elem_of_cons in Hin as [->|Hin]; [done|].
    by apply list_elem_of_singleton in Hin as ->.
  - vm_compute in Hip. discriminate.
Qed.

Lemma distributions_follow_last_record_witness :
  Spec.last_for "web-1" in_order = Some moved_second /\
  dict_get "web-1" (ip_by_agent in_order) = Some "10.0.0.2" /\
  Spec.last_for "web-1" out_of_order = Some moved_first /\
  dict_get "web-1" (ip_by_agent out_of_order) = Some "10.0.0.1".
Proof.
  split; [reflexivity|]. split; [|split; [reflexivity|]].
  - apply (distributions_follow_last_record fromisoformat isoformat in_order).
  - apply (distributions_follow_last_record fromisoformat isoformat out_of_order).
Defined.

(** A record stored with a null [agent_id] is in neither table. *)
Example null_agent_id_is_skipped :
  ip_by_agent [record "10.0.0.9" Null (cpu_at 2000) linux []
                      "2024-05-01T10:00:00" (Val "2024-05-01T10:00:00")] = [].
Proof. reflexivity. Qed.

(** C2, as stated, fails: one record reports 2000 MHz and another has no
    frequency; the mean of the reported frequencies is 2000 MHz and the
    answer is 1, the mean of 2000 and 0 in GHz, whichever unit it is read
    in. *)
Lemma avg_cpu_not_mean_of_reported :
  ~ Spec.avg_is_mean_of_reported fromisoformat isoformat Spec.MHz
      (t_1000 + 120 * usec) (t_1000 + 120 * usec) one_without_frequency /\
  ~ Spec.avg_is_mean_of_reported fromisoformat isoformat Spec.GHz
      (t_1000 + 120 * usec) (t_1000 + 120 * usec) one_without_frequency.
Proof.
  assert (one_without_frequency <> []) as Hne by discriminate.
  split; intros Hclaim; destruct (Hclaim Hne) as (st & Hst & Hmean);
    vm_compute in Hst; injection Hst as <-;
    vm_compute in Hmean; discriminate.
Qed.

Example avg_cpu_of_one_without_frequency :
  exists st,
    run (t_1000 + 120 * usec) (t_1000 + 120 * usec) one_without_frequency = Ok st /\
    avg_cpu st = Finite 1 /\
    Spec.mean_of_reported one_without_frequency = Finite 2000.
Proof. eexists. split; [vm_compute; reflexivity|]. split; vm_compute; reflexivity. Qed.

(** The sum and the two quotients are rounded: with the floats written 0.1
    and 0.2 the answer is the float written 0.00015000000000000001, which
    is not the rational 3/20000. *)
Example avg_cpu_is_rounded :
  round64 (1 # 10) = Finite tenth /\ round64 (2 # 10) = Finite fifth /\
  exists st,
    run (t_1000 + 120 * usec) (t_1000 + 120 * usec) slow_clocks = Ok st /\
    avg_cpu st = Finite (2767011611056433 # 18446744073709551616) /\
    round64 (15000000000000001 # 100000000000000000000)
      = Finite (2767011611056433 # 18446744073709551616) /\
    round64 (3 # 20000) <> avg_cpu st.
Proof.
  split; [vm_compute; reflexivity|]. split; [vm_compute; reflexivity|].
  eexists. split; [vm_compute; reflexivity|].
  split; [vm_compute; reflexivity|]. split; [vm_compute; reflexivity|].
  vm_compute. discriminate.
Qed.

(** A record with a null frequency, as the agent sends where
    [psutil.cpu_freq()] gives nothing, makes the endpoint raise. *)
Example null_frequency_raises :
  run t_1000 t_1000
      [record "10.0.0.9" (Val "vm-1")
              {| count := Val 2; frequency := Null; model := Val "x86_64" |}
              linux [] "2024-05-01T10:00:00" (Val "2024-05-01T10:00:00")]
    = Raise AttributeError.
Proof. reflexivity. Qed.

Lemma avg_cpu_mean_with_zeros_witness :
  Forall Spec.no_null_frequency one_without_frequency /\
  forall st,
    one_without_frequency <> [] ->
    run (t_1000 + 120 * usec) (t_1000 + 120 * usec) one_without_frequency = Ok st ->
    avg_cpu st = float_div (Spec.mean_with_zeros one_without_frequency) 1000.
Proof.
  assert (Forall Spec.no_null_frequency one_without_frequency) as Hdata.
  { repeat constructor. discriminate. }
  split; [exact Hdata|].
  apply (avg_cpu_mean_with_zeros fromisoformat isoformat
           (t_1000 + 120 * usec) (t_1000 + 120 * usec)
           one_without_frequency Hdata).
Defined.

Example staleness_of_last_listed_in_order :
  last in_order = Some moved_second /\
  received_at moved_second = Val "2024-05-01T10:01:00" /\
  fromisoformat "2024-05-01T10:01:00" = Some (t_1000 + 60 * usec) /\
  staleness_alerts fromisoformat (t_1000 + 181 * usec) in_order
    = Ok [stale_alert 2].
Proof.
  do 3 (split; [reflexivity|]).
  apply (staleness_of_last_listed fromisoformat isoformat
           (t_1000 + 181 * usec) (t_1000 + 181 * usec) in_order moved_second
           "2024-05-01T10:01:00" (t_1000 + 60 * usec)); reflexivity.
Qed.

(** C3: the most recent record of this store was received 10 seconds before
    now, and the answer carries the alert on old data, with 2 minutes,
    because the record listed last was received 130 seconds before now. *)
Theorem staleness_reads_last_listed :
  let now := t_1000 + 130 * usec in
  Spec.latest_receipt fromisoformat listed_backwards = Some (now - 10 * usec) /\
  staleness_alerts fromisoformat now listed_backwards = Ok [stale_alert 2] /\
  exists st, run now now listed_backwards = Ok st /\
    filter Spec.is_staleness (alerts st) = [stale_alert 2].
Proof.
  split; [reflexivity|]. split; [reflexivity|].
  eexists. split; [vm_compute; reflexivity|]. reflexivity.
Qed.

Example stale_message : message (stale_alert 2) = "No se han recibido datos en 2 minuto(s)".
Proof. reflexivity. Qed.

Lemma process_alerts_by_band_witness :
  row_cpu_percent <$> all_processes boundaries = Some <$> boundary_cpus /\
  process_alerts (all_processes boundaries)
    = Ok [ {| alert_type := "danger"; icon := "🔴";
              message := "⚠️ 1 proceso(s) con CPU crítico (>80%)" |};
           {| alert_type := "warning"; icon := "🟡";
              message := "⚠️ 2 proceso(s) con CPU elevado (50-80%)" |} ].
Proof.
  split; [reflexivity|].
  apply (process_alerts_by_band fromisoformat isoformat
           (all_processes boundaries) boundary_cpus).
  reflexivity.
Defined.

(** C5: of two recent processes one is at 95% and the other has a null CPU
    reading.  The process at 95% is in the critical band, and alone it
    gives the critical alert counting 1; with the other process in the
    store the endpoint raises [TypeError] and gives no alert at all. *)
Theorem null_percent_suppresses_alerts :
  let now := t_1000 + 60 * usec in
  row_cpu_percent <$> all_processes denied_reading = [Some 95%Q; None] /\
  Spec.band_of 95 = Spec.Critical /\
  run now now denied_reading = Raise TypeError /\
  exists st, run now now granted_reading = Ok st /\
    alerts st = [ {| alert_type := "danger"; icon := "🔴";
                     message := "⚠️ 1 proceso(s) con CPU crítico (>80%)" |} ].
Proof.
  split; [reflexivity|]. split; [reflexivity|]. split; [reflexivity|].
  eexists. split; [vm_compute; reflexivity|]. reflexivity.
Qed.

Lemma undated_record_is_active_witness :
  undated ∈ with_undated /\
  agent_id undated = Val "db-1" /\ "db-1" <> EmptyString /\
  get (received_at undated) (Some (timestamp undated)) = Some "yesterday" /\
  fromisoformat "yesterday" = None /\
  "db-1" ∈ recent_agents fromisoformat (t_1000 + 86400 * usec) with_undated.
Proof.
  assert (undated ∈ with_undated) as Hin by (by left).
  assert ("db-1" <> EmptyString) as Hne by discriminate.
  split; [exact Hin|]. split; [reflexivity|]. split; [exact Hne|].
  do 2 (split; [reflexivity|]).
  apply (undated_record_is_active fromisoformat isoformat
           (t_1000 + 86400 * usec) with_undated undated "db-1" "yesterday"
           Hin eq_refl Hne eq_refl eq_refl).
Defined.

End Runs.

(** ** More on the agent *)

Section MoreAgentFacts.
Import Agent Cycle.

(** *** Transport *)

Lemma send_loop_failures accepts post retries backoff j : forall a rest tr,
  0 <= backoff ->
  (forall i, (a <= i < a + j)%nat -> is_200 (post (Z.of_nat i)) = false) ->
  (forall i, (a <= i < a + j)%nat -> backoff * 2 ^ Z.of_nat i <= sleep_sure) ->
  Z.of_nat (a + j) <= retries - 1 ->
  send_loop accepts post retries backoff ((Z.of_nat <$> seq a j) ++ rest) tr =
  send_loop accepts post retries backoff rest
    (tr ++ (i ← seq a j; [Post; Sleep (backoff * 2 ^ Z.of_nat i)])).
Proof.
  induction j as [|j IH]; intros a rest tr Hb Hfail Hfit Hlast.
  - simpl. by rewrite app_nil_r.
  - cbn [seq fmap list_fmap app send_loop].
    rewrite (Hfail a) by lia.
    destruct (Z.ltb_spec (Z.of_nat a) (retries - 1)) as [_|?]; [|lia].
    rewrite time_sleep_sure.
    2:{ split; [|apply Hfit; lia].
        apply Z.mul_nonneg_nonneg; [done|]. apply Z.pow_nonneg. lia. }
    change (list_fmap nat Z Z.of_nat (seq (S a) j)) with (Z.of_nat <$> seq (S a) j).
    rewrite IH; [|done| | |lia].
    + cbn [mbind list_bind]. cbn [app]. by rewrite <-!app_assoc.
    + intros i Hi. apply Hfail. lia.
    + intros i Hi. apply Hfit. lia.
Qed.

Lemma backoff_trace_facts backoff k :
  attempts_made (Expect.backoff_trace backoff k) = S k /\
  sleeps (Expect.backoff_trace backoff k) = Expect.waits backoff k /\
  total_sleep (Expect.backoff_trace backoff k) = backoff * (2 ^ Z.of_nat k - 1) /\
  last (Expect.backoff_trace backoff k) = Some Post.
Proof.
  unfold Expect.backoff_trace, Expect.waits. split; [|split; [|split]].
  - generalize 0%nat. induction k as [|k IH]; intros a; [done|].
    cbn [seq mbind list_bind app]. unfold attempts_made in *.
    rewrite filter_cons_True by done. rewrite filter_cons_False by done.
    simpl. f_equal. apply IH.
  - generalize 0%nat. induction k as [|k IH]; intros a; [done|].
    cbn [seq mbind list_bind app fmap list_fmap]. unfold sleeps in *.
    cbn [omap list_omap]. f_equal. apply IH.
  - assert (forall a, total_sleep
              ((i ← seq a k; [Post; Sleep (backoff * 2 ^ Z.of_nat i)]) ++ [Post])
            = backoff * (2 ^ Z.of_nat (a + k) - 2 ^ Z.of_nat a)) as Hsum.
    { induction k as [|k IH]; intros a.
      - unfold total_sleep. simpl. rewrite Nat.add_0_r. lia.
      - cbn [seq mbind list_bind app]. unfold total_sleep in *.
        cbn [fmap list_fmap foldr sleep_secs]. rewrite IH.
        replace (S a + k)%nat with (a + S k)%nat by lia.
        replace (Z.of_nat (S a)) with (Z.succ (Z.of_nat a)) by lia.
        rewrite Z.pow_succ_r by lia. lia. }
    rewrite Hsum. simpl. lia.
  - by rewrite last_snoc.
Qed.

(** X1: When the first answer 200 comes at attempt [k], with [k] below
    [retries], a backoff that is not negative and waits of at most
    [sleep_sure] seconds, the transport makes [k + 1] requests, waits
    [backoff * 2^i] after the i-th failure and not after the success, and
    reports success. *)
Theorem send_to_api_first_success accepts post retries backoff k :
  0 <= backoff -> 0 <= k < retries ->
  (forall i, 0 <= i < k -> backoff * 2 ^ i <= sleep_sure) ->
  (forall i, 0 <= i < k -> is_200 (post i) = false) ->
  is_200 (post k) = true ->
  send_to_api accepts post retries backoff
    = (Expect.backoff_trace backoff (Z.to_nat k), Ok true) /\
  attempts_made (send_to_api accepts post retries backoff).1 = S (Z.to_nat k) /\
  sleeps (send_to_api accepts post retries backoff).1
    = Expect.waits backoff (Z.to_nat k) /\
  total_sleep (send_to_api accepts post retries backoff).1 = backoff * (2 ^ k - 1) /\
  last (send_to_api accepts post retries backoff).1 = Some Post.
Proof.
  intros Hb Hk Hfit Hfail Hok.
  assert (send_to_api accepts post retries backoff
          = (Expect.backoff_trace backoff (Z.to_nat k), Ok true)) as Hrun.
  { unfold send_to_api, range.
    replace (Z.to_nat retries) with (Z.to_nat k + S (Z.to_nat (retries - k - 1)))%nat
      by lia.
    rewrite seq_app, fmap_app. rewrite send_loop_failures; [|done| | |lia].
    - cbn [seq fmap list_fmap send_loop]. rewrite Nat.add_0_l, Z2Nat.id by lia.
      by rewrite Hok.
    - intros i Hi. apply Hfail. lia.
    - intros i Hi. apply Hfit. lia. }
  rewrite Hrun. cbn [fst].
  destruct (backoff_trace_facts backoff (Z.to_nat k)) as (-> & -> & -> & ->).
  rewrite Z2Nat.id by lia. done.
Qed.

Lemma send_to_api_first_success_witness :
  0 <= 2 /\ 0 <= 2 < 3 /\
  (forall i, 0 <= i < 2 -> 2 * 2 ^ i <= sleep_sure) /\
  (forall i, 0 <= i < 2 -> is_200 (MoreSamples.third_try i) = false) /\
  is_200 (MoreSamples.third_try 2) = true /\
  send_to_api Samples.hour_after_boot MoreSamples.third_try 3 2
    = ([Post; Sleep 2; Post; Sleep 4; Post], Ok true).
Proof.
  assert (forall i, 0 <= i < 2 -> 2 * 2 ^ i <= sleep_sure) as Hfit.
  { intros i Hi. assert (i = 0 \/ i = 1) as [->| ->] by lia; done. }
  assert (forall i, 0 <= i < 2 -> is_200 (MoreSamples.third_try i) = false) as Hfail.
  { intros i Hi. unfold MoreSamples.third_try.
    destruct (Z.eqb_spec i 2); [lia|done]. }
  split; [lia|]. split; [lia|]. split; [exact Hfit|]. split; [exact Hfail|].
  split; [reflexivity|].
  apply (send_to_api_first_success Samples.hour_after_boot MoreSamples.third_try 3 2 2);
    [lia|lia|exact Hfit|exact Hfail|reflexivity].
Defined.

(** X2: When no attempt gets 200, with a backoff that is not negative and
    waits of at most [sleep_sure] seconds, the transport makes exactly
    [retries] requests, waits [backoff * 2^i] after each but the last, and
    reports failure; with [retries] at most 0 it does not post at all. *)
Theorem send_to_api_all_failures accepts post retries backoff :
  0 <= backoff ->
  (forall i, 0 <= i < retries - 1 -> backoff * 2 ^ i <= sleep_sure) ->
  (forall i, 0 <= i < retries -> is_200 (post i) = false) ->
  (send_to_api accepts post retries backoff).2 = Ok false /\
  attempts_made (send_to_api accepts post retries backoff).1 = Z.to_nat retries /\
  sleeps (send_to_api accepts post retries backoff).1
    = Expect.waits backoff (Z.to_nat (retries - 1)) /\
  total_sleep (send_to_api accepts post retries backoff).1
    = (if retries <=? 0 then 0 else backoff * (2 ^ (retries - 1) - 1)).
Proof.
  intros Hb Hfit Hfail. destruct (Z.leb_spec retries 0) as [Hle|Hpos].
  - unfold send_to_api, range. replace (Z.to_nat retries) with 0%nat by lia.
    replace (Z.to_nat (retries - 1)) with 0%nat by lia. done.
  - assert (send_to_api accepts post retries backoff
            = (Expect.backoff_trace backoff (Z.to_nat (retries - 1)), Ok false))
      as Hrun.
    { unfold send_to_api, range.
      replace (Z.to_nat retries) with (Z.to_nat (retries - 1) + 1)%nat by lia.
      rewrite seq_app, fmap_app. rewrite send_loop_failures; [|done| | |lia].
      - cbn [seq fmap list_fmap send_loop]. rewrite Nat.add_0_l, Z2Nat.id by lia.
        rewrite Hfail by lia.
        destruct (Z.ltb_spec (retries - 1) (retries - 1)) as [?|_]; [lia|done].
      - intros i Hi. apply Hfail. lia.
      - intros i Hi. apply Hfit. lia. }
    rewrite Hrun. cbn [fst snd].
    destruct (backoff_trace_facts backoff (Z.to_nat (retries - 1)))
      as (-> & -> & -> & _).
    rewrite Z2Nat.id by lia. split; [done|]. split; [lia|done].
Qed.

Lemma send_to_api_all_failures_witness :
  0 <= 5 /\
  (forall i, 0 <= i < 4 - 1 -> 5 * 2 ^ i <= sleep_sure) /\
  (forall i, 0 <= i < 4 -> is_200 (Samples.always_unavailable i) = false) /\
  attempts_made (send_to_api Samples.hour_after_boot Samples.always_unavailable 4 5).1
    = 4%nat /\
  sleeps (send_to_api Samples.hour_after_boot Samples.always_unavailable 4 5).1
    = [5; 10; 20].
Proof.
  assert (forall i, 0 <= i < 4 - 1 -> 5 * 2 ^ i <= sleep_sure) as Hfit.
  { intros i Hi. assert (i = 0 \/ i = 1 \/ i = 2) as [->|[->| ->]] by lia; done. }
  split; [lia|]. split; [exact Hfit|]. split; [done|].
  split;
    apply (send_to_api_all_failures Samples.hour_after_boot
             Samples.always_unavailable 4 5); [lia|exact Hfit|done|lia|exact Hfit|done].
Defined.

(** X3: With at least two attempts allowed and a backoff that is negative
    or beyond [sleep_max], a first attempt that fails is followed by
    [time.sleep] raising out of the function: [ValueError] for a negative
    backoff down to [- sleep_max], [OverflowError] beyond [sleep_max] in
    either direction.  One request is made and no result is returned. *)
Theorem send_to_api_negative_backoff accepts post retries backoff :
  backoff < 0 \/ sleep_max < backoff -> 2 <= retries -> is_200 (post 0) = false ->
  send_to_api accepts post retries backoff
    = ([Post],
       Raise (if (- sleep_max <=? backoff) && (backoff <? 0)
              then ValueError else OverflowError)).
Proof.
  intros Hb Hr Hfail. unfold send_to_api, range.
  replace (Z.to_nat retries) with (S (Z.to_nat (retries - 1))) by lia.
  cbn [seq fmap list_fmap send_loop]. change (Z.of_nat 0) with 0. rewrite Hfail.
  destruct (Z.ltb_spec 0 (retries - 1)) as [_|?]; [|lia].
  change (2 ^ 0) with 1. rewrite Z.mul_1_r. unfold time_sleep.
  destruct (Z.ltb_spec backoff (- sleep_max)), (Z.ltb_spec sleep_max backoff),
    (Z.leb_spec (- sleep_max) backoff), (Z.ltb_spec backoff 0);
    cbn [orb andb]; try done; lia.
Qed.

Lemma send_to_api_negative_backoff_witness :
  (-1 < 0 \/ sleep_max < -1) /\ 2 <= 3 /\
  is_200 (Samples.always_unavailable 0) = false /\
  send_to_api Samples.hour_after_boot Samples.always_unavailable 3 (-1)
    = ([Post], Raise ValueError) /\
  send_to_api Samples.hour_after_boot Samples.always_unavailable 3 (10 ^ 10)
    = ([Post], Raise OverflowError) /\
  send_to_api Samples.hour_after_boot Samples.always_unavailable 3 (- 10 ^ 10)
    = ([Post], Raise OverflowError).
Proof.
  split; [left; lia|]. split; [lia|]. split; [reflexivity|].
  split; [|split].
  - apply (send_to_api_negative_backoff Samples.hour_after_boot
             Samples.always_unavailable 3 (-1)); [left; lia|lia|reflexivity].
  - apply (send_to_api_negative_backoff Samples.hour_after_boot
             Samples.always_unavailable 3 (10 ^ 10));
      [right; unfold sleep_max; lia|lia|reflexivity].
  - apply (send_to_api_negative_backoff Samples.hour_after_boot
             Samples.always_unavailable 3 (- 10 ^ 10)); [left; lia|lia|reflexivity].
Defined.

(** *** Address of the host *)

Lemma scan_addrs_Some addr_list ip :
  scan_addrs addr_list = Some ip ->
  exists addr, addr ∈ addr_list /\ addr_family addr = AF_INET /\
    address addr = ip /\ startswith ["127."; "169.254."] ip = false.
Proof.
  induction addr_list as [|addr rest IH]; cbn [scan_addrs]; [done|].
  intros Hscan. case_decide as Hfam.
  - destruct (startswith _ (address addr)) eqn:Hsw; cbn [negb] in Hscan.
    + destruct (IH Hscan) as (addr' & ? & ?). exists addr'. split; [by right|done].
    + injection Hscan as <-. exists addr. split; [by left|done].
  - destruct (IH Hscan) as (addr' & ? & ?). exists addr'. split; [by right|done].
Qed.

Lemma scan_addrs_None addr_list addr :
  scan_addrs addr_list = None -> addr ∈ addr_list ->
  addr_family addr = AF_INET ->
  startswith ["127."; "169.254."] (address addr) = true.
Proof.
  induction addr_list as [|addr' rest IH]; cbn [scan_addrs]; [by inversion 2|].
  intros Hscan Hin Hfam. apply elem_of_cons in Hin as [<-|Hin].
  - rewrite decide_True in Hscan by done.
    by destruct (startswith _ (address addr)).
  - apply IH; [|done..]. case_decide; [|done].
    by destruct (startswith _ (address addr')).
Qed.

Lemma scan_interfaces_Some addrs ip :
  scan_interfaces addrs = Some ip -> Expect.usable addrs ip.
Proof.
  induction addrs as [|[interface addr_list] rest IH]; cbn [scan_interfaces]; [done|].
  destruct (startswith _ interface) eqn:Hskip.
  - intros (i & al & a & Hin & ?)%IH. exists i, al, a. split; [by right|done].
  - destruct (scan_addrs addr_list) as [ip'|] eqn:Hscan.
    + intros [= ->]. apply scan_addrs_Some in Hscan as (addr & ? & ? & ? & ?).
      exists interface, addr_list, addr. split; [by left|done].
    + intros (i & al & a & Hin & ?)%IH. exists i, al, a. split; [by right|done].
Qed.

Lemma scan_interfaces_None addrs ip :
  scan_interfaces addrs = None -> ~ Expect.usable addrs ip.
Proof.
  induction addrs as [|[interface addr_list] rest IH]; cbn [scan_interfaces].
  - intros _ (i & al & a & Hin & _). by inversion Hin.
  - intros Hscan (i & al & a & Hin & Hskip & Ha & Hfam & Hip & Hok).
    apply elem_of_cons in Hin as [[= <- <-]|Hin].
    + rewrite Hskip in Hscan.
      destruct (scan_addrs al) eqn:Hal; [done|].
      pose proof (scan_addrs_None al a Hal Ha Hfam) as Hrej. congruence.
    + assert (scan_interfaces rest = None) as Hrest.
      { destruct (startswith _ interface); [done|].
        by destruct (scan_addrs addr_list). }
      apply (IH Hrest). by exists i, al, a.
Qed.

(** X4: When the first strategy raises, the scan of the interfaces decides: if
    some interface that is not loopback, docker, bridge or veth has an IPv4
    address outside 127.* and 169.254.*, the result is such an address;
    if there is none, the result is the address of the host name unless it
    starts with 127., and 127.0.0.1 otherwise. *)
Theorem get_real_ip_interface_scan h addrs :
  udp_sockname h = None ->
  net_if_addrs h = Some addrs ->
  ((exists ip, Expect.usable addrs ip) -> Expect.usable addrs (get_real_ip h)) /\
  ((forall ip, ~ Expect.usable addrs ip) ->
   get_real_ip h = default "127.0.0.1" (method3 h) /\
   forall ip, hostbyname h = Some ip ->
     get_real_ip h = if startswith ["127."] ip then "127.0.0.1" else ip).
Proof.
  intros Hudp Haddrs. unfold get_real_ip, method2. rewrite Hudp, Haddrs.
  cbn [mbind option_bind]. destruct (scan_interfaces addrs) as [ip|] eqn:Hscan.
  - split; [intros _; by apply scan_interfaces_Some|].
    intros Hnone. destruct (Hnone ip). by apply scan_interfaces_Some.
  - split.
    + intros [ip Hip]. by destruct (scan_interfaces_None addrs ip).
    + intros _. split; [by destruct (method3 h)|].
      intros ip Hip. unfold method3. rewrite Hip. cbn [mbind option_bind].
      by destruct (startswith ["127."] ip).
Qed.

Lemma get_real_ip_interface_scan_witness :
  udp_sockname MoreSamples.offline_laptop = None /\
  get_real_ip MoreSamples.offline_laptop = "192.168.0.23" /\
  exists addrs, net_if_addrs MoreSamples.offline_laptop = Some addrs /\
    Expect.usable addrs (get_real_ip MoreSamples.offline_laptop).
Proof.
  split; [reflexivity|]. split; [reflexivity|]. eexists. split; [reflexivity|].
  apply (get_real_ip_interface_scan MoreSamples.offline_laptop _ eq_refl eq_refl).
  exists "192.168.0.23", "wlan0",
    [{| addr_family := AF_INET6; address := "fe80::1" |};
     {| addr_family := AF_INET; address := "169.254.7.7" |};
     {| addr_family := AF_INET; address := "192.168.0.23" |}],
    {| addr_family := AF_INET; address := "192.168.0.23" |}.
  split; [do 2 right; by left|]. split; [reflexivity|].
  split; [do 2 right; by left|]. by repeat split.
Defined.

(** *** Process list *)

Lemma reads_zero_true c :
  reads_zero c = true -> exists z, c = Some z /\ (z == 0)%Q.
Proof.
  destruct c as [z|]; [|done]. intros Hz%Qeq_bool_iff. by exists z.
Qed.

Lemma reads_zero_false c z : reads_zero c = false -> c = Some z -> ~ (z == 0)%Q.
Proof.
  intros Hz -> Heq%Qeq_bool_iff. unfold reads_zero, Qeqb in Hz. congruence.
Qed.

Lemma sample_reading procs process_list p :
  sample procs = Ok process_list -> p ∈ process_list ->
  exists proc, proc ∈ procs /\ Expect.reading_of proc p.
Proof.
  revert process_list. induction procs as [|proc rest IH]; intros process_list.
  - intros [= <-] Hp. by inversion Hp.
  - cbn [sample]. destruct (reads_zero _) eqn:Hzero.
    + destruct (cpu_percent_interval proc) as [c|e] eqn:Hagain.
      * intros (l & Hl & ->)%fmap_Ok [->|Hp]%elem_of_cons.
        -- exists proc. split; [by left|]. do 4 (split; [done|]). left.
           destruct (reads_zero_true _ Hzero) as (z & Hz & Hz0). by exists z, c.
        -- destruct (IH l Hl Hp) as (proc' & ? & ?). exists proc'. split; [by right|done].
      * destruct (skipped e); [|done]. intros Hl Hp.
        destruct (IH _ Hl Hp) as (proc' & ? & ?). exists proc'. split; [by right|done].
    + intros (l & Hl & ->)%fmap_Ok [->|Hp]%elem_of_cons.
      * exists proc. split; [by left|]. do 4 (split; [done|]). right.
        split; [|done]. intros z. by apply reads_zero_false.
      * destruct (IH l Hl Hp) as (proc' & ? & ?). exists proc'. split; [by right|done].
Qed.

(** What [collect_processes] is when nothing aborts it *)
Lemma collect_processes_Ok t readings procs process_list ordered :
  first_pass t = Ok readings -> initialise readings = Ok () ->
  second_pass t = Ok procs -> sample procs = Ok process_list ->
  sorted_by_cpu process_list = Ok ordered ->
  collect_processes t = take 10 ordered.
Proof.
  intros H1 H2 H3 H4 H5. unfold collect_processes.
  rewrite H1. cbn [mbind result_bind]. rewrite H2. cbn [mbind result_bind].
  rewrite H3. cbn [mbind result_bind]. rewrite H4. cbn [mbind result_bind].
  by rewrite H5.
Qed.

Lemma collect_processes_inv t p :
  p ∈ collect_processes t ->
  exists readings procs process_list ordered,
    first_pass t = Ok readings /\ initialise readings = Ok () /\
    second_pass t = Ok procs /\ sample procs = Ok process_list /\
    sorted_by_cpu process_list = Ok ordered /\
    collect_processes t = take 10 ordered.
Proof.
  unfold collect_processes.
  destruct (first_pass t) as [readings|]; cbn [mbind result_bind]; [|by inversion 1].
  destruct (initialise readings) as [[]|] eqn:?; cbn [mbind result_bind]; [|by inversion 1].
  destruct (second_pass t) as [procs|]; cbn [mbind result_bind]; [|by inversion 1].
  destruct (sample procs) as [process_list|] eqn:?; cbn [mbind result_bind]; [|by inversion 1].
  destruct (sorted_by_cpu process_list) as [ordered|] eqn:?; cbn [mbind result_bind];
    [|by inversion 1].
  intros _. by exists readings, procs, process_list, ordered.
Qed.

(** X6: Every entry of the process list is a process of the second pass: it
    has the pid and the name read there, and either all of its fields or,
    where the CPU reading was 0, the value of the second measurement. *)
Theorem collect_processes_provenance t p :
  p ∈ collect_processes t ->
  exists procs proc,
    second_pass t = Ok procs /\ proc ∈ procs /\ Expect.reading_of proc p.
Proof.
  intros Hp.
  destruct (collect_processes_inv t p Hp)
    as (readings & procs & process_list & ordered & _ & _ & Hprocs & Hsample & Hsort & Heq).
  rewrite Heq in Hp. apply elem_of_take in Hp as (i & Hp & _).
  apply list_elem_of_lookup_2 in Hp.
  unfold sorted_by_cpu in Hsort. destruct (_ && _); [done|]. injection Hsort as <-.
  apply sorted_by_elem_of in Hp.
  destruct (sample_reading procs process_list p Hsample Hp) as (proc & ? & ?).
  by exists procs, proc.
Qed.

Lemma collect_processes_provenance_witness :
  exists p, p ∈ collect_processes MoreSamples.busy_table /\
    exists procs proc,
      second_pass MoreSamples.busy_table = Ok procs /\ proc ∈ procs /\
      Expect.reading_of proc p.
Proof.
  eexists. split; [by left|].
  apply (collect_processes_provenance MoreSamples.busy_table). by left.
Defined.

Section SortedByMore.
Context {A : Type} (le : A -> A -> bool).

Lemma insert_by_Permutation x l : insert_by le x l ≡ₚ x :: l.
Proof.
  induction l as [|y l IH]; simpl; [done|].
  destruct (le x y); [done|]. rewrite IH. apply Permutation_swap.
Qed.

Lemma sorted_by_Permutation l : sorted_by le l ≡ₚ l.
Proof.
  induction l as [|x l IH]; simpl; [done|].
  by rewrite insert_by_Permutation, IH.
Qed.
End SortedByMore.

Lemma cpu_geb_trans x y z :
  cpu_geb x y = true -> cpu_geb y z = true -> cpu_geb x z = true.
Proof.
  unfold cpu_geb, Qleb. rewrite !Qle_bool_iff. intros Hxy Hyz.
  by apply Qle_trans with (default 0%Q (cpu_percent y)).
Qed.

(** X7: When nothing aborts the collection and every process has a CPU
    reading, the list is the best ten of the processes sampled: together
    with the processes left out it is a rearrangement of them, and no
    process left out has a higher CPU percentage than one that is kept. *)
Theorem collect_processes_keeps_the_highest t readings procs process_list :
  first_pass t = Ok readings -> initialise readings = Ok () ->
  second_pass t = Ok procs -> sample procs = Ok process_list ->
  Forall (fun p => cpu_percent p <> None) process_list ->
  exists rest,
    collect_processes t ++ rest ≡ₚ process_list /\
    length (collect_processes t) = (10 `min` length process_list)%nat /\
    forall x y, x ∈ collect_processes t -> y ∈ rest -> cpu_ge x y.
Proof.
  intros H1 H2 H3 H4 Hnum.
  assert (sorted_by_cpu process_list = Ok (sorted_by cpu_geb process_list)) as H5.
  { unfold sorted_by_cpu.
    destruct (existsb _ process_list) eqn:Hex; [|by rewrite andb_false_r].
    apply existsb_exists in Hex as (p & Hp%list_elem_of_In & Hnone).
    rewrite Forall_forall in Hnum. destruct (Hnum p Hp).
    by destruct (cpu_percent p). }
  rewrite (collect_processes_Ok t _ _ _ _ H1 H2 H3 H4 H5).
  exists (drop 10 (sorted_by cpu_geb process_list)). split; [|split].
  - by rewrite take_drop, sorted_by_Permutation.
  - by rewrite length_take, sorted_by_length.
  - intros x y Hx Hy.
    assert (StronglySorted (fun x y => cpu_geb x y = true)
              (take 10 (sorted_by cpu_geb process_list)
               ++ drop 10 (sorted_by cpu_geb process_list))) as Hsorted.
    { rewrite take_drop. apply Sorted_StronglySorted.
      - intros a b c. apply cpu_geb_trans.
      - apply sorted_by_Sorted, cpu_geb_total. }
    pose proof (StronglySorted_app_1_elem_of _ _ _ x y Hsorted Hx Hy) as Hge.
    assert (forall z, z ∈ sorted_by cpu_geb process_list -> cpu_percent z <> None)
      as Hsome.
    { intros z Hz%sorted_by_elem_of. rewrite Forall_forall in Hnum. by apply Hnum. }
    assert (x ∈ sorted_by cpu_geb process_list) as Hx'.
    { rewrite <-(take_drop 10 (sorted_by cpu_geb process_list)). set_solver. }
    assert (y ∈ sorted_by cpu_geb process_list) as Hy'.
    { rewrite <-(take_drop 10 (sorted_by cpu_geb process_list)). set_solver. }
    apply Hsome in Hx', Hy'. unfold cpu_ge. unfold cpu_geb, Qleb in Hge.
    destruct (cpu_percent x), (cpu_percent y); try done.
    by apply Qle_bool_iff.
Qed.

Lemma collect_processes_keeps_the_highest_witness :
  first_pass MoreSamples.busy_table = Ok [Ok 0%Q; Raise AccessDenied; Ok 0%Q] /\
  exists rest,
    collect_processes MoreSamples.busy_table ++ rest
      ≡ₚ [with_cpu_percent (info (MoreSamples.reading 1 "init" (Some 0%Q) (Ok 0.5%Q))) 0.5;
          info (MoreSamples.reading 9 "java" (Some 42%Q) (Ok 40%Q))] /\
    length (collect_processes MoreSamples.busy_table) = 2%nat /\
    forall x y, x ∈ collect_processes MoreSamples.busy_table -> y ∈ rest -> cpu_ge x y.
Proof.
  split; [reflexivity|].
  apply (collect_processes_keeps_the_highest MoreSamples.busy_table
           [Ok 0%Q; Raise AccessDenied; Ok 0%Q]
           [MoreSamples.reading 1 "init" (Some 0%Q) (Ok 0.5%Q);
            MoreSamples.reading 7 "gone" (Some 0%Q) (Raise NoSuchProcess);
            MoreSamples.reading 9 "java" (Some 42%Q) (Ok 40%Q)]);
    try reflexivity.
  repeat constructor; discriminate.
Defined.

Lemma sample_skips l1 proc l2 e :
  reads_zero (cpu_percent (info proc)) = true ->
  cpu_percent_interval proc = Raise e -> skipped e = true ->
  sample (l1 ++ proc :: l2) = sample (l1 ++ l2).
Proof.
  intros Hzero Hagain Hskip. induction l1 as [|proc' l1 IH]; cbn [app sample].
  - by rewrite Hzero, Hagain, Hskip.
  - by rewrite IH.
Qed.

(** X8: A process that disappears, or whose CPU may not be read, between the
    enumeration and its second measurement is left out, and the list is
    what it would be without that process. *)
Theorem collect_processes_skips_vanished t l1 proc l2 e :
  second_pass t = Ok (l1 ++ proc :: l2) ->
  reads_zero (cpu_percent (info proc)) = true ->
  cpu_percent_interval proc = Raise e -> skipped e = true ->
  collect_processes t =
  collect_processes {| first_pass := first_pass t; second_pass := Ok (l1 ++ l2) |}.
Proof.
  intros Hprocs Hzero Hagain Hskip. unfold collect_processes. cbn [first_pass second_pass].
  rewrite Hprocs. destruct (first_pass t) as [readings|]; cbn [mbind result_bind]; [|done].
  destruct (initialise readings); cbn [mbind result_bind]; [|done].
  by rewrite (sample_skips l1 proc l2 e).
Qed.

Lemma collect_processes_skips_vanished_witness :
  second_pass MoreSamples.busy_table
    = Ok ([MoreSamples.reading 1 "init" (Some 0%Q) (Ok 0.5%Q)]
          ++ MoreSamples.reading 7 "gone" (Some 0%Q) (Raise NoSuchProcess)
          :: [MoreSamples.reading 9 "java" (Some 42%Q) (Ok 40%Q)]) /\
  collect_processes MoreSamples.busy_table =
  collect_processes
    {| first_pass := first_pass MoreSamples.busy_table;
       second_pass := Ok ([MoreSamples.reading 1 "init" (Some 0%Q) (Ok 0.5%Q)]
                          ++ [MoreSamples.reading 9 "java" (Some 42%Q) (Ok 40%Q)]) |}.
Proof.
  split; [reflexivity|].
  apply (collect_processes_skips_vanished MoreSamples.busy_table
           [MoreSamples.reading 1 "init" (Some 0%Q) (Ok 0.5%Q)]
           (MoreSamples.reading 7 "gone" (Some 0%Q) (Raise NoSuchProcess))
           [MoreSamples.reading 9 "java" (Some 42%Q) (Ok 40%Q)] NoSuchProcess);
    reflexivity.
Defined.

Lemma initialise_Raise readings e :
  Raise e ∈ readings -> skipped e = false -> exists e', initialise readings = Raise e'.
Proof.
  intros Hin Hskip. induction readings as [|r readings IH]; [by inversion Hin|].
  cbn [initialise]. apply elem_of_cons in Hin as [<-|Hin].
  - rewrite Hskip. by eexists.
  - destruct r as [q|e0]; [by apply IH|].
    destruct (skipped e0); [by apply IH|by eexists].
Qed.

Lemma sample_Raise procs proc e :
  proc ∈ procs -> reads_zero (cpu_percent (info proc)) = true ->
  cpu_percent_interval proc = Raise e -> skipped e = false ->
  exists e', sample procs = Raise e'.
Proof.
  intros Hin Hzero Hagain Hskip.
  induction procs as [|proc' procs IH]; [by inversion Hin|].
  cbn [sample]. apply elem_of_cons in Hin as [<-|Hin].
  - rewrite Hzero, Hagain, Hskip. by eexists.
  - destruct (IH Hin) as [e' ->].
    destruct (reads_zero (cpu_percent (info proc'))); [|by eexists].
    destruct (cpu_percent_interval proc') as [c|e0]; [by eexists|].
    destruct (skipped e0); by eexists.
Qed.

(** X9: Any other exception during either pass, and a missing CPU reading among
    two or more processes, which makes the sort raise, lose the whole list:
    the snapshot then has no processes at all. *)
Theorem collect_processes_all_or_nothing t :
  Expect.aborted t -> collect_processes t = [].
Proof.
  unfold collect_processes.
  intros [(readings & e & -> & Hin & Hskip)
         |[(procs & proc & e & Hprocs & Hin & Hzero & Hagain & Hskip)
          |(procs & process_list & p & Hprocs & Hsample & Hlen & Hin & Hnone)]].
  - cbn [mbind result_bind].
    by destruct (initialise_Raise readings e Hin Hskip) as [e' ->].
  - destruct (first_pass t) as [readings|]; cbn [mbind result_bind]; [|done].
    destruct (initialise readings); cbn [mbind result_bind]; [|done].
    rewrite Hprocs. cbn [mbind result_bind].
    by destruct (sample_Raise procs proc e Hin Hzero Hagain Hskip) as [e' ->].
  - destruct (first_pass t) as [readings|]; cbn [mbind result_bind]; [|done].
    destruct (initialise readings); cbn [mbind result_bind]; [|done].
    rewrite Hprocs. cbn [mbind result_bind]. rewrite Hsample. cbn [mbind result_bind].
    unfold sorted_by_cpu. rewrite bool_decide_eq_true_2 by done.
    replace (existsb _ process_list) with true; [done|].
    symmetry. apply existsb_exists. exists p. rewrite <-list_elem_of_In.
    by rewrite Hnone.
Qed.

Lemma collect_processes_all_or_nothing_witness :
  Expect.aborted MoreSamples.broken_table /\
  collect_processes MoreSamples.broken_table = [].
Proof.
  assert (Expect.aborted MoreSamples.broken_table) as Habort.
  { right. left. eexists _, (MoreSamples.reading 7 "odd" (Some 0%Q) (Raise OtherError)), _.
    split; [reflexivity|]. split; [right; by left|]. by repeat split. }
  split; [exact Habort|].
  apply (collect_processes_all_or_nothing MoreSamples.broken_table Habort).
Defined.

(** *** Users and the cycle *)

Lemma send_to_api_success_trace accepts post :
  (send_to_api accepts post 3 2).2 = Ok true ->
  exists k, (send_to_api accepts post 3 2).1 = Expect.backoff_trace 2 k.
Proof.
  unfold send_to_api. change (range 3) with [0; 1; 2]. cbn [send_loop].
  destruct (is_200 (post 0)); [by exists 0%nat|].
  change (0 <? 3 - 1) with true. change (time_sleep accepts (2 * 2 ^ 0)) with (Ok ()).
  cbv iota.
  destruct (is_200 (post 1)); [by exists 1%nat|].
  change (1 <? 3 - 1) with true. change (time_sleep accepts (2 * 2 ^ 1)) with (Ok ()).
  cbv iota.
  destruct (is_200 (post 2)); [by exists 2%nat|].
  change (2 <? 3 - 1) with false. by cbv iota.
Qed.


(** X10: The users of the snapshot are those that [psutil] reports, if any;
    otherwise the single session of the agent's own process, on the
    terminal "container" or "local" by the marker file; the list is empty
    only when there is no reported user and that process cannot be read. *)
Theorem collect_users_fallback s :
  (forall us, psutil_users s = Ok us -> us <> [] -> collect_users s = us) /\
  (forall u, (forall us, psutil_users s = Ok us -> us = []) ->
     own_session s = Ok u ->
     collect_users s = [u] /\
     user_terminal u = Some (if dockerenv s then "container" else "local")) /\
  (collect_users s = [] <->
   (forall us, psutil_users s = Ok us -> us = []) /\ exists e, own_session s = Raise e).
Proof.
  unfold collect_users. split; [|split].
  - intros us -> Hne. by destruct us.
  - intros u Hnone Hown. rewrite Hown.
    assert (match psutil_users s with Ok us => us | Raise _ => [] end = []) as ->.
    { destruct (psutil_users s) as [us|]; [by apply Hnone|done]. }
    split; [done|]. unfold own_session in Hown.
    apply bind_Ok in Hown as (n & _ & Hown). apply bind_Ok in Hown as (h & _ & Hown).
    apply bind_Ok in Hown as (c & _ & Hown). by injection Hown as <-.
  - destruct (psutil_users s) as [[|u0 us]|e0]; split.
    + destruct (own_session s) as [u|e]; [done|]. intros _. split; [by intros ? [= <-]|by eexists].
    + by intros [_ [e ->]].
    + done.
    + intros [Hnone _]. by specialize (Hnone _ eq_refl).
    + destruct (own_session s) as [u|e]; [done|]. intros _. split; [done|by eexists].
    + by intros [_ [e ->]].
Qed.

(** X11: On a host where [psutil.cpu_freq()] gives nothing, a cycle whose send
    succeeds ends in the error branch: the success line reads the frequency
    of [None], so the requests were made and the line printed is the one
    of a failed collection. *)
Theorem cycle_without_frequency agent_id m accepts post info :
  collect_system_info agent_id m = Ok info ->
  cpu_freq m = Ok None ->
  (send_to_api accepts post 3 2).2 = Ok true ->
  cycle agent_id m accepts post
    = ((send_to_api accepts post 3 2).1, CollectionError AttributeError) /\
  (1 <= attempts_made (cycle agent_id m accepts post).1)%nat.
Proof.
  intros Hinfo Hfreq Hsent.
  assert (snap_frequency info = None) as Hnone.
  { unfold collect_system_info in Hinfo.
    apply bind_Ok in Hinfo as (n & _ & Hinfo). rewrite Hfreq in Hinfo.
    cbn [mbind result_bind] in Hinfo.
    apply bind_Ok in Hinfo as (h & _ & Hinfo). by injection Hinfo as <-. }
  assert (cycle agent_id m accepts post
          = ((send_to_api accepts post 3 2).1, CollectionError AttributeError)) as Hrun.
  { unfold cycle. rewrite Hinfo. destruct (send_to_api accepts post 3 2) as [tr r].
    cbn [fst snd] in *. subst r. unfold printed_frequency. by rewrite Hnone. }
  split; [done|]. rewrite Hrun. cbn [fst].
  destruct (send_to_api_success_trace accepts post) as (k & ->); [done|].
  destruct (backoff_trace_facts 2 k) as (-> & _). lia.
Qed.

Lemma cycle_without_frequency_witness :
  cpu_freq MoreSamples.container = Ok None /\
  (send_to_api Samples.hour_after_boot Samples.second_try 3 2).2 = Ok true /\
  cycle "web-1" MoreSamples.container Samples.hour_after_boot Samples.second_try
    = ([Post; Sleep 2; Post], CollectionError AttributeError).
Proof.
  split; [reflexivity|]. split; [reflexivity|].
  eapply (cycle_without_frequency "web-1" MoreSamples.container
            Samples.hour_after_boot Samples.second_try);
    reflexivity.
Defined.

End MoreAgentFacts.

(** ** The files of the collector *)

Section StoreFacts.
Import Api Store.
Variable fromisoformat : string -> option Z.
Variable isoformat : Z -> string.

Lemma endswith_app a suffix : endswith suffix (a +:+ suffix) = true.
Proof.
  induction a as [|c a IH].
  - change (EmptyString +:+ suffix) with suffix.
    destruct suffix; cbn [endswith]; by rewrite String.eqb_refl.
  - change (String c a +:+ suffix) with (String c (a +:+ suffix)).
    cbn [endswith]. by rewrite IH, orb_true_r.
Qed.

Lemma endswith_app_l a suffix s :
  endswith suffix s = true -> endswith suffix (a +:+ s) = true.
Proof.
  intros Hs. induction a as [|c a IH]; [done|].
  change (String c a +:+ s) with (String c (a +:+ s)).
  cbn [endswith]. by rewrite IH, orb_true_r.
Qed.

Lemma prefix_app p s : String.prefix p (p +:+ s) = true.
Proof.
  induction p as [|c p IH].
  - change (EmptyString +:+ s) with s. by destruct s.
  - change (String c p +:+ s) with (String c (p +:+ s)). cbn [String.prefix].
    by destruct (Ascii.ascii_dec c c).
Qed.

Lemma filename_of_is_data_file ts : is_data_file (filename_of ts) = true.
Proof.
  unfold is_data_file, filename_of. apply andb_true_intro. split.
  - apply prefix_app.
  - apply endswith_app_l, endswith_app.
Qed.

Lemma get_all_data_app fs l1 l2 :
  get_all_data_from_json fs (l1 ++ l2)
    = get_all_data_from_json fs l1 ++ get_all_data_from_json fs l2.
Proof. unfold get_all_data_from_json. apply bind_app. Qed.

Lemma get_all_data_singleton fs f :
  get_all_data_from_json fs [f] = if is_data_file f then entries_of_file fs f else [].
Proof. unfold get_all_data_from_json. cbn [mbind list_bind]. apply app_nil_r. Qed.

Lemma get_all_data_agree fs fs' listing :
  (forall f, f ∈ listing -> fs' !! f = fs !! f) ->
  get_all_data_from_json fs' listing = get_all_data_from_json fs listing.
Proof.
  unfold get_all_data_from_json. induction listing as [|f listing IH]; intros Hsame;
    [done|].
  cbn [mbind list_bind]. f_equal.
  - unfold entries_of_file. rewrite Hsame; [done|by left].
  - apply IH. intros f' Hf'. apply Hsame. by right.
Qed.

Lemma save_to_json_Returned entry filename fs fs' :
  save_to_json entry filename fs = (fs', Returned ()) ->
  fs' = <[filename := Records (entries_of_file fs filename ++ [entry])]> fs /\
  fs !! filename <> Some Unreadable.
Proof.
  unfold save_to_json, entries_of_file.
  destruct (fs !! filename) as [[existing|]|]; intros [= <-]; by split.
Qed.

Lemma receive_info_Returned info received fs fs' filename listing :
  receive_info info received fs = (fs', Returned filename) ->
  NoDup listing -> filename ∈ listing ->
  filename = filename_of (info_timestamp info) /\
  is_data_file filename = true /\
  fs' !! filename
    = Some (Records (entries_of_file fs filename ++ [data_entry info received])) /\
  (forall f, f <> filename -> fs' !! f = fs !! f) /\
  get_all_data_from_json fs' listing
    ≡ₚ data_entry info received :: get_all_data_from_json fs listing.
Proof.
  unfold receive_info. intros Hrun Hnodup Hin.
  destruct (save_to_json _ _ fs) as [fs0 [[]|c]] eqn:Hsave; [|done].
  injection Hrun as <- <-.
  apply save_to_json_Returned in Hsave as [-> Hreadable].
  set (filename := filename_of (info_timestamp info)) in *.
  set (entry := data_entry info received) in *.
  split; [done|]. split; [apply filename_of_is_data_file|].
  split; [by rewrite lookup_insert_eq|].
  split; [by intros f Hf; rewrite lookup_insert_ne|].
  apply list_elem_of_split in Hin as (l1 & l2 & ->).
  apply NoDup_app in Hnodup as (_ & Hl1 & [Hl2 _]%NoDup_cons).
  rewrite !get_all_data_app.
  change (filename :: l2) with ([filename] ++ l2). rewrite !get_all_data_app.
  rewrite (get_all_data_agree fs _ l1), (get_all_data_agree fs _ l2).
  - assert (is_data_file filename = true) as Hdf by apply filename_of_is_data_file.
    rewrite !get_all_data_singleton, !Hdf.
    unfold entries_of_file at 1. rewrite lookup_insert_eq.
    rewrite (Permutation_app_comm (entries_of_file fs filename) [entry]).
    cbn [app]. symmetry. apply Permutation_middle.
  - intros f Hf. rewrite lookup_insert_ne; [done|]. by intros <-.
  - intros f Hf. rewrite lookup_insert_ne; [done|]. intros <-.
    apply (Hl1 filename Hf). by left.
Qed.

(** X12: A snapshot that [POST /send] accepts is appended to the file named
    after its timestamp, a name that the readers recognise; the other files
    stay as they are, and every listing of the directory that shows this
    file reads one record more: the records read before, and the new one
    with its receipt time. *)
Theorem receive_info_stores info received fs fs' filename listing :
  receive_info info received fs = (fs', Returned filename) ->
  NoDup listing -> filename ∈ listing ->
  filename = filename_of (info_timestamp info) /\
  is_data_file filename = true /\
  fs' !! filename
    = Some (Records (entries_of_file fs filename ++ [data_entry info received])) /\
  (forall f, f <> filename -> fs' !! f = fs !! f) /\
  get_all_data_from_json fs' listing
    ≡ₚ data_entry info received :: get_all_data_from_json fs listing.
Proof. apply receive_info_Returned. Qed.

Lemma receive_info_stores_witness :
  let info := MoreSamples.posted "10.0.0.7" (Some "web-7") "2024-05-01T10:01:00" in
  let run := receive_info info "2024-05-01T10:01:02" MoreSamples.directory in
  NoDup MoreSamples.listing /\
  "system_data_2024-05-01T10-01-00.json" ∈ MoreSamples.listing /\
  run.2 = Returned "system_data_2024-05-01T10-01-00.json" /\
  get_all_data_from_json run.1 MoreSamples.listing
    ≡ₚ data_entry info "2024-05-01T10:01:02"
       :: get_all_data_from_json MoreSamples.directory MoreSamples.listing.
Proof.
  intros info run.
  assert (NoDup MoreSamples.listing) as Hnodup.
  { apply (bool_decide_unpack _). vm_compute. exact I. }
  assert ("system_data_2024-05-01T10-01-00.json" ∈ MoreSamples.listing) as Hin.
  { right. by left. }
  assert (run.2 = Returned "system_data_2024-05-01T10-01-00.json") as Hreply.
  { vm_compute. reflexivity. }
  split; [exact Hnodup|]. split; [exact Hin|]. split; [exact Hreply|].
  apply (receive_info_stores info "2024-05-01T10:01:02" MoreSamples.directory
           run.1 "system_data_2024-05-01T10-01-00.json" MoreSamples.listing);
    [|exact Hnodup|exact Hin].
  rewrite <-Hreply. apply surjective_pairing.
Defined.

(** X13: For a [POST /send] that runs on its own and whose write succeeds:
    every file reads afterwards as before, except that the file of the
    snapshot's timestamp may have the new record at its end; when that
    file exists and gives no list, the answer is 500; and with the answer
    500 no file has changed. *)
Theorem receive_info_append_only info received fs :
  let filename := filename_of (info_timestamp info) in
  let after := (receive_info info received fs).1 in
  (forall f,
     entries_of_file after f = entries_of_file fs f \/
     (f = filename /\
      entries_of_file after f = entries_of_file fs f ++ [data_entry info received])) /\
  (fs !! filename = Some Unreadable ->
   (receive_info info received fs).2 = HTTPException 500) /\
  ((receive_info info received fs).2 = Returned filename \/
   ((receive_info info received fs).2 = HTTPException 500 /\ after = fs)).
Proof.
  intros filename after. unfold after, receive_info, save_to_json.
  fold filename.
  destruct (fs !! filename) as [[existing|]|] eqn:Hfile; cbn [fst snd].
  - split; [|split; [done|by left]]. intros f. unfold entries_of_file.
    destruct (decide (f = filename)) as [->|Hne].
    + right. by rewrite lookup_insert_eq, Hfile.
    + left. by rewrite lookup_insert_ne.
  - split; [by left|]. split; [done|by right].
  - split; [|split; [done|by left]]. intros f. unfold entries_of_file.
    destruct (decide (f = filename)) as [->|Hne].
    + right. by rewrite lookup_insert_eq, Hfile.
    + left. by rewrite lookup_insert_ne.
Qed.

(** X14: The readers look only at files named [system_data_*.json] and pass over
    the ones they cannot decode: what another file holds, and whether an
    undecodable file is there at all, does not change what they read. *)
Theorem get_all_data_ignores fs listing f content :
  (is_data_file f = false ->
   get_all_data_from_json (<[f := content]> fs) listing
     = get_all_data_from_json fs listing) /\
  get_all_data_from_json (<[f := Unreadable]> fs) listing
    = get_all_data_from_json (delete f fs) listing.
Proof.
  unfold get_all_data_from_json. split.
  - intros Hother. induction listing as [|f' listing IH]; [done|].
    cbn [mbind list_bind]. rewrite IH. f_equal.
    destruct (is_data_file f') eqn:Hf'; [|done]. unfold entries_of_file.
    rewrite lookup_insert_ne; [done|congruence].
  - induction listing as [|f' listing IH]; [done|].
    cbn [mbind list_bind]. rewrite IH. f_equal.
    destruct (is_data_file f'); [|done]. unfold entries_of_file.
    destruct (decide (f = f')) as [->|Hne].
    + by rewrite lookup_insert_eq, lookup_delete_eq.
    + by rewrite lookup_insert_ne, lookup_delete_ne.
Qed.

Lemma search_is_filter ip0 fs listing :
  search_json_files ip0 fs listing
    = List.filter (fun entry => String.eqb (ip entry) ip0)
                  (get_all_data_from_json fs listing).
Proof.
  unfold search_json_files, get_all_data_from_json.
  induction listing as [|f listing IH]; [done|].
  cbn [mbind list_bind]. rewrite List.filter_app, IH.
  by destruct (is_data_file f).
Qed.

(** X15: [GET /query] answers 404 exactly when no record that the readers see
    has the address asked for; otherwise it returns those records, all of
    them and only them, in the order in which they are read. *)
Theorem query_info_finds ip0 fs listing :
  search_json_files ip0 fs listing
    = List.filter (fun entry => String.eqb (ip entry) ip0)
                  (get_all_data_from_json fs listing) /\
  (query_info ip0 fs listing = HTTPException 404 <->
   forall entry, entry ∈ get_all_data_from_json fs listing -> ip entry <> ip0) /\
  (forall results, query_info ip0 fs listing = Returned results ->
     results <> [] /\
     forall entry, entry ∈ results <->
       entry ∈ get_all_data_from_json fs listing /\ ip entry = ip0).
Proof.
  split; [apply search_is_filter|]. unfold query_info. rewrite search_is_filter.
  set (all := get_all_data_from_json fs listing).
  assert (forall entry, entry ∈ List.filter (fun e => String.eqb (ip e) ip0) all
                        <-> entry ∈ all /\ ip entry = ip0) as Hfilter.
  { intros entry. rewrite !list_elem_of_In, filter_In, String.eqb_eq. done. }
  destruct (List.filter _ all) as [|e results] eqn:Hres.
  - split; [|done]. split; [|done]. intros _ entry Hin Hip.
    assert (entry ∈ @nil Item) as Hnil by (by apply Hfilter).
    by apply elem_of_nil in Hnil.
  - split.
    + split; [done|]. intros Hnone. destruct (Hfilter e) as [[Hin Hip] _]; [by left|].
      by destruct (Hnone e Hin).
    + intros ? [= <-]. split; [done|]. apply Hfilter.
Qed.

(** X16: [GET /download/json] with an address answers with the records and the
    status of [GET /query] for that address; without an address, and with
    an empty one, it returns every record read, and 404 when there is
    none. *)
Theorem download_json_selects fs listing :
  (forall ip0, ip0 <> EmptyString ->
     (forall results, download_json (Some ip0) fs listing = Returned results <->
                      query_info ip0 fs listing = Returned results) /\
     (download_json (Some ip0) fs listing = HTTPException 404 <->
      query_info ip0 fs listing = HTTPException 404)) /\
  download_json (Some EmptyString) fs listing = download_json None fs listing /\
  (download_json None fs listing = HTTPException 404 <->
   get_all_data_from_json fs listing = []) /\
  (forall results, download_json None fs listing = Returned results ->
     results = get_all_data_from_json fs listing).
Proof.
  unfold download_json, query_info. split; [|split; [done|split]].
  - intros ip0 Hne. destruct ip0; [done|]. cbn [truthy default].
    by destruct (search_json_files _ fs listing).
  - cbn [truthy]. by destruct (get_all_data_from_json fs listing).
  - cbn [truthy]. destruct (get_all_data_from_json fs listing); [done|].
    by intros ? [= <-].
Qed.

(** *** Stored records in the statistics *)

Lemma foldl_skip {A B} (f : A -> B -> A) x l1 l2 a :
  (forall a', f a' x = a') -> foldl f a (l1 ++ x :: l2) = foldl f a (l1 ++ l2).
Proof. intros Hx. rewrite !foldl_app. cbn [foldl]. by rewrite Hx. Qed.

(** X17: A stored record never lacks the [agent_id] key, so the fallback to the
    address is never taken for it: a snapshot posted without an agent id,
    or with an empty one, is left out of the two tables of agents and of
    the active agents, as if it had not been stored. *)
Theorem snapshot_without_agent_id_not_counted info received l1 l2 now :
  truthy (info_agent_id info) = false ->
  dedup_key (data_entry info received) = None /\
  ip_by_agent (l1 ++ data_entry info received :: l2) = ip_by_agent (l1 ++ l2) /\
  os_by_agent (l1 ++ data_entry info received :: l2) = os_by_agent (l1 ++ l2) /\
  recent_agents fromisoformat now (l1 ++ data_entry info received :: l2)
    = recent_agents fromisoformat now (l1 ++ l2).
Proof.
  intros Hnone.
  assert (dedup_key (data_entry info received) = None) as Hkey.
  { unfold dedup_key, data_entry. cbn [agent_id ip].
    destruct (info_agent_id info) as [[|c a]|]; done. }
  split; [done|]. split; [|split].
  - unfold ip_by_agent. apply foldl_skip. intros d. by rewrite Hkey.
  - unfold os_by_agent. apply foldl_skip. intros d. by rewrite Hkey.
  - unfold recent_agents. apply foldl_skip. intros recent.
    assert (add_agent (data_entry info received) recent = recent) as ->.
    { unfold add_agent, data_entry. cbn [agent_id].
      destruct (info_agent_id info) as [[|c a]|]; done. }
    destruct (item_time _ _); [by case_bool_decide|done].
Qed.

Lemma get_stats_total_records now now' data st :
  get_stats fromisoformat isoformat now now' data = Ok st -> total_records st = len data.
Proof.
  destruct data as [|item data']; [by intros [= <-]|].
  intros Hst. by apply get_stats_Ok in Hst as (? & ? & ? & ? & _ & _ & _ & _ & -> & _).
Qed.

(** X18: After [POST /send] has accepted a snapshot, [GET /api/stats] counts one
    record more than before, whatever the order of the directory. *)
Theorem stats_counts_received info received fs fs' filename listing now now' st st' :
  receive_info info received fs = (fs', Returned filename) ->
  NoDup listing -> filename ∈ listing ->
  stats fromisoformat isoformat now now' fs listing = Ok st ->
  stats fromisoformat isoformat now now' fs' listing = Ok st' ->
  total_records st' = total_records st + 1.
Proof.
  unfold stats. intros Hrun Hnodup Hin Hst Hst'.
  apply get_stats_total_records in Hst, Hst'. rewrite Hst, Hst'.
  destruct (receive_info_Returned _ _ _ _ _ _ Hrun Hnodup Hin) as (_ & _ & _ & _ & Hperm).
  unfold len. rewrite Hperm. cbn [length]. lia.
Qed.

End StoreFacts.

(** ** More on the statistics *)

Section TopOfSorted.
Context {A : Type} (le : A -> A -> bool).
Hypothesis le_total : forall x y, le x y = false -> le y x = true.
Hypothesis le_trans : forall x y z, le x y = true -> le y z = true -> le x z = true.

(** The first [n] of a sorted list stand before the others. *)
Lemma sorted_by_take_drop n l x y :
  x ∈ take n (sorted_by le l) -> y ∈ drop n (sorted_by le l) -> le x y = true.
Proof using le_total le_trans.
  intros Hx Hy.
  assert (StronglySorted (fun x y => le x y = true)
            (take n (sorted_by le l) ++ drop n (sorted_by le l))) as Hsorted.
  { rewrite take_drop. apply Sorted_StronglySorted.
    - intros a b c. apply le_trans.
    - by apply sorted_by_Sorted. }
  by apply (StronglySorted_app_1_elem_of _ _ _ x y Hsorted).
Qed.
End TopOfSorted.

Lemma Sorted_drop {A} (R : relation A) n l : Sorted R l -> Sorted R (drop n l).
Proof.
  revert l. induction n as [|n IH]; intros l Hl; [done|].
  destruct Hl as [|x l Hl _]; [constructor|]. by apply IH.
Qed.

Lemma mapM_Ok {A B} (f : A -> result B) l ys :
  mapM f l = Ok ys <-> Forall2 (fun x y => f x = Ok y) l ys.
Proof.
  revert ys. induction l as [|x l IH]; intros ys; cbn [mapM].
  - split; [intros [= <-]; constructor|by inversion 1].
  - split.
    + intros (y & Hy & (k & Hk & [= <-])%bind_Ok)%bind_Ok. constructor; [done|by apply IH].
    + inversion 1 as [|? y ? k Hy Hk]; subst. apply bind_Ok. exists y. split; [done|].
      apply bind_Ok. exists k. split; [by apply IH|done].
Qed.

Lemma mapM_Ok_intro {A B} (f : A -> result B) l :
  (forall x, x ∈ l -> exists y, f x = Ok y) -> exists ys, mapM f l = Ok ys.
Proof.
  induction l as [|x l IH]; intros Hl; [by exists []|].
  destruct (Hl x) as [y Hy]; [by left|].
  destruct IH as [ys Hys]; [intros x' Hx'; apply Hl; by right|].
  exists (y :: ys). apply mapM_Ok. constructor; [done|by apply mapM_Ok].
Qed.

Section MoreApiFacts.
Import Api.
Variable fromisoformat : string -> option Z.
Variable isoformat : Z -> string.

Local Abbreviation get_stats := (Api.get_stats fromisoformat isoformat).
Local Abbreviation recent_agents := (Api.recent_agents fromisoformat).
Local Abbreviation staleness_alerts := (Api.staleness_alerts fromisoformat).

(** Every step of an answer on a store that is not empty *)
Lemma get_stats_steps now now' data st :
  data <> [] ->
  get_stats now now' data = Ok st ->
  exists freqs avg tl ordered high pa sa lu,
    cpu_freqs data = Ok freqs /\
    mean freqs = Ok avg /\
    timeline data = Ok tl /\
    sorted_rows (all_processes data) = Ok ordered /\
    select (Qltb 50) (all_processes data) = Ok high /\
    process_alerts (all_processes data) = Ok pa /\
    staleness_alerts now' data = Ok sa /\
    last_received_at data = Ok lu /\
    cpu_timeline st = tl /\
    processes_out st = take 10 ordered /\
    top_processes st = {| labels := process_label <$> take 10 ordered;
                          data := row_cpu_percent <$> take 10 ordered |} /\
    high_cpu_processes st = take 20 high /\
    users_out st = unique_users (all_users data) /\
    active_users st = len (unique_users (all_users data)) /\
    last_update st = lu /\
    alerts st = pa ++ sa.
Proof.
  intros Hdata. unfold Api.get_stats. destruct data as [|item data']; [done|].
  set (data := item :: data') in *. clearbody data.
  intros (freqs & Hfreqs & H)%bind_Ok.
  apply bind_Ok in H as (avg & Havg & H).
  apply bind_Ok in H as (tl & Htl & H).
  apply bind_Ok in H as (top & (ordered & Hordered & ->)%fmap_Ok & H).
  apply bind_Ok in H as (high20 & (high & Hhigh & ->)%fmap_Ok & H).
  apply bind_Ok in H as (pa & Hpa & H).
  apply bind_Ok in H as (sa & Hsa & H).
  apply bind_Ok in H as (lu & Hlu & H).
  injection H as <-. exists freqs, avg, tl, ordered, high, pa, sa, lu.
  by repeat split.
Qed.

(** *** Processes *)

Lemma row_geb_total x y : row_geb x y = false -> row_geb y x = true.
Proof. apply Qle_bool_total. Qed.

Lemma row_geb_trans x y z :
  row_geb x y = true -> row_geb y z = true -> row_geb x z = true.
Proof.
  unfold row_geb, Qleb. rewrite !Qle_bool_iff. intros Hxy Hyz.
  by apply Qle_trans with (default 0%Q (row_cpu_percent y)).
Qed.

Lemma row_geb_ge x y :
  row_cpu_percent x <> None -> row_cpu_percent y <> None ->
  row_geb x y = true -> Expect.row_ge x y.
Proof.
  unfold row_geb, Expect.row_ge, Qleb.
  destruct (row_cpu_percent x), (row_cpu_percent y); try done.
  intros _ _. by rewrite Qle_bool_iff.
Qed.

Lemma select_is_filter test rows selected :
  select test rows = Ok selected ->
  Forall (fun p => row_cpu_percent p <> None) rows /\
  selected = List.filter
    (fun p => match row_cpu_percent p with Some c => test c | None => false end) rows.
Proof.
  revert selected. induction rows as [|p rows IH]; intros selected; cbn [select].
  - by intros [= <-].
  - destruct (row_cpu_percent p) as [c|] eqn:Hc; [|done].
    cbn [List.filter]. rewrite Hc. destruct (test c).
    + intros (sel & [Hnum ->]%IH & ->)%fmap_Ok. split; [|done].
      constructor; [congruence|done].
    + intros [Hnum ->]%IH. split; [|done]. constructor; [congruence|done].
Qed.

Lemma sorted_rows_Ok rows ordered :
  sorted_rows rows = Ok ordered -> ordered = sorted_by row_geb rows.
Proof. unfold sorted_rows. destruct (_ && _); [done|]. by intros [= <-]. Qed.

(** X19: The processes of an answer are the best ten of the rows of the ten
    latest records: in descending order of CPU percentage, with no row
    left out above any of them, and the chart shows their labels and
    percentages. *)
Theorem top_processes_are_the_highest now now' data st :
  get_stats now now' data = Ok st ->
  Sorted Expect.row_ge (processes_out st) /\
  length (processes_out st) = (10 `min` length (all_processes data))%nat /\
  (exists rest,
     processes_out st ++ rest ≡ₚ all_processes data /\
     forall x y, x ∈ processes_out st -> y ∈ rest -> Expect.row_ge x y) /\
  labels (top_processes st) = process_label <$> processes_out st /\
  Api.data (top_processes st) = row_cpu_percent <$> processes_out st.
Proof.
  destruct data as [|item data'].
  { intros [= <-]. cbn. split; [constructor|]. split; [done|].
    split; [|done]. exists []. split; [done|]. intros x y Hx. by inversion Hx. }
  intros Hst. apply get_stats_steps in Hst
    as (? & ? & ? & ordered & high & ? & ? & ? & _ & _ & _ & Hordered & Hhigh & _ & _ & _
        & _ & -> & -> & _); [|done].
  apply sorted_rows_Ok in Hordered as ->.
  apply select_is_filter in Hhigh as [Hnum _].
  set (rows := all_processes (item :: data')) in *.
  assert (forall z, z ∈ sorted_by row_geb rows -> row_cpu_percent z <> None) as Hsome.
  { intros z Hz%sorted_by_elem_of. rewrite Forall_forall in Hnum. by apply Hnum. }
  split; [|split; [|split; [|done]]].
  - apply Sorted_take.
    apply (Sorted_weaken (fun p => row_cpu_percent p <> None)
             (fun x y => row_geb x y = true)).
    + intros p1 p2. apply row_geb_ge.
    + by apply Forall_forall.
    + apply sorted_by_Sorted, row_geb_total.
  - by rewrite length_take, sorted_by_length.
  - exists (drop 10 (sorted_by row_geb rows)). split.
    + by rewrite take_drop, sorted_by_Permutation.
    + intros p1 p2 Hp1 Hp2. apply row_geb_ge.
      * apply Hsome. rewrite <-(take_drop 10 (sorted_by row_geb rows)). set_solver.
      * apply Hsome. rewrite <-(take_drop 10 (sorted_by row_geb rows)). set_solver.
      * by apply (sorted_by_take_drop row_geb row_geb_total row_geb_trans 10 rows).
Qed.

(** X20: The processes with a high CPU of an answer are rows with more than 50,
    in the order of the rows, at most 20 of them, and all of them when there
    are fewer than 20. *)
Theorem high_cpu_processes_above_50 now now' data st :
  get_stats now now' data = Ok st ->
  high_cpu_processes st
    = take 20 (List.filter Expect.above_50 (all_processes data)) /\
  (length (high_cpu_processes st) <= 20)%nat /\
  high_cpu_processes st `sublist_of` all_processes data /\
  (forall p, p ∈ high_cpu_processes st ->
     exists c, row_cpu_percent p = Some c /\ (50 < c)%Q) /\
  ((length (high_cpu_processes st) < 20)%nat ->
   forall p c, p ∈ all_processes data -> row_cpu_percent p = Some c -> (50 < c)%Q ->
     p ∈ high_cpu_processes st).
Proof.
  intros Hst.
  assert (high_cpu_processes st
          = take 20 (List.filter Expect.above_50 (all_processes data))) as Hhigh.
  { destruct data as [|item data']; [by injection Hst as <-|].
    apply get_stats_steps in Hst
      as (? & ? & ? & ? & high & ? & ? & ? & _ & _ & _ & _ & Hhigh & _ & _ & _
          & _ & _ & _ & -> & _); [|done].
    by apply select_is_filter in Hhigh as [_ ->]. }
  assert (forall p, p ∈ List.filter Expect.above_50 (all_processes data) <->
                    p ∈ all_processes data /\ Expect.above_50 p = true) as Hfilter.
  { intros p. by rewrite !list_elem_of_In, filter_In. }
  assert (forall p c, row_cpu_percent p = Some c ->
                      Expect.above_50 p = true <-> (50 < c)%Q) as Habove.
  { intros p c Hc. unfold Expect.above_50, Qltb. rewrite Hc.
    rewrite negb_true_iff, <-not_true_iff_false, Qle_bool_iff.
    split; [apply Qnot_le_lt|apply Qlt_not_le]. }
  rewrite Hhigh. split; [done|]. split; [rewrite length_take; lia|].
  split; [|split].
  - etrans; [apply sublist_take|]. clear. induction (all_processes data) as [|p l IH];
      cbn [List.filter]; [done|].
    destruct (Expect.above_50 p); [by apply sublist_skip|by apply sublist_cons].
  - intros p Hp. apply elem_of_take in Hp as (i & Hp%list_elem_of_lookup_2 & _).
    apply Hfilter in Hp as [_ Hp]. unfold Expect.above_50 in Hp.
    destruct (row_cpu_percent p) as [c|] eqn:Hc; [|done].
    exists c. split; [done|]. apply (Habove p c Hc). unfold Expect.above_50.
    by rewrite Hc.
  - intros Hlen p c Hp Hc Hgt. rewrite take_ge.
    + apply Hfilter. split; [done|]. by apply (Habove p c).
    + rewrite length_take in Hlen. lia.
Qed.

(** X21: An answer has at most three alerts, in a fixed order: the critical
    processes, the elevated processes, the old data. *)
Theorem alerts_in_order now now' data st :
  get_stats now now' data = Ok st ->
  exists n m k,
    alerts st `sublist_of` [critical_alert n; warning_alert m; stale_alert k].
Proof.
  destruct data as [|item data'].
  { intros [= <-]. exists 0, 0, 0. apply sublist_nil_l. }
  intros Hst. apply get_stats_steps in Hst
    as (? & ? & ? & ? & ? & pa & sa & ? & _ & _ & _ & _ & _ & Hpa & Hsa & _ & _ & _
        & _ & _ & _ & _ & _ & ->); [|done].
  unfold process_alerts in Hpa.
  apply bind_Ok in Hpa as (cs & _ & (ws & _ & [= <-])%bind_Ok).
  unfold Api.staleness_alerts in Hsa.
  destruct (last (item :: data')) as [it|]; [|injection Hsa as <-].
  - destruct (received_at it) as [| |s]; try done.
    destruct (fromisoformat s) as [t|]; [|done].
    exists (len cs), (len ws), ((now' - t) `quot` (60 * usec)).
    case_bool_decide; injection Hsa as <-; destruct cs, ws; cbn [app];
      repeat first [apply sublist_nil_l | apply sublist_skip | apply sublist_cons].
  - exists (len cs), (len ws), 0.
    destruct cs, ws; cbn [app];
      repeat first [apply sublist_nil_l | apply sublist_skip | apply sublist_cons].
Qed.

(** *** Timeline *)

Lemma by_timestamp_total x y : by_timestamp x y = false -> by_timestamp y x = true.
Proof.
  unfold by_timestamp. intros Hxy.
  destruct (String.leb_total (timestamp x) (timestamp y)); [congruence|done].
Qed.

Lemma last_n_length {A} n (l : list A) : length (last_n n l) = (n `min` length l)%nat.
Proof. unfold last_n. rewrite length_drop. lia. Qed.

Lemma string_leb_trans s1 s2 s3 :
  String.leb s1 s2 = true -> String.leb s2 s3 = true -> String.leb s1 s3 = true.
Proof.
  unfold String.leb. revert s2 s3.
  induction s1 as [|a s1 IH]; intros [|b s2] [|c s3]; simpl; try done.
  unfold Ascii.compare.
  destruct (N.compare_spec (N_of_ascii a) (N_of_ascii b)) as [Hab|Hab|Hab],
    (N.compare_spec (N_of_ascii b) (N_of_ascii c)) as [Hbc|Hbc|Hbc],
    (N.compare_spec (N_of_ascii a) (N_of_ascii c)) as [Hac|Hac|Hac];
    try done; try lia.
  apply IH.
Qed.

Lemma by_timestamp_trans x y z :
  by_timestamp x y = true -> by_timestamp y z = true -> by_timestamp x z = true.
Proof. apply string_leb_trans. Qed.

Lemma after_T_Some ts rest :
  after_T ts = Some rest ->
  exists date, ts = date +:+ String "T" rest /\ Expect.without_T date.
Proof.
  unfold Expect.without_T. induction ts as [|c ts IH]; [done|]. cbn [after_T].
  destruct (Ascii.eqb_spec c "T") as [->|Hc].
  - intros [= <-]. exists EmptyString. split; [done|]. by apply not_elem_of_nil.
  - intros (date & -> & Hdate)%IH. exists (String c date). split; [done|].
    cbn [String.list_ascii_of_string]. apply not_elem_of_cons. by split.
Qed.

Lemma before_T_split s :
  exists rest,
    s = before_T s +:+ rest /\ Expect.without_T (before_T s) /\
    (rest = EmptyString \/ exists rest', rest = String "T" rest').
Proof.
  unfold Expect.without_T. induction s as [|c s (rest & Hs & Htime & Hrest)].
  { exists EmptyString. split; [done|]. split; [by apply not_elem_of_nil|by left]. }
  cbn [before_T]. destruct (Ascii.eqb_spec c "T") as [->|Hc].
  - exists (String "T" s). split; [done|]. split; [by apply not_elem_of_nil|].
    right. by eexists.
  - exists rest. split.
    { change (String c s = String c (before_T s +:+ rest)). by f_equal. }
    split; [|done]. cbn [String.list_ascii_of_string]. apply not_elem_of_cons. by split.
Qed.

Lemma take_chars_spec n s : Expect.first_chars n s (take_chars n s).
Proof.
  unfold Expect.first_chars. revert n.
  induction s as [|c s IH]; intros n; cbn [take_chars].
  { exists EmptyString. split; [done|]. split; [cbn; lia|by left]. }
  destruct (is_continuation c) eqn:Hc.
  - destruct (IH n) as (tail & Hs & Hle & Htail). exists tail. split.
    { change (String c s = String c (take_chars n s +:+ tail)). by f_equal. }
    cbn [Expect.chars]. by rewrite Hc.
  - destruct n as [|n].
    + exists (String c s). split; [done|]. split; [done|]. right. by exists c, s.
    + destruct (IH n) as (tail & Hs & Hle & Htail). exists tail. split.
      { change (String c s = String c (take_chars n s +:+ tail)). by f_equal. }
      cbn [Expect.chars]. rewrite Hc.
      split; [lia|]. destruct Htail as [->|(c' & tail' & -> & Hc' & Hn)]; [by left|].
      right. exists c', tail'. by rewrite Hn.
Qed.

Lemma time_label_spec ts label :
  time_label ts = Ok label -> Expect.label_of ts label.
Proof.
  unfold time_label. destruct (after_T ts) as [after|] eqn:Hafter; [|done].
  intros [= <-]. apply after_T_Some in Hafter as (date & -> & Hdate).
  destruct (before_T_split after) as (rest & Hsplit & Htime & Hrest).
  exists date, (before_T after), rest. split.
  { change ("T" +:+ before_T after +:+ rest)
      with (String "T" (before_T after +:+ rest)).
    by rewrite <-Hsplit. }
  do 3 (split; [done|]). apply take_chars_spec.
Qed.

Lemma cpu_current_spec item mhz :
  cpu_current (cpu item) = Ok mhz -> Expect.shown_frequency item mhz.
Proof.
  unfold cpu_current, Expect.shown_frequency.
  destruct (frequency (cpu item)) as [| |f]; [by intros [= <-]|done|].
  intros [= <-]. by destruct (current f).
Qed.

(** X22: The timeline of an answer has one point for each of the 20 records
    with the latest timestamps, or for all of them when there are fewer:
    no record left out has a later timestamp than one that is shown, and
    the points are in ascending order of timestamp.  The label of a point
    is the piece of the timestamp between its first [T] and the next, cut
    to 8 characters; its value is the current frequency of the record, 0
    when the record has none. *)
Theorem cpu_timeline_last_twenty now now' data st :
  get_stats now now' data = Ok st ->
  exists older recent,
    older ++ recent ≡ₚ data /\
    length recent = (20 `min` length data)%nat /\
    (forall x y, x ∈ older -> y ∈ recent ->
       String.leb (timestamp x) (timestamp y) = true) /\
    Sorted (fun x y => String.leb (timestamp x) (timestamp y) = true) recent /\
    Forall2 (fun item label => Expect.label_of (timestamp item) label)
            recent (labels (cpu_timeline st)) /\
    Forall2 Expect.shown_frequency recent (Api.data (cpu_timeline st)).
Proof.
  intros Hst.
  exists (take (length (sorted_by by_timestamp data) - 20)
               (sorted_by by_timestamp data)),
         (last_n 20 (sorted_by by_timestamp data)).
  split; [|split; [|split; [|split]]].
  - unfold last_n. by rewrite take_drop, sorted_by_Permutation.
  - by rewrite last_n_length, sorted_by_length.
  - intros x y Hx Hy.
    apply (sorted_by_take_drop by_timestamp by_timestamp_total by_timestamp_trans
             _ _ x y Hx Hy).
  - apply Sorted_drop, (sorted_by_Sorted by_timestamp), by_timestamp_total.
  - destruct data as [|item data'].
    { injection Hst as <-. cbn. split; constructor. }
    apply get_stats_steps in Hst
      as (? & ? & tl & ? & ? & ? & ? & ? & _ & _ & Htl & _ & _ & _ & _ & _ & -> & _);
      [|done].
    unfold timeline in Htl. apply bind_Ok in Htl as (ls & Hls & Htl).
    apply bind_Ok in Htl as (ds & Hds & [= <-]). cbn [labels Api.data].
    split.
    + eapply Forall2_impl; [by apply mapM_Ok|]. intros ??. apply time_label_spec.
    + eapply Forall2_impl; [by apply mapM_Ok|]. intros ??. apply cpu_current_spec.
Qed.

(** *** Users *)

Lemma unique_from_spec us : forall seen,
  NoDup (user_key <$> unique_from seen us) /\
  (forall u, u ∈ unique_from seen us -> user_key u ∉ seen) /\
  unique_from seen us `sublist_of` us /\
  (forall u, u ∈ us ->
     user_key u ∈ seen \/ user_key u ∈ user_key <$> unique_from seen us) /\
  (forall l1 u l2, us = l1 ++ u :: l2 -> user_key u ∉ seen ->
     user_key u ∉ user_key <$> l1 -> u ∈ unique_from seen us).
Proof.
  induction us as [|user us IH]; intros seen.
  - cbn. split; [constructor|]. split; [by inversion 1|]. split; [done|].
    split; [by inversion 1|]. by intros [|] ? ? [=].
  - cbn [unique_from]. case_bool_decide as Hnew.
    + destruct (IH ({[user_key user]} ∪ seen)) as (Hnodup & Hfresh & Hsub & Hcover & Hfirst).
      split; [|split; [|split; [|split]]].
      * cbn [fmap list_fmap]. apply NoDup_cons. split; [|done].
        intros (u & Hkey & Hu)%list_elem_of_fmap. apply Hfresh in Hu. set_solver.
      * intros u [->|Hu]%elem_of_cons; [done|]. apply Hfresh in Hu. set_solver.
      * by apply sublist_skip.
      * intros u [->|Hu]%elem_of_cons.
        -- right. cbn [fmap list_fmap]. by left.
        -- destruct (Hcover u Hu) as [[Heq%elem_of_singleton|?]%elem_of_union|?].
           ++ right. cbn [fmap list_fmap]. rewrite Heq. by left.
           ++ by left.
           ++ right. cbn [fmap list_fmap]. by right.
      * intros [|u' l1] u l2 [= Huser Hus] Hseen Hl1; [subst; by left|]. right.
        cbn [fmap list_fmap] in Hl1. apply not_elem_of_cons in Hl1 as [Hne Hl1].
        apply (Hfirst l1 u l2); [done| |done]. subst. set_solver.
    + destruct (IH seen) as (Hnodup & Hfresh & Hsub & Hcover & Hfirst).
      split; [done|]. split; [done|]. split; [by apply sublist_cons|]. split.
      * intros u [->|Hu]%elem_of_cons; [by left|by apply Hcover].
      * intros [|u' l1] u l2 [= Huser Hus] Hseen Hl1; [by subst|].
        cbn [fmap list_fmap] in Hl1. apply not_elem_of_cons in Hl1 as [Hne Hl1].
        by apply (Hfirst l1 u l2).
Qed.

(** X23: The users of an answer are the users of the ten latest records, each
    with the address of its record, without repetition of the triple of
    name, terminal and address: for every triple the first user that has it
    is kept, in the order of the records, and their number is the count of
    active users. *)
Theorem users_are_deduplicated now now' data st :
  get_stats now now' data = Ok st ->
  NoDup (user_key <$> users_out st) /\
  users_out st `sublist_of` all_users data /\
  (forall u, u ∈ all_users data -> user_key u ∈ user_key <$> users_out st) /\
  (forall l1 u l2, all_users data = l1 ++ u :: l2 ->
     user_key u ∉ user_key <$> l1 -> u ∈ users_out st) /\
  active_users st = len (users_out st).
Proof.
  intros Hst.
  assert (users_out st = unique_users (all_users data) /\
          active_users st = len (users_out st)) as [-> ->].
  { destruct data as [|item data']; [by injection Hst as <-|].
    apply get_stats_steps in Hst
      as (? & ? & ? & ? & ? & ? & ? & ? & _ & _ & _ & _ & _ & _ & _ & _ & _ & _ & _ & _
          & -> & -> & _); done. }
  unfold unique_users.
  destruct (unique_from_spec (all_users data) ∅) as (Hnodup & _ & Hsub & Hcover & Hfirst).
  split; [done|]. split; [done|]. split; [|split; [|done]].
  - intros u Hu. destruct (Hcover u Hu) as [?|?]; [set_solver|done].
  - intros l1 u l2 Hsplit Hl1. apply (Hfirst l1 u l2); [done|set_solver|done].
Qed.

(** *** Active agents *)

Lemma elem_of_add_agent item (recent : gset string) a :
  a ∈ add_agent item recent <->
  a ∈ recent \/ (agent_id item = Val a /\ a <> EmptyString).
Proof.
  unfold add_agent. destruct (agent_id item) as [| |a'] eqn:Hid; cbn [get].
  - split; [by left|]. by intros [?|[? _]].
  - split; [by left|]. by intros [?|[? _]].
  - destruct a' as [|c a'']; cbn [truthy].
    + split; [by left|]. intros [?|[[= <-] ?]]; done.
    + rewrite elem_of_union, elem_of_singleton. split.
      * intros [->|?]; [by right|by left].
      * intros [?|[[= <-] _]]; [by right|by left].
Qed.

(** X24: An agent is active exactly when one of its records has no readable
    time, or a time less than 300 seconds before now; the time of a record
    is its receipt time, or its timestamp when it has no receipt time.  The
    answer gives the number of these agents, at most one per record. *)
Theorem active_agents_window now data a :
  (a ∈ recent_agents now data <->
   exists item, item ∈ data /\ agent_id item = Val a /\ a <> EmptyString /\
     forall t, item_time fromisoformat item = Some t -> now - 300 * usec < t) /\
  (size (recent_agents now data) <= length data)%nat /\
  forall now' st, get_stats now now' data = Ok st ->
    active_agents st = Z.of_nat (size (recent_agents now data)).
Proof.
  unfold Api.recent_agents. set (cutoff_time := now - 300 * usec).
  set (step := fun (recent : gset string) item =>
         match item_time fromisoformat item with
         | Some t =>
             if bool_decide (cutoff_time < t) then add_agent item recent else recent
         | None => add_agent item recent
         end).
  assert (forall item recent x, x ∈ step recent item <->
            x ∈ recent \/ (agent_id item = Val x /\ x <> EmptyString /\
              forall t, item_time fromisoformat item = Some t -> cutoff_time < t))
    as Hstep.
  { intros item recent x. unfold step.
    destruct (item_time fromisoformat item) as [t|].
    - case_bool_decide as Ht.
      + rewrite elem_of_add_agent. split.
        * intros [?|[? ?]]; [by left|right]. repeat split; try done. by intros ? [= <-].
        * intros [?|(? & ? & _)]; [by left|by right].
      + split; [by left|]. intros [?|(_ & _ & Hlate)]; [done|].
        by destruct Ht; apply Hlate.
    - rewrite elem_of_add_agent. split.
      + intros [?|[? ?]]; [by left|right]. by repeat split.
      + intros [?|(? & ? & _)]; [by left|by right]. }
  assert (forall l recent x, x ∈ foldl step recent l <->
            x ∈ recent \/ exists item, item ∈ l /\ agent_id item = Val x /\
              x <> EmptyString /\
              forall t, item_time fromisoformat item = Some t -> cutoff_time < t)
    as Hfold.
  { induction l as [|item l IH]; intros recent x; cbn [foldl].
    - split; [by left|]. intros [?|(item & Hin & _)]; [done|by inversion Hin].
    - rewrite IH, Hstep. split.
      + intros [[?|?]|(item' & ? & ?)]; [by left| |].
        * right. exists item. split; [by left|done].
        * right. exists item'. split; [by right|done].
      + intros [?|(item' & [->|?]%elem_of_cons & ?)]; [by left; left| |].
        * left. by right.
        * right. by exists item'. }
  assert (forall l (recent : gset string),
            (size (foldl step recent l) <= size recent + length l)%nat) as Hsize.
  { induction l as [|item l IH]; intros recent; cbn [foldl length]; [lia|].
    etrans; [apply IH|].
    assert (size (step recent item) <= S (size recent))%nat; [|lia].
    assert (size (add_agent item recent) <= S (size recent))%nat as Hadd.
    { unfold add_agent. destruct (get (agent_id item) None) as [a'|]; [|lia].
      destruct (truthy (Some a')); [|lia].
      rewrite size_union_alt, size_singleton.
      assert (size (recent ∖ {[a']}) <= size recent)%nat; [|lia].
      apply subseteq_size. set_solver. }
    unfold step. destruct (item_time fromisoformat item); [case_bool_decide|]; lia. }
  split; [|split].
  - rewrite Hfold. split; [intros [?|?]; [set_solver|done]|by right].
  - etrans; [apply Hsize|]. rewrite size_empty. lia.
  - intros now' st Hst. destruct data as [|item data']; [by injection Hst as <-|].
    by apply get_stats_Ok in Hst as (? & ? & ? & ? & _ & _ & _ & _ & _ & -> & _).
Qed.

(** *** Distributions *)

Lemma dict_get_is_Some {K V} `{EqDecision K} k (d : list (K * V)) :
  is_Some (dict_get k d) <-> k ∈ keys d.
Proof.
  unfold keys. induction d as [|[k0 v0] d IH]; cbn [dict_get fmap list_fmap fst].
  - split; [by intros [? [=]]|by inversion 1].
  - case_decide as Hk; subst.
    + split; [intros _; by left|by eexists].
    + rewrite IH, elem_of_cons. naive_solver.
Qed.

Lemma keys_dict_set_eq {K V1 V2} `{EqDecision K} k v1 v2
    (d1 : list (K * V1)) (d2 : list (K * V2)) :
  keys d1 = keys d2 -> keys (dict_set k v1 d1) = keys (dict_set k v2 d2).
Proof.
  unfold keys. revert d2. induction d1 as [|[k1 w1] d1 IH]; intros [|[k2 w2] d2] [=];
    cbn [dict_set fmap list_fmap fst]; [done|]. subst.
  case_decide; cbn [fmap list_fmap fst]; f_equal; [done|by apply IH].
Qed.

Lemma tables_same_keys_from {V1 V2} (val1 : Item -> V1) (val2 : Item -> V2) data :
  forall (d1 : list (string * V1)) (d2 : list (string * V2)),
  keys d1 = keys d2 ->
  keys (foldl (fun d item =>
                 match dedup_key item with
                 | Some agent_id => dict_set agent_id (val1 item) d
                 | None => d
                 end) d1 data)
  = keys (foldl (fun d item =>
                   match dedup_key item with
                   | Some agent_id => dict_set agent_id (val2 item) d
                   | None => d
                   end) d2 data).
Proof.
  induction data as [|item data IH]; intros d1 d2 Hd; cbn [foldl]; [done|].
  apply IH. destruct (dedup_key item); [by apply keys_dict_set_eq|done].
Qed.

Lemma tables_same_keys data :
  keys (os_by_agent data) = keys (ip_by_agent data).
Proof. by apply (tables_same_keys_from Spec.os_label ip). Qed.

Lemma total_dict_set {K} `{EqDecision K} k n (c : list (K * Z)) :
  Expect.total (values (dict_set k n c))
    = Expect.total (values c) - default 0 (dict_get k c) + n.
Proof.
  unfold Expect.total, values. induction c as [|[k0 n0] c IH];
    cbn [dict_set dict_get fmap list_fmap snd foldr default]; [lia|].
  case_decide; cbn [fmap list_fmap snd foldr default]; [unfold id; lia|].
  rewrite IH. lia.
Qed.

Lemma Forall_values_dict_set {K V} `{EqDecision K} (P : V -> Prop) k v (c : list (K * V)) :
  P v -> Forall P (values c) -> Forall P (values (dict_set k v c)).
Proof.
  unfold values. intros Hv. induction c as [|[k0 v0] c IH];
    cbn [dict_set fmap list_fmap snd]; intros Hc.
  - by repeat constructor.
  - apply Forall_cons in Hc as [H0 Hc]. case_decide; cbn [fmap list_fmap snd];
      constructor; auto.
Qed.

Lemma dict_get_values {K V} `{EqDecision K} k v (c : list (K * V)) :
  dict_get k c = Some v -> v ∈ values c.
Proof.
  unfold values. induction c as [|[k0 v0] c IH]; cbn [dict_get fmap list_fmap snd];
    [done|].
  case_decide; [intros [= ->]; by left|]. intros ?. right. by apply IH.
Qed.

Lemma count_values_facts {V} `{EqDecision V} (vs : list V) :
  NoDup (keys (count_values vs)) /\
  Forall (fun n => 1 <= n) (values (count_values vs)) /\
  Expect.total (values (count_values vs)) = len vs.
Proof.
  unfold count_values.
  assert (forall c : list (V * Z),
            NoDup (keys c) -> Forall (fun n => 1 <= n) (values c) ->
            let c' := foldl (fun counts v =>
                         dict_set v (default 0 (dict_get v counts) + 1) counts) c vs in
            NoDup (keys c') /\ Forall (fun n => 1 <= n) (values c') /\
            Expect.total (values c') = Expect.total (values c) + len vs) as Hfold.
  { induction vs as [|v vs IH]; intros c Hnodup Hpos; cbn [foldl].
    - unfold len. cbn. split; [done|]. split; [done|lia].
    - destruct (IH (dict_set v (default 0 (dict_get v c) + 1) c)) as (? & ? & Htotal).
      + by apply keys_dict_set_NoDup.
      + apply Forall_values_dict_set; [|done].
        destruct (dict_get v c) as [n|] eqn:Hn; [|simpl; lia].
        apply dict_get_values in Hn. rewrite Forall_forall in Hpos.
        specialize (Hpos n Hn). simpl. lia.
      + split; [done|]. split; [done|]. rewrite Htotal, total_dict_set.
        unfold len. cbn [length]. lia. }
  destruct (Hfold []) as (? & ? & Htotal); [constructor|constructor|].
  split; [done|]. split; [done|]. by rewrite Htotal.
Qed.

Lemma last_for_is_Some k data :
  is_Some (Spec.last_for k data) <->
  exists item, item ∈ data /\ dedup_key item = Some k.
Proof.
  unfold Spec.last_for. split.
  - intros [item Hlast]. apply last_Some_elem_of in Hlast.
    apply list_elem_of_In, filter_In in Hlast as [Hin Hkey%bool_decide_eq_true].
    exists item. by rewrite list_elem_of_In.
  - intros (item & Hin & Hkey).
    destruct (last _) as [item'|] eqn:Hlast; [by eexists|].
    apply last_None in Hlast.
    assert (item ∈ List.filter
              (fun item => bool_decide (dedup_key item = Some k)) data) as Hf.
    { apply list_elem_of_In, filter_In. split; [by apply list_elem_of_In|].
      by apply bool_decide_eq_true. }
    rewrite Hlast in Hf. by apply elem_of_nil in Hf.
Qed.

(** X25: The two charts of an answer count the same agents: one entry for each
    key under which some record is filed.  Their labels are distinct, every
    count is at least 1, and the counts of each chart add up to the number
    of agents. *)
Theorem distributions_total now now' data st :
  get_stats now now' data = Ok st ->
  let agents := keys (ip_by_agent data) in
  NoDup agents /\
  (forall k, k ∈ agents <-> exists item, item ∈ data /\ dedup_key item = Some k) /\
  NoDup (labels (os_distribution st)) /\ NoDup (labels (ip_activity st)) /\
  length (labels (os_distribution st)) = length (Api.data (os_distribution st)) /\
  length (labels (ip_activity st)) = length (Api.data (ip_activity st)) /\
  Forall (fun n => 1 <= n) (Api.data (os_distribution st)) /\
  Forall (fun n => 1 <= n) (Api.data (ip_activity st)) /\
  Expect.total (Api.data (os_distribution st)) = len agents /\
  Expect.total (Api.data (ip_activity st)) = len agents.
Proof.
  intros Hst agents.
  assert (os_distribution st = distribution (os_by_agent data) /\
          ip_activity st = distribution (ip_by_agent data)) as [-> ->].
  { destruct data as [|item data']; [by injection Hst as <-|].
    by apply get_stats_Ok in Hst
      as (? & ? & ? & ? & _ & _ & _ & _ & _ & _ & _ & -> & -> & _). }
  unfold distribution. cbn [labels Api.data].
  destruct (count_values_facts (values (os_by_agent data))) as (? & ? & Hos).
  destruct (count_values_facts (values (ip_by_agent data))) as (? & ? & Hip).
  split; [apply (table_keys_NoDup ip); constructor|].
  split.
  { intros k. unfold agents. rewrite <-dict_get_is_Some.
    unfold ip_by_agent. rewrite (table_get ip), <-last_for_is_Some.
    destruct (Spec.last_for k data) as [it|]; cbn.
    - split; intros _; [by exists it|by exists (ip it)].
    - split; by intros [? [=]]. }
  do 2 (split; [done|]).
  split; [unfold keys, values; by rewrite !length_fmap|].
  split; [unfold keys, values; by rewrite !length_fmap|].
  do 2 (split; [done|]).
  rewrite Hos, Hip. unfold agents, len.
  assert (length (values (os_by_agent data)) = length (keys (ip_by_agent data)))
    as ->.
  { rewrite <-tables_same_keys. unfold keys, values. by rewrite !length_fmap. }
  unfold keys, values. by rewrite !length_fmap.
Qed.

(** *** When the endpoint answers *)

Lemma cpu_current_Raise c e : cpu_current c = Raise e -> e = AttributeError.
Proof.
  unfold cpu_current. destruct (frequency c) as [| |f]; [done|by intros [= <-]|done].
Qed.

Lemma mapM_cpu_current_Raise (l : list Item) item :
  item ∈ l -> frequency (cpu item) = Null ->
  mapM (fun item => cpu_current (cpu item)) l = Raise AttributeError.
Proof.
  intros Hin Hnull. induction l as [|x l IH]; [by inversion Hin|]. cbn [mapM].
  destruct (cpu_current (cpu x)) as [y|e] eqn:Hx.
  - cbn [mbind result_bind]. apply elem_of_cons in Hin as [->|Hin].
    + unfold cpu_current in Hx. by rewrite Hnull in Hx.
    + by rewrite IH.
  - by apply cpu_current_Raise in Hx as ->.
Qed.

(** X26: A record with a [cpu] object whose frequency is null, which is what
    the agent sends from a host where [psutil.cpu_freq()] gives nothing,
    makes the endpoint raise [AttributeError] for the whole store. *)
Theorem get_stats_null_frequency now now' data item :
  item ∈ data -> cpu_truthy (cpu item) = true -> frequency (cpu item) = Null ->
  get_stats now now' data = Raise AttributeError.
Proof.
  intros Hin Htruthy Hnull. unfold Api.get_stats.
  destruct data as [|item0 data']; [by inversion Hin|].
  set (data := item0 :: data') in *. clearbody data.
  unfold cpu_freqs. rewrite (mapM_cpu_current_Raise _ item); [done| |done].
  apply list_elem_of_In, filter_In. split; [by apply list_elem_of_In|done].
Qed.

Lemma Forall2_elem_of_left {A B} (P : A -> B -> Prop) l k x :
  Forall2 P l k -> x ∈ l -> exists y, y ∈ k /\ P x y.
Proof.
  induction 1 as [|x0 y0 l k Hxy Hlk IH]; [by inversion 1|].
  intros [->|Hin]%elem_of_cons.
  - exists y0. split; [by left|done].
  - destruct (IH Hin) as (y & ? & ?). exists y. split; [by right|done].
Qed.

Lemma sum_from_Ok acc l t :
  sum_from acc l = Ok t -> forall y, y ∈ l -> y <> None.
Proof.
  revert acc. induction l as [|[q|] l IH]; intros acc; cbn [sum_from].
  - intros _ y Hy. by inversion Hy.
  - intros Hsum y [->|Hy]%elem_of_cons; [done|]. by apply (IH _ Hsum).
  - done.
Qed.

Lemma sum_from_intro acc l :
  (forall y, y ∈ l -> y <> None) -> exists t, sum_from acc l = Ok t.
Proof.
  revert acc. induction l as [|[q|] l IH]; intros acc Hl; cbn [sum_from].
  - by eexists.
  - apply IH. intros y Hy. apply Hl. by right.
  - by destruct (Hl None); [left|].
Qed.

Lemma select_intro test rows :
  (forall row, row ∈ rows -> row_cpu_percent row <> None) ->
  exists selected, select test rows = Ok selected.
Proof.
  induction rows as [|p rows IH]; intros Hnum; cbn [select]; [by eexists|].
  destruct IH as [sel Hsel]; [intros row Hrow; apply Hnum; by right|].
  destruct (row_cpu_percent p) as [c|] eqn:Hc.
  - rewrite Hsel. destruct (test c); by eexists.
  - by destruct (Hnum p); [left|].
Qed.

(** X27: [GET /api/stats] answers exactly on the empty store and on the stores
    that are answerable; on every other store it raises. *)
Theorem get_stats_answers_iff now now' data :
  (exists st, get_stats now now' data = Ok st) <->
  data = [] \/ Expect.answerable fromisoformat data.
Proof.
  split.
  - intros [st Hst]. destruct data as [|item0 data']; [by left|]. right.
    apply get_stats_steps in Hst
      as (freqs & avg & tl & ordered & high & pa & sa & lu & Hfreqs & Havg & Htl & _
          & Hhigh & _ & Hsa & _); [|done].
    set (data := item0 :: data') in *.
    split; [|split; [|split]].
    + intros item Hin Htruthy. unfold cpu_freqs in Hfreqs.
      apply mapM_Ok in Hfreqs.
      destruct (Forall2_elem_of_left _ _ _ item Hfreqs) as (y & Hy & Hcur).
      { apply list_elem_of_In, filter_In. split; [by apply list_elem_of_In|done]. }
      unfold mean in Havg. destruct freqs as [|f0 freqs]; [by inversion Hy|].
      apply bind_Ok in Havg as (t & Hsum & _).
      pose proof (sum_from_Ok _ _ _ Hsum y Hy) as Hsome.
      destruct y as [q|]; [by exists q|done].
    + intros item Hin. unfold timeline in Htl.
      apply bind_Ok in Htl as (ls & Hls%mapM_Ok & Htl).
      apply bind_Ok in Htl as (ds & Hds%mapM_Ok & _).
      destruct (Forall2_elem_of_left _ _ _ item Hls Hin) as (l & _ & Hl).
      destruct (Forall2_elem_of_left _ _ _ item Hds Hin) as (d & _ & Hd).
      split.
      * unfold time_label in Hl. destruct (after_T (timestamp item)); [by eexists|done].
      * intros Hnull. unfold cpu_current in Hd. by rewrite Hnull in Hd.
    + apply select_is_filter in Hhigh as [Hnum _]. by apply Forall_forall.
    + unfold Api.staleness_alerts in Hsa.
      destruct (last data) as [item|] eqn:Hlast;
        [|unfold data in Hlast; by apply last_None in Hlast].
      destruct (received_at item) as [| |s] eqn:Hrec; try done.
      destruct (fromisoformat s) as [t|] eqn:Ht; [|done].
      by exists item, s, t.
  - intros [->|(Hfreq & Htime & Hrows & (item & s & t & Hlast & Hrec & Hparse))];
      [by eexists|].
    destruct data as [|item0 data']; [done|].
    unfold Api.get_stats. cbv iota.
    remember (item0 :: data') as data eqn:Hdata.
    destruct (mapM_Ok_intro (fun item => cpu_current (cpu item))
                (List.filter (fun item => cpu_truthy (cpu item)) data))
      as [freqs Hfreqs].
    { intros x [Hx Htruthy]%list_elem_of_In%filter_In.
      destruct (Hfreq x) as [q Hq]; [by apply list_elem_of_In|done|by eexists]. }
    assert (exists avg, mean freqs = Ok avg) as [avg Havg].
    { assert (forall y, y ∈ freqs -> y <> None) as Hsome.
      { intros y Hy. apply mapM_Ok, Forall2_flip in Hfreqs.
        destruct (Forall2_elem_of_left _ _ _ y Hfreqs Hy) as (x & Hx & Hcur).
        apply list_elem_of_In, filter_In in Hx as [Hx Htruthy].
        destruct (Hfreq x) as [q Hq]; [by apply list_elem_of_In|done|]. congruence. }
      unfold mean, sum. destruct (sum_from_intro (Finite 0) freqs Hsome) as [total ->].
      destruct freqs; by eexists. }
    destruct (mapM_Ok_intro (fun item => time_label (timestamp item))
                (last_n 20 (sorted_by by_timestamp data))) as [ls Hls].
    { intros x Hx. destruct (Htime x Hx) as [[rest Hrest] _].
      unfold time_label. rewrite Hrest. by eexists. }
    destruct (mapM_Ok_intro (fun item => cpu_current (cpu item))
                (last_n 20 (sorted_by by_timestamp data))) as [ds Hds].
    { intros x Hx. destruct (Htime x Hx) as [_ Hnull].
      unfold cpu_current. destruct (frequency (cpu x)); [by eexists|done|by eexists]. }
    assert (sorted_rows (all_processes data)
            = Ok (sorted_by row_geb (all_processes data))) as Hsorted.
    { unfold sorted_rows.
      destruct (existsb _ (all_processes data)) eqn:Hex; [|by rewrite andb_false_r].
      apply existsb_exists in Hex as (p & Hp%list_elem_of_In & Hnone).
      destruct (Hrows p Hp). by destruct (row_cpu_percent p). }
    destruct (select_intro (Qltb 50) (all_processes data) Hrows) as [high Hhigh].
    destruct (select_intro critical (all_processes data) Hrows) as [cs Hcs].
    destruct (select_intro elevated (all_processes data) Hrows) as [ws Hws].
    unfold cpu_freqs. rewrite Hfreqs. cbn [mbind result_bind]. rewrite Havg. cbn [mbind result_bind].
    unfold timeline. rewrite Hls. cbn [mbind result_bind]. rewrite Hds.
    cbn [mbind result_bind]. rewrite Hsorted. cbn [fmap result_fmap mbind result_bind].
    rewrite Hhigh. cbn [fmap result_fmap mbind result_bind].
    unfold process_alerts. rewrite Hcs. cbn [mbind result_bind]. rewrite Hws.
    cbn [mbind result_bind].
    unfold Api.staleness_alerts, last_received_at. rewrite Hlast, Hrec, Hparse.
    cbv zeta. case_bool_decide; cbn [mbind result_bind]; by eexists.
Qed.

End MoreApiFacts.

(** ** More runs on sample inputs *)

Section MoreRuns.
Import Api Store ApiSamples.

Local Abbreviation run := (Api.get_stats fromisoformat isoformat).
Local Abbreviation at_1003 := (t_1000 + 180 * usec).

Lemma get_real_ip_loopback_inv_witness :
  Agent.is_loopback (Agent.get_real_ip Samples.loopback_route) = true /\
  ((exists ip, Agent.udp_sockname Samples.loopback_route = Some ip /\
      Agent.is_loopback ip = true) \/
   (Agent.udp_sockname Samples.loopback_route = None /\
    Agent.method2 Samples.loopback_route = None /\
    Agent.method3 Samples.loopback_route = None /\
    Agent.get_real_ip Samples.loopback_route = "127.0.0.1")).
Proof.
  split; [reflexivity|].
  apply (get_real_ip_loopback_inv Samples.loopback_route). reflexivity.
Defined.

Lemma snapshot_without_agent_id_not_counted_witness :
  let info := MoreSamples.posted "10.0.0.9" None "2024-05-01T10:01:00" in
  truthy (info_agent_id info) = false /\
  ip_by_agent ([moved_first] ++ data_entry info "2024-05-01T10:01:02" :: [])
    = ip_by_agent ([moved_first] ++ []).
Proof.
  intros info. split; [reflexivity|].
  apply (snapshot_without_agent_id_not_counted fromisoformat
           info "2024-05-01T10:01:02" [moved_first] [] 0 eq_refl).
Defined.

Lemma stats_counts_received_witness :
  let info := MoreSamples.posted "10.0.0.7" (Some "web-7") "2024-05-01T10:01:00" in
  let before := MoreSamples.directory in
  let after := (receive_info info "2024-05-01T10:02:00" before).1 in
  exists st st',
    stats fromisoformat isoformat at_1003 at_1003 before MoreSamples.listing = Ok st /\
    stats fromisoformat isoformat at_1003 at_1003 after MoreSamples.listing = Ok st' /\
    total_records st = 1 /\
    total_records st' = total_records st + 1.
Proof.
  intros info before after.
  assert (NoDup MoreSamples.listing) as Hnodup.
  { apply (bool_decide_unpack _). vm_compute. exact I. }
  assert ("system_data_2024-05-01T10-01-00.json" ∈ MoreSamples.listing) as Hin.
  { right. by left. }
  assert (receive_info info "2024-05-01T10:02:00" before
          = (after, Returned "system_data_2024-05-01T10-01-00.json")) as Hrun.
  { unfold after. rewrite (surjective_pairing (receive_info _ _ _)) at 1.
    f_equal; vm_compute; reflexivity. }
  eexists _, _. split; [vm_compute; reflexivity|]. split; [vm_compute; reflexivity|].
  split; [reflexivity|].
  apply (stats_counts_received fromisoformat isoformat info "2024-05-01T10:02:00"
           before after "system_data_2024-05-01T10-01-00.json" MoreSamples.listing
           at_1003 at_1003 _ _ Hrun Hnodup Hin);
    vm_compute; reflexivity.
Defined.

Lemma top_processes_are_the_highest_witness :
  exists st,
    run at_1003 at_1003 MoreSamples.crowded = Ok st /\
    row_name <$> processes_out st
      = [Some "ffmpeg"; Some "java"; Some "sshd"; Some "idle"] /\
    Sorted Expect.row_ge (processes_out st).
Proof.
  eexists. split; [vm_compute; reflexivity|]. split; [reflexivity|].
  apply (top_processes_are_the_highest fromisoformat isoformat at_1003 at_1003
           MoreSamples.crowded).
  vm_compute. reflexivity.
Defined.

Lemma high_cpu_processes_above_50_witness :
  exists st,
    run at_1003 at_1003 MoreSamples.crowded = Ok st /\
    row_name <$> high_cpu_processes st = [Some "sshd"; Some "java"; Some "ffmpeg"] /\
    high_cpu_processes st
      = take 20 (List.filter Expect.above_50 (all_processes MoreSamples.crowded)).
Proof.
  eexists. split; [vm_compute; reflexivity|]. split; [reflexivity|].
  apply (high_cpu_processes_above_50 fromisoformat isoformat at_1003 at_1003
           MoreSamples.crowded).
  vm_compute. reflexivity.
Defined.

Lemma alerts_in_order_witness :
  exists st,
    run at_1003 at_1003 MoreSamples.crowded = Ok st /\
    alerts st = [critical_alert 1; warning_alert 2; stale_alert 3] /\
    exists n m k,
      alerts st `sublist_of` [critical_alert n; warning_alert m; stale_alert k].
Proof.
  eexists. split; [vm_compute; reflexivity|]. split; [reflexivity|].
  apply (alerts_in_order fromisoformat isoformat at_1003 at_1003 MoreSamples.crowded).
  vm_compute. reflexivity.
Defined.

Lemma cpu_timeline_last_twenty_witness :
  exists st,
    run at_1003 at_1003 out_of_order = Ok st /\
    labels (cpu_timeline st) = ["10:00:00"; "10:01:00"] /\
    exists older recent,
      older ++ recent ≡ₚ out_of_order /\
      length recent = (20 `min` length out_of_order)%nat /\
      (forall x y, x ∈ older -> y ∈ recent ->
         String.leb (timestamp x) (timestamp y) = true) /\
      Sorted (fun x y => String.leb (timestamp x) (timestamp y) = true) recent /\
      Forall2 (fun item label => Expect.label_of (timestamp item) label)
              recent (labels (cpu_timeline st)) /\
      Forall2 Expect.shown_frequency recent (Api.data (cpu_timeline st)).
Proof.
  eexists. split; [vm_compute; reflexivity|]. split; [reflexivity|].
  apply (cpu_timeline_last_twenty fromisoformat isoformat at_1003 at_1003 out_of_order).
  vm_compute. reflexivity.
Defined.

Lemma users_are_deduplicated_witness :
  exists st,
    run at_1003 at_1003 MoreSamples.crowded = Ok st /\
    user_key <$> users_out st = ["ana-pts/0-10.0.0.1"; "luis-pts/1-10.0.0.1"] /\
    NoDup (user_key <$> users_out st).
Proof.
  eexists. split; [vm_compute; reflexivity|]. split; [reflexivity|].
  apply (users_are_deduplicated fromisoformat isoformat at_1003 at_1003
           MoreSamples.crowded).
  vm_compute. reflexivity.
Defined.

Lemma distributions_total_witness :
  exists st,
    run at_1003 at_1003 in_order = Ok st /\
    ip_activity st = {| labels := ["10.0.0.2"]; data := [1] |} /\
    NoDup (keys (ip_by_agent in_order)).
Proof.
  eexists. split; [vm_compute; reflexivity|]. split; [reflexivity|].
  refine (proj1 (distributions_total fromisoformat isoformat at_1003 at_1003
                   in_order _ _)).
  vm_compute. reflexivity.
Defined.

Lemma get_stats_null_frequency_witness :
  MoreSamples.no_frequency ∈ [moved_first; MoreSamples.no_frequency] /\
  cpu_truthy (cpu MoreSamples.no_frequency) = true /\
  frequency (cpu MoreSamples.no_frequency) = Null /\
  run at_1003 at_1003 [moved_first; MoreSamples.no_frequency] = Raise AttributeError.
Proof.
  assert (MoreSamples.no_frequency ∈ [moved_first; MoreSamples.no_frequency]) as Hin.
  { right. by left. }
  split; [exact Hin|]. split; [reflexivity|]. split; [reflexivity|].
  apply (get_stats_null_frequency fromisoformat isoformat at_1003 at_1003
           [moved_first; MoreSamples.no_frequency] MoreSamples.no_frequency Hin);
    reflexivity.
Defined.

End MoreRuns.
